(** * The delivery pipeline of [cli_code/data_deliverer.py]

    A shallow embedding of [DataDeliverer]: the per-file checks
    ([get_file_info], [do_file_checks]), the bookkeeping of the delivery
    dictionary ([update_delivery], [set_progress]), the set-up of the input
    list ([_data_to_deliver]), the tear-down ([__exit__], [_finalize],
    [_clear_tempdir]) and the download ([get]); then the two methods of the
    upload ([prep_upload], [put]), the checks of the log-in
    ([_check_user_input], [_check_ds_access], [_check_project_access]) and
    [get_recipient_key].

    Python dictionaries that are used as structs are records, dictionaries
    that are iterated are association lists in insertion order, the two
    stores are finite maps, and every method is a computation in a state and
    exception monad over the part of the world it reads and writes. *)

From Stdlib Require Import ZArith String Ascii List Bool Lia.
From stdpp Require Import gmap strings list.

Open Scope string_scope.
Open Scope list_scope.

(** ** Paths

    A [pathlib] path is the list of its parts; an absolute path starts with
    its root, the part ["/"] or, for exactly two leading slashes, ["//"]. *)

Abbreviation Path := (list string).

Fixpoint sep_join (l : list string) : string :=
  match l with
  | [] => ""
  | x :: r => match r with [] => x | _ => x +:+ "/" +:+ sep_join r end
  end.

Definition is_root (x : string) : bool :=
  bool_decide (x = "/" \/ x = "//").

(** [str(p)] *)
Definition Path_str (p : Path) : string :=
  match p with
  | [] => "."
  | x :: r => if is_root x then x +:+ sep_join r else sep_join p
  end.

(** [p.name]: the last part, empty for the root and for the empty path. *)
Definition Path_name (p : Path) : string :=
  match p with
  | [] => ""
  | x :: r => if is_root x then List.last r "" else List.last r x
  end.

Definition is_absolute (p : Path) : bool :=
  match p with
  | x :: _ => is_root x
  | [] => false
  end.

(** [a / b]: an absolute right operand replaces the left one. *)
Definition Path_div (a b : Path) : Path :=
  if is_absolute b then b else a ++ b.

(** [p.parent] *)
Definition Path_parent (p : Path) : Path :=
  match p with
  | [x] => if is_root x then p else []
  | _ => removelast p
  end.

(** [Path(s)] for a string: split at the separators, dropping empty parts and
    single dots. *)
Fixpoint split_parts (cur : string) (s : string) : list string :=
  match s with
  | EmptyString => [cur]
  | String c r =>
      if decide (c = "/"%char) then cur :: split_parts "" r
      else split_parts (cur +:+ String c "") r
  end.

(** The root of a string: one slash, two for exactly two leading slashes,
    empty for a relative path. *)
Definition anchor (s : string) : string :=
  match s with
  | String a r =>
      if decide (a = "/"%char) then
        match r with
        | String b r' =>
            if decide (b = "/"%char) then
              match r' with
              | String c _ => if decide (c = "/"%char) then "/" else "//"
              | EmptyString => "//"
              end
            else "/"
        | EmptyString => "/"
        end
      else ""
  | EmptyString => ""
  end.

Definition Path_of_string (s : string) : Path :=
  let parts :=
    filter (fun x => x <> "" /\ x <> ".") (split_parts "" s) in
  if String.eqb (anchor s) "" then parts else anchor s :: parts.

(** No separator occurs in [s]. *)
Fixpoint no_slash (s : string) : bool :=
  match s with
  | EmptyString => true
  | String c r => negb (bool_decide (c = "/"%char)) && no_slash r
  end.

Definition nl : string := String (ascii_of_nat 10) "".

(** ['\n'.join(l)] *)
Fixpoint nl_join (l : list string) : string :=
  match l with
  | [] => ""
  | x :: r => match r with [] => x | _ => x +:+ nl +:+ nl_join r end
  end.

(** [t] ends in [s]. *)
Definition ends_with (t s : string) : Prop := exists u, t = u +:+ s.

(** [x in s] for strings. *)
Fixpoint contains (x s : string) : bool :=
  String.prefix x s ||
  match s with
  | EmptyString => false
  | String _ r => contains x r
  end.

(** ** Exceptions, log records and the trace of input and output *)

Inductive exn :=
| KeyError (k : string)
| OSError (msg : string)
| DeliverySystemException (msg : string)
| DeliveryOptionException (msg : string)
| DataException (msg : string)
| CouchDBException (msg : string)
| ClientError (msg : string)
| S3Error (msg : string)
| SystemExit (msg : string)
| AttributeError (msg : string).

Definition exn_msg (e : exn) : string :=
  match e with
  | KeyError m | OSError m | DeliverySystemException m
  | DeliveryOptionException m | DataException m | CouchDBException m
  | ClientError m | S3Error m | SystemExit m | AttributeError m => m
  end.

(** [except Exception] catches everything but [SystemExit]. *)
Definition is_Exception (e : exn) : bool :=
  match e with SystemExit _ => false | _ => true end.

Definition is_DeliverySystemException (e : exn) : bool :=
  match e with DeliverySystemException _ => true | _ => false end.

Definition is_ClientError (e : exn) : bool :=
  match e with ClientError _ => true | _ => false end.

Definition is_CouchDBException (e : exn) : bool :=
  match e with CouchDBException _ => true | _ => false end.

Definition is_DataException (e : exn) : bool :=
  match e with DataException _ => true | _ => false end.

Definition is_OSError (e : exn) : bool :=
  match e with OSError _ => true | _ => false end.

Inductive level := DEBUG | INFO | WARNING | ERROR | CRITICAL | STDOUT | STDERR.

(** What a method did to the world outside the process, in order. *)
Inductive io_event :=
| ReadHeader (file : Path)
| DbFiles (project : string)
| S3Exists (key : string)
| S3Delete (key : string)
| DbDelete (project key : string)
| S3List (prefix : string)
| S3Download (key : string) (dest : Path)
| Mkdir (p : Path)
| Rmtree (p : Path)
| Stat (p : Path).

Inductive result (A : Type) :=
| Ok (a : A)
| Raise (e : exn).
Arguments Ok {A} a.
Arguments Raise {A} e.

(** ** The delivery dictionary *)

Record stage := { in_progress : bool; finished : bool }.

(** The dictionary built at the end of [get_file_info]. *)
Record file_info := {
  in_directory : bool;
  dir_name : option Path;
  path_base : option string;
  directory_path : Path;
  size : Z;
  suffixes : list string;
  proceed : bool;
  compressed : bool;
  new_file : string;
  error : string;
  encrypted_file : Path;
  encrypted_size : Z;
  processing : stage;
  upload : stage;
  database : stage
}.

(** What [get_file_info] returns: the two-key dictionary
    [{'proceed': False, 'error': error}] or the full one. *)
Inductive checked :=
| Failed (err : string)
| Info (i : file_info).

Definition checked_proceed (c : checked) : bool :=
  match c with Failed _ => false | Info i => proceed i end.

Definition checked_error (c : checked) : string :=
  match c with Failed e => e | Info i => error i end.

(** ** The world

    The collaborators that are not part of this module enter through their
    observable results. *)
Record world := {
  (** [is_compressed(file)] of [file_handler]: the verdict of the header and
      an error text, empty when the header could be read. *)
  is_compressed : Path -> bool * string;
  (** [get_root_path(file, path_base)] of [file_handler]. *)
  get_root_path : Path -> option string -> Path;
  (** the keys of [MAGIC_DICT]. *)
  MAGIC_DICT : list string;
  (** [file.suffixes] and [file.stat().st_size]. *)
  Path_suffixes : Path -> list string;
  st_size : Path -> Z;
  (** the error text that [file_exists_in_bucket] returns next to its
      verdict. *)
  exists_error : string -> string;
  (** a failure of the connector when the project document is read. *)
  db_fault : string -> option exn;
  (** a failure of [delete_item]. *)
  delete_fault : string -> option exn;
  (** a failure of [shutil.rmtree]. *)
  rmtree_fault : Path -> option exn;
  (** a failure of [mkdir] and of [download_file]. *)
  mkdir_fault : Path -> option exn;
  download_fault : string -> option exn;
  (** [Path(d).exists()], [Path(d).resolve()], [p.is_dir()], [p.is_file()] and
      [folder.glob('**/*')] on the sender's file system. *)
  path_exists : string -> bool;
  resolve : string -> Path;
  is_dir : Path -> bool;
  is_file : Path -> bool;
  glob : Path -> list Path;
  (** the stripped lines of the path file, [None] when it does not exist. *)
  read_pathfile : string -> option (list string);
  (** [textwrap.TextWrapper(width=100).wrap] and the rendering of a
      [PrettyTable] with the given header and rows. *)
  wrap : string -> list string;
  render : string * string -> list (string * string) -> string
}.

Inductive node := Dir | File (content : string).

Global Instance node_eq_dec : EqDecision node.
Proof. solve_decision. Defined.

(** A value of [self.failed]: the two-key dictionary of a rejected file, the
    one-key dictionary [{'error': ...}], or, for a directory, the dictionary
    from its files to their error texts. *)
Record failed_entry := {
  f_proceed : option bool;
  f_error : option string;
  f_files : gmap Path string
}.

(** A value of [self.data[path]] in the get direction. *)
Record dl_status := { downloaded : bool; dl_error : option exn }.

(** The mutable part of the world.  [project_db] maps a project to its
    ['files'] dictionary, [bucket] is the object store of the session's
    bucket, [fs] the temporary directory tree in enumeration order.  [data]
    is [self.data] of a session that uploads (insertion order), [gdata] is
    [self.data] of a session that downloads; a session has one direction, so
    one of the two is empty.  [failed] is [self.failed]; a key is a path or
    [None]. *)
Record state := {
  data : list (Path * file_info);
  gdata : gmap string (gmap Path dl_status);
  failed : gmap (option Path) failed_entry;
  project_db : gmap string (gmap string string);
  bucket_exists : bool;
  bucket : gmap string string;
  fs : list (Path * node);
  log : list (level * string);
  io : list io_event
}.

Definition M (A : Type) : Type := state -> result A * state.

Definition ret {A} (a : A) : M A := fun s => (Ok a, s).
Definition raise {A} (e : exn) : M A := fun s => (Raise e, s).
Definition bind {A B} (m : M A) (k : A -> M B) : M B :=
  fun s => match m s with
           | (Ok a, s') => k a s'
           | (Raise e, s') => (Raise e, s')
           end.

Notation "x <- c1 ;; c2" := (bind c1 (fun x => c2))
  (at level 100, c1 at next level, right associativity).
Notation "c1 ;; c2" := (bind c1 (fun _ => c2))
  (at level 100, right associativity).

(** [try: m except <class>: h] *)
Definition try_except {A} (m : M A) (cls : exn -> bool) (h : exn -> M A) : M A :=
  fun s => match m s with
           | (Raise e, s') => if cls e then h e s' else (Raise e, s')
           | r => r
           end.

Definition get_state : M state := fun s => (Ok s, s).

Definition with_log (l : list (level * string)) (s : state) : state :=
  {| data := data s; gdata := gdata s; failed := failed s;
     project_db := project_db s; bucket_exists := bucket_exists s;
     bucket := bucket s; fs := fs s; log := l; io := io s |}.

Definition with_io (l : list io_event) (s : state) : state :=
  {| data := data s; gdata := gdata s; failed := failed s;
     project_db := project_db s; bucket_exists := bucket_exists s;
     bucket := bucket s; fs := fs s; log := log s; io := l |}.

Definition with_project_db (d : gmap string (gmap string string)) (s : state)
  : state :=
  {| data := data s; gdata := gdata s; failed := failed s;
     project_db := d; bucket_exists := bucket_exists s;
     bucket := bucket s; fs := fs s; log := log s; io := io s |}.

Definition with_bucket (b : gmap string string) (s : state) : state :=
  {| data := data s; gdata := gdata s; failed := failed s;
     project_db := project_db s; bucket_exists := bucket_exists s;
     bucket := b; fs := fs s; log := log s; io := io s |}.

Definition with_fs (f : list (Path * node)) (s : state) : state :=
  {| data := data s; gdata := gdata s; failed := failed s;
     project_db := project_db s; bucket_exists := bucket_exists s;
     bucket := bucket s; fs := f; log := log s; io := io s |}.

Definition with_data (d : list (Path * file_info)) (s : state) : state :=
  {| data := d; gdata := gdata s; failed := failed s;
     project_db := project_db s; bucket_exists := bucket_exists s;
     bucket := bucket s; fs := fs s; log := log s; io := io s |}.

Definition with_gdata (d : gmap string (gmap Path dl_status)) (s : state)
  : state :=
  {| data := data s; gdata := d; failed := failed s;
     project_db := project_db s; bucket_exists := bucket_exists s;
     bucket := bucket s; fs := fs s; log := log s; io := io s |}.

Definition with_failed (d : gmap (option Path) failed_entry) (s : state)
  : state :=
  {| data := data s; gdata := gdata s; failed := d;
     project_db := project_db s; bucket_exists := bucket_exists s;
     bucket := bucket s; fs := fs s; log := log s; io := io s |}.

Definition modify (f : state -> state) : M unit := fun s => (Ok tt, f s).

Definition LOGGER (l : level) (msg : string) : M unit :=
  modify (fun s => with_log (log s ++ [(l, msg)]) s).

Definition emit (e : io_event) : M unit :=
  modify (fun s => with_io (io s ++ [e]) s).

(** The attributes of the session that the methods read. *)
Record config := {
  break_on_fail : bool;
  overwrite : bool;
  method : string;
  project_id : string;
  bucketname : string;
  tempdir : Path
}.

(** ** The per-file checks *)

Section Checks.
Variable W : world.
Variable C : config.

(** Modelled from the spec: [DatabaseConnector] is not among the sources; the
    metadata store gives [project(id) -> {..., files: map<key, metadata>}].
    The code reads it as [project_db[self.project_id]['files']] inside
    [with DatabaseConnector('project_db')], a mapping whose missing key is a
    [KeyError]; the connector itself may fail ([db_fault]). *)
Definition project_files : M (gmap string string) :=
  emit (DbFiles (project_id C)) ;;
  match db_fault W (project_id C) with
  | Some e => raise e
  | None =>
      s <- get_state ;;
      match project_db s !! project_id C with
      | Some files => ret files
      | None => raise (KeyError (project_id C))
      end
  end.

(** Modelled from the spec: [S3Connector.file_exists_in_bucket] is not among
    the sources; the object store answers [exists(bucket, key) -> bool],
    and the connector returns an error text next to it. *)
Definition file_exists_in_bucket (key : string) : M (bool * string) :=
  emit (S3Exists key) ;;
  s <- get_state ;;
  ret (bool_decide (is_Some (bucket s !! key)), exists_error W key).

(** [set(suffixes).intersection(set(MAGIC_DICT))] as a condition. *)
Definition magic_suffix (sfx : list string) : bool :=
  existsb (fun x => bool_decide (x ∈ MAGIC_DICT W)) sfx.

Definition new_stage : stage := {| in_progress := false; finished := false |}.

(** The part of [get_file_info] from the bucket check on; [in_db] is the
    local variable of that name. *)
Definition get_file_info_bucket (file : Path) (in_dir : bool)
    (dir_name : Path) (compressed : bool) (bucketfilename : string)
    (in_db : bool) : M checked :=
  let proceed := true in
  let path_base := if in_dir then Some (Path_name dir_name) else None in
  let directory_path := get_root_path W file path_base in
  let suffixes := Path_suffixes W file in
  r <- file_exists_in_bucket bucketfilename ;;
  let '(in_bucket, error) := r in
  if in_bucket && negb in_db then
    let error := error +:+ nl +:+ "File '" +:+ Path_name file +:+ "' already exists in "
      +:+ "bucket, but does NOT exist in database. "
      +:+ "Delivery cancelled, contact support." in
    LOGGER CRITICAL error ;;
    ret (Failed error)
  else if in_bucket && negb (overwrite C) then ret (Failed error)
  else
    emit (Stat file) ;;
    ret (Info {| in_directory := in_dir;
                 dir_name := if in_dir then Some dir_name else None;
                 path_base := path_base;
                 directory_path := directory_path;
                 size := st_size W file;
                 suffixes := suffixes;
                 proceed := proceed;
                 compressed := compressed;
                 new_file := bucketfilename;
                 error := error;
                 encrypted_file := [];
                 encrypted_size := 0;
                 processing := new_stage;
                 upload := new_stage;
                 database := new_stage |}).

Definition get_file_info (file : Path) (in_dir : bool) (dir_name : Path)
  : M checked :=
  let path_base := if in_dir then Some (Path_name dir_name) else None in
  let directory_path := get_root_path W file path_base in
  let suffixes := Path_suffixes W file in
  let rest := get_file_info_bucket file in_dir dir_name in
  emit (ReadHeader file) ;;
  let '(compressed, error) := is_compressed W file in
  if negb (String.eqb error "") then ret (Failed error) else
  proc_suff <-
    (if negb compressed then
       (if magic_suffix suffixes then
          LOGGER WARNING ("File '" +:+ Path_str file +:+ "' has extensions belonging "
            +:+ "to a compressed format but shows no "
            +:+ "indication of being compressed. Not "
            +:+ "compressing file.")
        else ret tt) ;;
       ret ("" +:+ ".zst")
     else
       LOGGER INFO ("File '" +:+ Path_str file +:+ "' shows indication of being "
         +:+ "in a compressed format. "
         +:+ "Not compressing the file.") ;;
       ret "") ;;
  let proc_suff := proc_suff +:+ ".ccp" in
  let bucketfilename :=
    Path_str (Path_div directory_path
                (Path_of_string (Path_name file +:+ proc_suff))) in
  files <- project_files ;;
  if bool_decide (is_Some (files !! bucketfilename)) then
    let error := "File '" +:+ Path_str file +:+ "' already exists in the database. " in
    LOGGER WARNING error ;;
    if negb (overwrite C) then ret (Failed error)
    else rest compressed bucketfilename true
  else rest compressed bucketfilename false.

(** The second copy of the checks; it returns the tuple
    [(proceed, compressed, bucketfilename, error)]. *)
Definition do_file_checks (file : Path) (directory_path : Path)
    (suffixes : list string) : M (bool * bool * string * string) :=
  emit (ReadHeader file) ;;
  let '(compressed, error) := is_compressed W file in
  if negb (String.eqb error "") then ret (false, compressed, "", error) else
  proc_suff <-
    (if negb compressed then
       (if magic_suffix suffixes then
          LOGGER WARNING ("File '" +:+ Path_str file +:+ "' has extensions belonging "
            +:+ "to a compressed format but shows no "
            +:+ "indication of being compressed. Not "
            +:+ "compressing file.")
        else ret tt) ;;
       ret ("" +:+ ".zst")
     else
       LOGGER WARNING ("File '" +:+ Path_str file +:+ "' shows indication of being "
         +:+ "in a compressed format. "
         +:+ "Not compressing the file.") ;;
       ret "") ;;
  let proc_suff := proc_suff +:+ ".ccp" in
  let bucketfilename :=
    Path_str (Path_div directory_path
                (Path_of_string (Path_name file +:+ proc_suff))) in
  files <- project_files ;;
  if bool_decide (is_Some (files !! bucketfilename)) then
    let error := "File '" +:+ Path_str file +:+ "' already exists in the database. " in
    LOGGER WARNING error ;;
    ret (false, compressed, bucketfilename, error)
  else
  r <- file_exists_in_bucket bucketfilename ;;
  let '(in_bucket, error) := r in
  if in_bucket then
    let error := error +:+ nl +:+ "File '" +:+ Path_name file +:+ "' already exists in "
      +:+ "bucket, but does NOT exist in database. "
      +:+ "Delivery cancelled, contact support." in
    LOGGER CRITICAL error ;;
    ret (false, compressed, bucketfilename, error)
  else ret (true, compressed, bucketfilename, error).

End Checks.

(** ** Updates of the delivery dictionary *)

(** The argument of [update_delivery]: a dictionary with some of the keys of
    the delivery dictionary. *)
Record updinfo := {
  u_in_directory : option bool;
  u_dir_name : option (option Path);
  u_path_base : option (option string);
  u_directory_path : option Path;
  u_size : option Z;
  u_suffixes : option (list string);
  u_proceed : option bool;
  u_compressed : option bool;
  u_new_file : option string;
  u_error : option string;
  u_encrypted_file : option Path;
  u_encrypted_size : option Z;
  u_processing : option stage;
  u_upload : option stage;
  u_database : option stage
}.

(** [info.update(u)] *)
Definition dict_update (u : updinfo) (i : file_info) : file_info :=
  {| in_directory := default (in_directory i) (u_in_directory u);
     dir_name := default (dir_name i) (u_dir_name u);
     path_base := default (path_base i) (u_path_base u);
     directory_path := default (directory_path i) (u_directory_path u);
     size := default (size i) (u_size u);
     suffixes := default (suffixes i) (u_suffixes u);
     proceed := default (proceed i) (u_proceed u);
     compressed := default (compressed i) (u_compressed u);
     new_file := default (new_file i) (u_new_file u);
     error := default (error i) (u_error u);
     encrypted_file := default (encrypted_file i) (u_encrypted_file u);
     encrypted_size := default (encrypted_size i) (u_encrypted_size u);
     processing := default (processing i) (u_processing u);
     upload := default (upload i) (u_upload u);
     database := default (database i) (u_database u) |}.

(** [info.update({'proceed': False, 'error': msg})] *)
Definition cancelled (msg : string) (i : file_info) : file_info :=
  {| in_directory := in_directory i;
     dir_name := dir_name i;
     path_base := path_base i;
     directory_path := directory_path i;
     size := size i;
     suffixes := suffixes i;
     proceed := false;
     compressed := compressed i;
     new_file := new_file i;
     error := msg;
     encrypted_file := encrypted_file i;
     encrypted_size := encrypted_size i;
     processing := processing i;
     upload := upload i;
     database := database i |}.

(** [info[k]] and [info[k].update(st)] for the three stage keys. *)
Definition stage_get (k : string) (i : file_info) : option stage :=
  if String.eqb k "processing" then Some (processing i)
  else if String.eqb k "upload" then Some (upload i)
  else if String.eqb k "database" then Some (database i)
  else None.

Definition stage_set (k : string) (st : stage) (i : file_info) : file_info :=
  {| in_directory := in_directory i;
     dir_name := dir_name i;
     path_base := path_base i;
     directory_path := directory_path i;
     size := size i;
     suffixes := suffixes i;
     proceed := proceed i;
     compressed := compressed i;
     new_file := new_file i;
     error := error i;
     encrypted_file := encrypted_file i;
     encrypted_size := encrypted_size i;
     processing := if String.eqb k "processing" then st else processing i;
     upload := if String.eqb k "upload" then st else upload i;
     database := if String.eqb k "database" then st else database i |}.

(** [d[key]] for a key that may be missing. *)
Definition getitem {A} (key : string) (o : option A) : M A :=
  match o with
  | Some a => ret a
  | None => raise (KeyError key)
  end.

Fixpoint data_lookup (file : Path) (d : list (Path * file_info))
  : option file_info :=
  match d with
  | [] => None
  | (p, i) :: r => if bool_decide (p = file) then Some i else data_lookup file r
  end.

(** A change of the dictionary [self.data[file]] in place. *)
Fixpoint data_alter (f : file_info -> file_info) (file : Path)
    (d : list (Path * file_info)) : list (Path * file_info) :=
  match d with
  | [] => []
  | (p, i) :: r =>
      if bool_decide (p = file) then (p, f i) :: r
      else (p, i) :: data_alter f file r
  end.

(** [self.data[file]] *)
Definition data_getitem (file : Path) : M file_info :=
  s <- get_state ;;
  getitem (Path_str file) (data_lookup file (data s)).

Definition empty_entry : failed_entry :=
  {| f_proceed := None; f_error := None; f_files := ∅ |}.

Definition error_entry (err : string) : failed_entry :=
  {| f_proceed := None; f_error := Some err; f_files := ∅ |}.

Definition rejected_entry (err : string) : failed_entry :=
  {| f_proceed := Some false; f_error := Some err; f_files := ∅ |}.

Definition opt_str (o : option Path) : string :=
  match o with
  | Some p => Path_str p
  | None => "None"
  end.

(** [self.failed[dn][path] = {'error': msg}], also written
    [self.failed[dn].update({path: {'error': msg}})]. *)
Definition failed_add (dn : option Path) (path : Path) (msg : string) : M unit :=
  s <- get_state ;;
  e <- getitem (opt_str dn) (failed s !! dn) ;;
  modify (with_failed
            (<[dn := {| f_proceed := f_proceed e; f_error := f_error e;
                        f_files := <[path := msg]> (f_files e) |}]> (failed s))).

(** ** The methods of a session *)

Section Session.
Variable W : world.
Variable C : config.

(** The loop of [update_delivery] over [self.data.items()].  [visited] are
    the entries before the current one; [info] is the same object as
    [self.data[path]], so the update is written at its position. *)
Fixpoint cancel_directory (file : Path) (updinfo : updinfo)
    (dn : option Path) (visited items : list (Path * file_info)) : M unit :=
  match items with
  | [] => ret tt
  | (path, info) :: rest =>
      if bool_decide (dir_name info = dn)
         && negb (in_progress (upload info))
         && negb (finished (upload info))
      then
        err <- getitem "error" (u_error updinfo) ;;
        let msg := "Failed file: " +:+ Path_str file +:+ " -- " +:+ err in
        modify (with_data (visited ++ (path, cancelled msg info) :: rest)) ;;
        failed_add (dir_name info) path msg ;;
        cancel_directory file updinfo dn
          (visited ++ [(path, cancelled msg info)]) rest
      else
        cancel_directory file updinfo dn (visited ++ [(path, info)]) rest
  end.

Definition update_delivery (file : Path) (updinfo : updinfo) : M unit :=
  proceed_ <- getitem "proceed" (u_proceed updinfo) ;;
  if negb proceed_ then
    info <- data_getitem file ;;
    in_dir_done <-
      (if in_directory info then
         s <- get_state ;;
         (if bool_decide (is_Some (failed s !! dir_name info)) then ret tt
          else modify (with_failed (<[dir_name info := empty_entry]> (failed s)))) ;;
         if break_on_fail C then
           s <- get_state ;;
           cancel_directory file updinfo (dir_name info) [] (data s) ;;
           ret true
         else
           err <- getitem "error" (u_error updinfo) ;;
           failed_add (dir_name info) file err ;;
           ret false
       else ret false) ;;
    if in_dir_done : bool then ret tt
    else
      err <- getitem "error" (u_error updinfo) ;;
      modify (fun s => with_data (data_alter (cancelled err) file (data s)) s) ;;
      modify (fun s => with_failed (<[Some file := error_entry err]> (failed s)) s)
  else
    try_except
      (_ <- data_getitem file ;;
       modify (fun s => with_data (data_alter (dict_update updinfo) file (data s)) s))
      is_DataException
      (fun dex => LOGGER ERROR ("Data delivery information failed to "
                                +:+ "update: " +:+ exn_msg dex)).

(** The key that [set_progress] selects. *)
Definition to_update_of (processing upload db : bool) : string :=
  if processing then "processing"
  else if upload then "upload"
  else if db then "database"
  else "".

Definition set_progress (item : Path) (check processing upload db
    started finished : bool) : M unit :=
  let to_update := to_update_of processing upload db in
  let update (st : stage) : M unit :=
    info <- data_getitem item ;;
    _ <- getitem to_update (stage_get to_update info) ;;
    modify (fun s => with_data (data_alter (stage_set to_update st) item (data s)) s) in
  try_except
    (if started then update (Build_stage started (negb started))
     else if finished then update (Build_stage (negb finished) finished)
     else ret tt)
    is_DataException
    (fun dex => LOGGER ERROR ("Data delivery information failed to "
                              +:+ "update: " +:+ exn_msg dex)).

(** Modelled from the spec: [S3Connector.delete_item] is not among the
    sources; the object store offers [delete(bucket, key)]. *)
Definition delete_item (key : string) : M unit :=
  emit (S3Delete key) ;;
  match delete_fault W key with
  | Some e => raise e
  | None => modify (fun s => with_bucket (delete key (bucket s)) s)
  end.

(** Modelled from the spec: the metadata store offers
    [delete_file(project_id, key)]; the code writes it as
    [del proj['files'][key]] on the document [proj = prdb[project_id]], and
    the deletion of a missing key of a mapping is a [KeyError]. *)
Definition del_file (files : gmap string string) (key : string) : M unit :=
  emit (DbDelete (project_id C) key) ;;
  match files !! key with
  | None => raise (KeyError key)
  | Some _ =>
      modify (fun s => with_project_db
                (<[project_id C := delete key files]> (project_db s)) s)
  end.

Definition _finalize (file : Path) (info : file_info) : M bool :=
  deleted <-
    (if finished (upload info) && negb (finished (database info)) then
       try_except
         (delete_item (new_file info) ;; ret true)
         is_ClientError
         (fun e => LOGGER WARNING (exn_msg e) ;; ret false)
     else ret true) ;;
  if negb deleted then ret false
  else
    try_except
      (files <- project_files W C ;;
       (if finished (database info) && negb (finished (upload info)) then
          del_file files (new_file info)
        else ret tt) ;;
       ret true)
      is_CouchDBException
      (fun e => LOGGER WARNING (exn_msg e) ;; ret false).

(** [shutil.rmtree(d)] *)
Definition rmtree (d : Path) : M unit :=
  emit (Rmtree d) ;;
  match rmtree_fault W d with
  | Some e => raise e
  | None =>
      modify (fun s => with_fs
                (filter (fun e => ~ (d `prefix_of` fst e)) (fs s)) s)
  end.

Fixpoint clear_dirs (ds : list Path) : M unit :=
  match ds with
  | [] => ret tt
  | d :: rest =>
      try_except (rmtree d) is_DeliverySystemException
        (fun e => LOGGER ERROR ("Failed emptying the temporary folder "
                                +:+ Path_str d +:+ ": " +:+ exn_msg e)) ;;
      clear_dirs rest
  end.

(** [[x for x in self.tempdir[1].iterdir() if x.is_dir()]] *)
Definition temp_dirs (t : Path) (f : list (Path * node)) : list Path :=
  fst <$> filter (fun e => e.2 = Dir /\ e.1 <> t /\ Path_parent e.1 = t) f.

Definition _clear_tempdir : M unit :=
  s <- get_state ;;
  if bool_decide ((tempdir C, Dir) ∈ fs s) then
    clear_dirs (temp_dirs (tempdir C) (fs s))
  else raise (OSError ("No such file or directory: " +:+ Path_str (tempdir C))).

End Session.

(** ** Tear-down *)

(** The two tables of [__exit__] and the dictionaries next to them. *)
Record tables := {
  succeeded : list (string * string);
  suc_dict : gmap string string;
  failed_rows : list (string * string);
  fai_dict : gmap string string
}.

Definition no_tables : tables :=
  {| succeeded := []; suc_dict := ∅; failed_rows := []; fai_dict := ∅ |}.

Definition add_succeeded (suc loc : string) (t : tables) : tables :=
  if bool_decide (is_Some (suc_dict t !! suc)) then t
  else {| succeeded := succeeded t ++ [(suc, loc)];
          suc_dict := <[suc := loc]> (suc_dict t);
          failed_rows := failed_rows t; fai_dict := fai_dict t |}.

Definition add_failed (fail err : string) (t : tables) : tables :=
  if bool_decide (is_Some (fai_dict t !! fail)) then t
  else {| succeeded := succeeded t; suc_dict := suc_dict t;
          failed_rows := failed_rows t ++ [(fail, err)];
          fai_dict := <[fail := err]> (fai_dict t) |}.

(** The condition of the loop of [__exit__]. *)
Definition delivered (info : file_info) : bool :=
  proceed info && finished (upload info) && finished (database info).

(** The name under which a file is listed. *)
Definition item_name (f : Path) (info : file_info) : string :=
  if in_directory info then opt_str (dir_name info) else Path_str f.

Section Teardown.
Variable W : world.
Variable C : config.

(** One round of the loop of [__exit__]. *)
Definition exit_item (f : Path) (info : file_info) (t : tables) : M tables :=
  if delivered info then
    s <- get_state ;;
    if bool_decide (is_Some (failed s !! Some f)) then
      raise (DeliverySystemException
               ("File: " +:+ Path_str f +:+ " -- Recorded as "
                +:+ "delivered, but also as " +:+ "failed. Bug. "))
    else
      let suc := item_name f info in
      let loc := Path_str (directory_path info) +:+ nl in
      ret (add_succeeded suc loc t)
  else
    finalized <- _finalize W C f info ;;
    let fail := item_name f info in
    let err := nl_join (wrap W (error info)) +:+ nl in
    ret (add_failed fail err t).

Fixpoint exit_loop (items : list (Path * file_info)) (t : tables) : M tables :=
  match items with
  | [] => ret t
  | (f, info) :: rest => t' <- exit_item f info t ;; exit_loop rest t'
  end.

(** [__exit__(exc_type, exc_value, tb)]; the result is [Some false] for
    [return False] and [None] when the method falls off its end.  The
    dictionaries of a session that downloads have no key ['proceed'], so the
    first round of the loop over them is a [KeyError]. *)
Definition __exit__ (exc : option exn) : M (option bool) :=
  match exc with
  | Some e => LOGGER STDERR (exn_msg e) ;; ret (Some false)
  | None =>
      s <- get_state ;;
      (if bool_decide (gdata s = ∅) then ret tt else raise (KeyError "proceed")) ;;
      t <- exit_loop (data s) no_tables ;;
      _clear_tempdir W C ;;
      (if bool_decide (0 < base.size (suc_dict t)) then
         LOGGER INFO "----DELIVERY COMPLETED----" ;;
         LOGGER INFO ("The following items were uploaded:" +:+ nl
                      +:+ render W ("Item", "Location") (succeeded t) +:+ nl)
       else ret tt) ;;
      (if bool_decide (base.size (fai_dict t) = base.size (suc_dict t) + base.size (fai_dict t)) then
         LOGGER ERROR "----DELIVERY FAILED----"
       else ret tt) ;;
      (if bool_decide (0 < base.size (fai_dict t)) then
         LOGGER ERROR ("The following items were NOT uploaded:" +:+ nl
                       +:+ render W ("Item", "Error") (failed_rows t) +:+ nl)
       else ret tt) ;;
      ret None
  end.

End Teardown.

(** ** Set-up of the input list *)

(** A key of [all_files]: a string as given by the user, or a path. *)
Inductive pykey :=
| KStr (s : string)
| KPath (p : Path).

Global Instance pykey_eq_dec : EqDecision pykey.
Proof. solve_decision. Defined.

(** [d[k] = v] on a dictionary in insertion order. *)
Fixpoint dict_set {K V} `{EqDecision K} (k : K) (v : V) (d : list (K * V))
  : list (K * V) :=
  match d with
  | [] => [(k, v)]
  | (k', v') :: r =>
      if decide (k' = k) then (k, v) :: r else (k', v') :: dict_set k v r
  end.

(** [k in d] *)
Definition dict_mem {K V} `{EqDecision K} (k : K) (d : list (K * V)) : bool :=
  bool_decide (k ∈ d.*1).

Section Setup.
Variable W : world.
Variable C : config.

(** The loop of [get_dir_info] over [folder.glob('**/*')].  The value of
    ['proceed'] is [False] exactly in the two-key dictionary. *)
Fixpoint get_dir_info_loop (folder : Path) (found : list Path)
    (dir_info : list (Path * file_info))
    (dir_fail : gmap (option Path) failed_entry)
  : M (list (Path * file_info) * gmap (option Path) failed_entry) :=
  match found with
  | [] => ret (dir_info, dir_fail)
  | f :: rest =>
      if is_file W f && negb (contains "DS_Store" (Path_str f)) then
        file_info <- get_file_info W C f true folder ;;
        match file_info with
        | Failed err =>
            LOGGER DEBUG (Path_str f +:+ " FAILED") ;;
            get_dir_info_loop folder rest dir_info
              (<[Some f := rejected_entry err]> dir_fail)
        | Info i =>
            get_dir_info_loop folder rest (dict_set f i dir_info) dir_fail
        end
      else get_dir_info_loop folder rest dir_info dir_fail
  end.

Definition get_dir_info (folder : Path)
  : M (list (Path * file_info) * gmap (option Path) failed_entry) :=
  get_dir_info_loop folder (glob W folder) [] ∅.

(** [all_files.update(dir_info)] *)
Definition update_all (dir_info : list (Path * file_info))
    (all_files : list (pykey * option file_info))
  : list (pykey * option file_info) :=
  fold_left (fun acc e => dict_set (KPath e.1) (Some e.2) acc) dir_info all_files.

(** The loop of [_data_to_deliver]; the value [None] is the empty dictionary
    of the get direction. *)
Fixpoint deliver_loop (data_list : list string)
    (all_files : list (pykey * option file_info))
    (initial_fail : gmap (option Path) failed_entry)
  : M (list (pykey * option file_info) * gmap (option Path) failed_entry) :=
  match data_list with
  | [] => ret (all_files, initial_fail)
  | d :: rest =>
      if dict_mem (KStr d) all_files || dict_mem (KPath (resolve W d)) all_files
      then
        raise (DeliveryOptionException
                 ("The path to file " +:+ d +:+ " is listed multiple times, "
                  +:+ "please remove path dublicates."))
      else if String.eqb (method C) "get" then
        deliver_loop rest (dict_set (KStr d) None all_files) initial_fail
      else if String.eqb (method C) "put" then
        if negb (path_exists W d) then
          raise (OSError ("Trying to deliver a non-existing file/"
                          +:+ "folder: " +:+ d +:+ " -- Delivery not possible."))
        else
          let curr_path := resolve W d in
          if is_dir W curr_path then
            r <- get_dir_info curr_path ;;
            let '(dir_info, dir_fail) := r in
            deliver_loop rest (update_all dir_info all_files)
              (dir_fail ∪ initial_fail)
          else
            file_info <- get_file_info W C curr_path false [] ;;
            match file_info with
            | Failed err =>
                deliver_loop rest all_files
                  (<[Some curr_path := rejected_entry err]> initial_fail)
            | Info i =>
                deliver_loop rest (dict_set (KPath curr_path) (Some i) all_files)
                  initial_fail
            end
      else deliver_loop rest all_files initial_fail
  end.

Definition _data_to_deliver (data : list string) (pathfile : option string)
  : M (list (pykey * option file_info) * gmap (option Path) failed_entry) :=
  let data_list :=
    data ++ match pathfile with
            | Some pf => default [] (read_pathfile W pf)
            | None => []
            end in
  if negb (String.eqb (method C) "get" || String.eqb (method C) "put") then
    raise (DeliveryOptionException
             ("Delivery option {self.method} not allowed. "
              +:+ "Cancelling delivery."))
  else deliver_loop data_list [] ∅.

End Setup.

(** ** Download *)

(** The prefixes of a path, shortest first, without the empty one. *)
Fixpoint ancestors (p : Path) : list Path :=
  match p with
  | [] => []
  | x :: r => [x] :: (cons x <$> ancestors r)
  end.

(** [p.exists()] in the temporary tree; the current directory and the root
    always exist. *)
Definition fs_exists (p : Path) (f : list (Path * node)) : bool :=
  bool_decide (p = [] \/ p = ["/"] \/ p = ["//"] \/ p ∈ f.*1).

(** [try: m except <class> as e: ... else: ...]: the outcome of [m] as a
    value. *)
Definition attempt {A} (m : M A) (cls : exn -> bool) : M (result A) :=
  fun s => match m s with
           | (Ok a, s') => (Ok (Ok a), s')
           | (Raise e, s') =>
               if cls e then (Ok (Raise e), s') else (Raise e, s')
           end.

Section Download.
Variable W : world.
Variable C : config.

(** Modelled from the spec: [files_in_bucket] is not among the sources; the
    object store offers [list(bucket, prefix) -> sequence of keys]. *)
Definition files_in_bucket (key : string) : M (list string) :=
  emit (S3List key) ;;
  s <- get_state ;;
  ret (filter (fun k => String.prefix key k = true) (map_to_list (bucket s)).*1).

(** [p.mkdir(parents=True)] *)
Definition mkdir (p : Path) : M unit :=
  emit (Mkdir p) ;;
  match mkdir_fault W p with
  | Some e => raise e
  | None =>
      modify (fun s =>
        with_fs (fs s ++ ((fun q => (q, Dir)) <$>
                   filter (fun q => q ∉ (fs s).*1) (ancestors p))) s)
  end.

(** [download_file(bucket, key, str(new_path))] *)
Definition download_file (key : string) (dest : Path) : M unit :=
  emit (S3Download key dest) ;;
  match download_fault W key with
  | Some e => raise e
  | None =>
      s <- get_state ;;
      match bucket s !! key with
      | Some c => modify (with_fs (dict_set dest (File c) (fs s)))
      | None => raise (ClientError "Not Found")
      end
  end.

(** [self.data[path][new_path] = v] *)
Definition gdata_set (path : string) (new_path : Path) (v : dl_status) : M unit :=
  s <- get_state ;;
  m <- getitem path (gdata s !! path) ;;
  modify (with_gdata (<[path := <[new_path := v]> m]> (gdata s))).

(** One round of the loop of [get]: the folder of the local file is made
    when it is missing, then the file is downloaded unless it exists. *)
Definition make_parent (new_path : Path) : M unit :=
  s <- get_state ;;
  if negb (fs_exists (Path_parent new_path) (fs s)) then
    try_except (mkdir (Path_parent new_path)) is_OSError
      (fun ioe => raise (SystemExit
         ("Could not create folder " +:+ Path_str (Path_parent new_path)
          +:+ ". Cannot" +:+ "proceed with delivery. Cancelling: "
          +:+ exn_msg ioe)))
  else ret tt.

Definition fetch (path key : string) (new_path : Path) : M unit :=
  s <- get_state ;;
  if negb (fs_exists new_path (fs s)) then
    r <- attempt (download_file key new_path) is_Exception ;;
    match r with
    | Raise e =>
        gdata_set path new_path {| downloaded := false; dl_error := Some e |}
    | Ok _ =>
        gdata_set path new_path {| downloaded := true; dl_error := None |}
    end
  else
    LOGGER STDOUT ("File " +:+ Path_str new_path +:+ " already exists. "
                   +:+ "Not downloading.").

Definition get_one (path : string) (key : string) : M unit :=
  let new_path := Path_div (tempdir C) (Path_of_string key) in
  make_parent new_path ;;
  fetch path key new_path.

Fixpoint get_loop (path : string) (file_in_bucket : list string) : M unit :=
  match file_in_bucket with
  | [] => ret tt
  | key :: rest => get_one path key ;; get_loop path rest
  end.

(** [self.s3]: no method of the class assigns this attribute ([put] and the
    checks open a connector of their own with [with S3Connector(...) as s3]),
    so reading it on a session is an [AttributeError]. *)
Definition self_s3 : M unit :=
  raise (AttributeError "'DataDeliverer' object has no attribute 's3'").

(** The statements of [get(path)] once [self.s3] has been read: the test of
    the bucket, the loop and the result. *)
Definition get_body (path : string) : M (bool * string) :=
  s <- get_state ;;
  if bucket_exists s then
    file_in_bucket <- files_in_bucket path ;;
    get_loop path file_in_bucket ;;
    ret (true, path)
  else raise (S3Error ("Bucket " +:+ bucketname C +:+ " does not exist.")).

(** [get(path)]: its first statement reads [self.s3]. *)
Definition get (path : string) : M (bool * string) :=
  self_s3 ;;
  get_body path.

End Download.

(** * Definitions for the statements and the examples *)

(** A world without failures: no header is one of a compressed format,
    every input is an existing file. *)
Definition quiet_world : world :=
  {| is_compressed := fun _ => (false, "");
     get_root_path := fun _ _ => [];
     MAGIC_DICT := [".gz"; ".zip"; ".bz2"; ".zst"];
     Path_suffixes := fun _ => [];
     st_size := fun _ => 0%Z;
     exists_error := fun _ => "";
     db_fault := fun _ => None;
     delete_fault := fun _ => None;
     rmtree_fault := fun _ => None;
     mkdir_fault := fun _ => None;
     download_fault := fun _ => None;
     path_exists := fun _ => true;
     resolve := Path_of_string;
     is_dir := fun _ => false;
     is_file := fun _ => true;
     glob := fun _ => [];
     read_pathfile := fun _ => None;
     wrap := fun x => [x];
     render := fun _ rows => nl_join (fst <$> rows) |}.

(** A session that uploads to project [p1]. *)
Definition put_config (bof ow : bool) : config :=
  {| break_on_fail := bof; overwrite := ow; method := "put";
     project_id := "p1"; bucketname := "project_p1";
     tempdir := ["/"; "tmp"] |}.

(** Project [p1] without files, an empty bucket, an empty temporary
    directory. *)
Definition empty_state : state :=
  {| data := []; gdata := ∅; failed := ∅;
     project_db := {[ "p1" := (∅ : gmap string string) ]};
     bucket_exists := true; bucket := ∅; fs := [(["/"; "tmp"], Dir)];
     log := []; io := [] |}.

(** The table of the existence check: whether the delivery of a file
    proceeds. *)
Definition existence_matrix (in_db in_bucket overwrite : bool) : bool :=
  match in_db, in_bucket with
  | false, false => true
  | true, false => overwrite
  | false, true => false
  | true, true => overwrite
  end.

(** The target key that both checks compute. *)
Definition target_key (directory_path : Path) (file : Path) (compressed : bool)
  : string :=
  Path_str (Path_div directory_path
              (Path_of_string
                 (Path_name file +:+ (if compressed then "" else ".zst") +:+ ".ccp"))).

Definition contact_support : string := "Delivery cancelled, contact support.".

Definition proc_suff (compressed : bool) : string :=
  if compressed then ".ccp" else ".zst.ccp".

(** A project with one registered file, and a sender's file of that name. *)
Definition registered_state : state :=
  with_project_db {[ "p1" := {[ "a.txt.zst.ccp" := "registered" ]} ]} empty_state.

Definition a_txt : Path := ["/"; "data"; "a.txt"].

(** The condition under which the loop of [update_delivery] cancels an
    entry: same ['dir_name'] and upload neither in progress nor finished. *)
Definition cancellable (dn : option Path) (i : file_info) : bool :=
  bool_decide (dir_name i = dn)
  && negb (in_progress (upload i))
  && negb (finished (upload i)).

Definition failed_file_msg (file : Path) (err : string) : string :=
  "Failed file: " +:+ Path_str file +:+ " -- " +:+ err.

Definition cascade (dn : option Path) (msg : string) (e : Path * file_info)
  : Path * file_info :=
  if cancellable dn e.2 then (e.1, cancelled msg e.2) else e.

(** Three files of one directory, none of them being uploaded yet. *)
Definition dir_D : Path := ["/"; "data"; "D"].

Definition in_dir_info (name : string) : file_info :=
  {| in_directory := true; dir_name := Some dir_D; path_base := Some "D";
     directory_path := ["D"]; size := 10; suffixes := [];
     proceed := true; compressed := false;
     new_file := "D/" +:+ name +:+ ".zst.ccp"; error := "";
     encrypted_file := []; encrypted_size := 0;
     processing := {| in_progress := false; finished := false |};
     upload := {| in_progress := false; finished := false |};
     database := {| in_progress := false; finished := false |} |}.

Definition three_files : state :=
  with_data [(dir_D ++ ["a"], in_dir_info "a");
             (dir_D ++ ["b"], in_dir_info "b");
             (dir_D ++ ["c"], in_dir_info "c")] empty_state.

Definition failure_of (err : string) : updinfo :=
  {| u_in_directory := None; u_dir_name := None; u_path_base := None;
     u_directory_path := None; u_size := None; u_suffixes := None;
     u_proceed := Some false; u_compressed := None; u_new_file := None;
     u_error := Some err; u_encrypted_file := None; u_encrypted_size := None;
     u_processing := None; u_upload := None; u_database := None |}.

(** A finished stage of a record, with a stored file in the project. *)
Definition processed_info : file_info :=
  {| in_directory := false; dir_name := None; path_base := None;
     directory_path := []; size := 10; suffixes := [];
     proceed := true; compressed := false;
     new_file := "a.txt.zst.ccp"; error := "";
     encrypted_file := ["/"; "tmp"; "a.txt.zst.ccp"]; encrypted_size := 12;
     processing := {| in_progress := false; finished := true |};
     upload := {| in_progress := false; finished := false |};
     database := {| in_progress := false; finished := false |} |}.

Definition processed_state : state :=
  with_data [(a_txt, processed_info)] empty_state.

(** A record whose registration is marked finished and whose upload is not,
    with a key that the project does not hold. *)
Definition registered_only_info : file_info :=
  {| in_directory := false; dir_name := None; path_base := None;
     directory_path := []; size := 10; suffixes := [];
     proceed := false; compressed := false;
     new_file := "a.txt.zst.ccp"; error := "upload failed";
     encrypted_file := ["/"; "tmp"; "a.txt.zst.ccp"]; encrypted_size := 12;
     processing := {| in_progress := false; finished := true |};
     upload := {| in_progress := true; finished := false |};
     database := {| in_progress := false; finished := true |} |}.

(** A temporary directory with two folders, the first of which cannot be
    removed. *)
Definition locked_world : world :=
  {| is_compressed := is_compressed quiet_world;
     get_root_path := get_root_path quiet_world;
     MAGIC_DICT := MAGIC_DICT quiet_world;
     Path_suffixes := Path_suffixes quiet_world;
     st_size := st_size quiet_world;
     exists_error := exists_error quiet_world;
     db_fault := db_fault quiet_world;
     delete_fault := delete_fault quiet_world;
     rmtree_fault := fun p =>
       if decide (p = ["/"; "tmp"; "one"])
       then Some (OSError "[Errno 13] Permission denied") else None;
     mkdir_fault := mkdir_fault quiet_world;
     download_fault := download_fault quiet_world;
     path_exists := path_exists quiet_world;
     resolve := resolve quiet_world;
     is_dir := is_dir quiet_world;
     is_file := is_file quiet_world;
     glob := glob quiet_world;
     read_pathfile := read_pathfile quiet_world;
     wrap := wrap quiet_world;
     render := render quiet_world |}.

Definition two_folders : state :=
  with_fs [(["/"; "tmp"], Dir);
           (["/"; "tmp"; "one"], Dir);
           (["/"; "tmp"; "one"; "a.txt.zst.ccp"], File "x");
           (["/"; "tmp"; "two"], Dir);
           (["/"; "tmp"; "two"; "b.txt.zst.ccp"], File "y")] empty_state.

(** The lines that [__exit__] logs after the loop. *)
Definition summary (W : world) (t : tables) : list (level * string) :=
  (if bool_decide (0 < base.size (suc_dict t)) then
     [(INFO, "----DELIVERY COMPLETED----");
      (INFO, "The following items were uploaded:" +:+ nl
             +:+ render W ("Item", "Location") (succeeded t) +:+ nl)]
   else []) ++
  (if bool_decide (base.size (fai_dict t)
                   = base.size (suc_dict t) + base.size (fai_dict t)) then
     [(ERROR, "----DELIVERY FAILED----")]
   else []) ++
  (if bool_decide (0 < base.size (fai_dict t)) then
     [(ERROR, "The following items were NOT uploaded:" +:+ nl
              +:+ render W ("Item", "Error") (failed_rows t) +:+ nl)]
   else []).

(** A record that was uploaded and registered although its processing is
    not marked finished. *)
Definition unprocessed_info : file_info :=
  {| in_directory := false; dir_name := None; path_base := None;
     directory_path := []; size := 10; suffixes := [];
     proceed := true; compressed := false;
     new_file := "a.txt.zst.ccp"; error := "";
     encrypted_file := ["/"; "tmp"; "a.txt.zst.ccp"]; encrypted_size := 12;
     processing := {| in_progress := true; finished := false |};
     upload := {| in_progress := false; finished := true |};
     database := {| in_progress := false; finished := true |} |}.

Definition unprocessed_state : state :=
  with_data [(a_txt, unprocessed_info)] empty_state.

(** Two records: one delivered, one whose upload failed. *)
Definition delivered_info : file_info :=
  {| in_directory := false; dir_name := None; path_base := None;
     directory_path := []; size := 10; suffixes := [];
     proceed := true; compressed := false;
     new_file := "a.txt.zst.ccp"; error := "";
     encrypted_file := ["/"; "tmp"; "a.txt.zst.ccp"]; encrypted_size := 12;
     processing := {| in_progress := false; finished := true |};
     upload := {| in_progress := false; finished := true |};
     database := {| in_progress := false; finished := true |} |}.

Definition b_txt : Path := ["/"; "data"; "b.txt"].

Definition failed_upload_info : file_info :=
  {| in_directory := false; dir_name := None; path_base := None;
     directory_path := []; size := 10; suffixes := [];
     proceed := false; compressed := false;
     new_file := "b.txt.zst.ccp"; error := "Upload failed!";
     encrypted_file := ["/"; "tmp"; "b.txt.zst.ccp"]; encrypted_size := 12;
     processing := {| in_progress := false; finished := true |};
     upload := {| in_progress := true; finished := false |};
     database := {| in_progress := false; finished := false |} |}.

Definition two_records : state :=
  with_data [(a_txt, delivered_info); (b_txt, failed_upload_info)] empty_state.

Definition two_records_tables : tables :=
  {| succeeded := [("/data/a.txt", "." +:+ nl)];
     suc_dict := {[ "/data/a.txt" := "." +:+ nl ]};
     failed_rows := [("/data/b.txt", "Upload failed!" +:+ nl)];
     fai_dict := {[ "/data/b.txt" := "Upload failed!" +:+ nl ]} |}.




Definition duplicate_msg (d : string) : string :=
  "The path to file " +:+ d
  +:+ " is listed multiple times, please remove path dublicates.".

(** [data_list] of [_data_to_deliver]. *)
Definition input_list (W : world) (data : list string)
    (pathfile : option string) : list string :=
  data ++ match pathfile with
          | Some pf => default [] (read_pathfile W pf)
          | None => []
          end.

Definition get_entry (d : string) : pykey * option file_info := (KStr d, None).

(** The dictionary that [get_file_info] builds for [a_txt] in the quiet
    world. *)
Definition accepted_a_txt : file_info :=
  {| in_directory := false; dir_name := None; path_base := None;
     directory_path := []; size := 0; suffixes := [];
     proceed := true; compressed := false;
     new_file := "a.txt.zst.ccp"; error := "";
     encrypted_file := []; encrypted_size := 0;
     processing := {| in_progress := false; finished := false |};
     upload := {| in_progress := false; finished := false |};
     database := {| in_progress := false; finished := false |} |}.

(** A world in which [/data/D] is a folder with one file. *)
Definition folder_world : world :=
  {| is_compressed := is_compressed quiet_world;
     get_root_path := get_root_path quiet_world;
     MAGIC_DICT := MAGIC_DICT quiet_world;
     Path_suffixes := Path_suffixes quiet_world;
     st_size := st_size quiet_world;
     exists_error := exists_error quiet_world;
     db_fault := db_fault quiet_world;
     delete_fault := delete_fault quiet_world;
     rmtree_fault := rmtree_fault quiet_world;
     mkdir_fault := mkdir_fault quiet_world;
     download_fault := download_fault quiet_world;
     path_exists := path_exists quiet_world;
     resolve := resolve quiet_world;
     is_dir := fun p => bool_decide (p = dir_D);
     is_file := fun p => negb (bool_decide (p = dir_D));
     glob := fun p => if decide (p = dir_D) then [dir_D ++ ["a"]] else [];
     read_pathfile := read_pathfile quiet_world;
     wrap := wrap quiet_world;
     render := render quiet_world |}.

(** The local path of a key, and what is known about a key in a tree:
    [settled] keys are passed without a change of the tree, at [aborting]
    keys the loop is left without a change of the tree. *)
Definition local_path (C : config) (key : string) : Path :=
  Path_div (tempdir C) (Path_of_string key).

Definition settled (W : world) (C : config) (b : gmap string string)
    (f : list (Path * node)) (key : string) : Prop :=
  fs_exists (Path_parent (local_path C key)) f = true /\
  (fs_exists (local_path C key) f = true \/
   (exists e, download_fault W key = Some e /\ is_Exception e = true) \/
   (download_fault W key = None /\ b !! key = None)).

Definition aborting (W : world) (C : config) (f : list (Path * node))
    (key : string) : Prop :=
  (fs_exists (Path_parent (local_path C key)) f = false /\
   is_Some (mkdir_fault W (Path_parent (local_path C key)))) \/
  (fs_exists (Path_parent (local_path C key)) f = true /\
   fs_exists (local_path C key) f = false /\
   exists e, download_fault W key = Some e /\ is_Exception e = false).

Definition sub_tree (f g : list (Path * node)) : Prop :=
  forall p, p ∈ f.*1 -> p ∈ g.*1.

(** The keys that [get] asks for. *)
Definition listed (path : string) (b : gmap string string) : list string :=
  filter (fun k => String.prefix path k = true) (map_to_list b).*1.

(** A session that downloads what is below [dir/]; one of the two objects
    has a local file already. *)
Definition get_config : config :=
  {| break_on_fail := true; overwrite := false; method := "get";
     project_id := "p1"; bucketname := "project_p1";
     tempdir := ["/"; "tmp"] |}.

Definition download_state : state :=
  {| data := [];
     gdata := {[ "dir/" := (∅ : gmap Path dl_status) ]};
     failed := ∅;
     project_db := {[ "p1" := (∅ : gmap string string) ]};
     bucket_exists := true;
     bucket := {[ "dir/a.txt.zst.ccp" := "new a"; "dir/b.txt.zst.ccp" := "new b" ]};
     fs := [(["/"; "tmp"], Dir);
            (["/"; "tmp"; "dir"], Dir);
            (["/"; "tmp"; "dir"; "a.txt.zst.ccp"], File "old a")];
     log := []; io := [] |}.

(** ** Records for the statements about [update_delivery] and [set_progress] *)

(** A file of [dir_D] whose upload has started. *)
Definition uploading_info (name : string) : file_info :=
  {| in_directory := true; dir_name := Some dir_D; path_base := Some "D";
     directory_path := ["D"]; size := 10; suffixes := [];
     proceed := true; compressed := false;
     new_file := "D/" +:+ name +:+ ".zst.ccp"; error := "";
     encrypted_file := []; encrypted_size := 0;
     processing := {| in_progress := false; finished := true |};
     upload := {| in_progress := true; finished := false |};
     database := {| in_progress := false; finished := false |} |}.

Definition one_uploading : state :=
  with_data [(dir_D ++ ["a"], in_dir_info "a");
             (dir_D ++ ["b"], uploading_info "b")] empty_state.

(** No stage of a record is in progress and finished at once. *)
Definition one_flag (st : stage) : bool :=
  negb (in_progress st && finished st).

(** A method that leaves the delivery dictionary, the two stores and the
    temporary tree alone: only the log and the trace may grow. *)
Definition same_stores (s s' : state) : Prop :=
  data s' = data s /\ gdata s' = gdata s /\ failed s' = failed s /\
  project_db s' = project_db s /\ bucket_exists s' = bucket_exists s /\
  bucket s' = bucket s /\ fs s' = fs s.

(** A world in which no header can be read. *)
Definition unreadable_world : world :=
  {| is_compressed := fun _ => (false, "Permission denied");
     get_root_path := get_root_path quiet_world;
     MAGIC_DICT := MAGIC_DICT quiet_world;
     Path_suffixes := Path_suffixes quiet_world;
     st_size := st_size quiet_world;
     exists_error := exists_error quiet_world;
     db_fault := db_fault quiet_world;
     delete_fault := delete_fault quiet_world;
     rmtree_fault := rmtree_fault quiet_world;
     mkdir_fault := mkdir_fault quiet_world;
     download_fault := download_fault quiet_world;
     path_exists := path_exists quiet_world;
     resolve := resolve quiet_world;
     is_dir := is_dir quiet_world;
     is_file := is_file quiet_world;
     glob := glob quiet_world;
     read_pathfile := read_pathfile quiet_world;
     wrap := wrap quiet_world;
     render := render quiet_world |}.

(** The dictionary that [get_file_info] builds for the file of [dir_D] in
    [folder_world]. *)
Definition folder_a_info : file_info :=
  {| in_directory := true; dir_name := Some dir_D; path_base := Some "D";
     directory_path := []; size := 0; suffixes := [];
     proceed := true; compressed := false;
     new_file := "a.zst.ccp"; error := "";
     encrypted_file := []; encrypted_size := 0;
     processing := new_stage; upload := new_stage; database := new_stage |}.

(** A file of the folder that [get_dir_info] looks at. *)
Definition candidate (W : world) (found : list Path) (f : Path) : Prop :=
  f ∈ found /\ is_file W f = true /\ contains "DS_Store" (Path_str f) = false.

(** A record whose upload is finished and whose registration is not; its
    object is in the bucket, the project does not know its key. *)
Definition uploaded_only_info : file_info :=
  {| in_directory := false; dir_name := None; path_base := None;
     directory_path := []; size := 10; suffixes := [];
     proceed := true; compressed := false;
     new_file := "a.txt.zst.ccp"; error := "";
     encrypted_file := ["/"; "tmp"; "a.txt.zst.ccp"]; encrypted_size := 12;
     processing := {| in_progress := false; finished := true |};
     upload := {| in_progress := false; finished := true |};
     database := {| in_progress := true; finished := false |} |}.

Definition uploaded_only_state : state :=
  with_bucket {[ "a.txt.zst.ccp" := "encrypted a" ]}
    (with_data [(a_txt, uploaded_only_info)] empty_state).

(** The object store refuses every deletion. *)
Definition refusing_world : world :=
  {| is_compressed := is_compressed quiet_world;
     get_root_path := get_root_path quiet_world;
     MAGIC_DICT := MAGIC_DICT quiet_world;
     Path_suffixes := Path_suffixes quiet_world;
     st_size := st_size quiet_world;
     exists_error := exists_error quiet_world;
     db_fault := db_fault quiet_world;
     delete_fault := fun _ => Some (ClientError "AccessDenied");
     rmtree_fault := rmtree_fault quiet_world;
     mkdir_fault := mkdir_fault quiet_world;
     download_fault := download_fault quiet_world;
     path_exists := path_exists quiet_world;
     resolve := resolve quiet_world;
     is_dir := is_dir quiet_world;
     is_file := is_file quiet_world;
     glob := glob quiet_world;
     read_pathfile := read_pathfile quiet_world;
     wrap := wrap quiet_world;
     render := render quiet_world |}.

(** A temporary directory with a file of its own next to a folder. *)
Definition loose_file_tree : state :=
  with_fs [(["/"; "tmp"], Dir);
           (["/"; "tmp"; "one"], Dir);
           (["/"; "tmp"; "one"; "a.txt.zst.ccp"], File "x");
           (["/"; "tmp"; "loose.ccp"], File "y")] empty_state.

(** The record is one whose object [_finalize] deletes. *)
Definition to_undo (info : file_info) : bool :=
  finished (upload info) && negb (finished (database info)).

(** A delivered record next to one whose upload is finished and whose
    registration is not; both objects are in the bucket. *)
Definition b_uploaded_only_info : file_info :=
  {| in_directory := false; dir_name := None; path_base := None;
     directory_path := []; size := 10; suffixes := [];
     proceed := true; compressed := false;
     new_file := "b.txt.zst.ccp"; error := "";
     encrypted_file := ["/"; "tmp"; "b.txt.zst.ccp"]; encrypted_size := 12;
     processing := {| in_progress := false; finished := true |};
     upload := {| in_progress := false; finished := true |};
     database := {| in_progress := true; finished := false |} |}.

Definition half_delivered : state :=
  with_bucket {[ "a.txt.zst.ccp" := "encrypted a"; "b.txt.zst.ccp" := "encrypted b" ]}
    (with_data [(a_txt, delivered_info); (b_txt, b_uploaded_only_info)]
       empty_state).

Definition failed_banner : level * string := (ERROR, "----DELIVERY FAILED----").

(** * Upload

    [prep_upload] and [put], the two methods that the sender calls for each
    record between the set-up and the tear-down. *)

(** The content of a regular file of the temporary tree. *)
Fixpoint fs_read (p : Path) (f : list (Path * node)) : option string :=
  match f with
  | [] => None
  | (q, n) :: r =>
      if decide (q = p) then match n with File c => Some c | Dir => None end
      else fs_read p r
  end.

Section Upload.
Variable C : config.

(** [process_file(file, file_info, filedir)] of [file_handler], which is not
    part of this module: it writes the processed file below [filedir] and
    returns the tuple that [prep_upload] passes on. *)
Variable process_file :
  Path -> file_info -> Path -> M (bool * Path * Z * bool * string).

(** A failure of the transfer of [upload_file]. *)
Variable upload_fault : string -> option exn.

Definition prep_upload (path : Path) (path_info : file_info)
  : M (bool * Path * Z * bool * string) :=
  if negb (proceed path_info) then ret (false, [], 0%Z, false, "")
  else
    set_progress path false true false false true false ;;
    process_file path path_info (tempdir C).

(** Modelled from the spec: [S3Connector] is not among the sources; the
    object store offers [put(bucket, key, bytes)].  The code calls the
    client's [upload_file(Filename, Bucket, Key)], which reads the local
    file; a missing file and a missing bucket are errors of the client. *)
Definition upload_file (filename : Path) (key : string) : M unit :=
  match upload_fault key with
  | Some e => raise e
  | None =>
      s <- get_state ;;
      match fs_read filename (fs s) with
      | None =>
          raise (OSError ("No such file or directory: " +:+ Path_str filename))
      | Some c =>
          if bucket_exists s then
            modify (with_bucket (<[key := c]> (bucket s)))
          else raise (ClientError "NoSuchBucket")
      end
  end.

Definition put (file : Path) (fileinfo : file_info) : M (bool * string) :=
  if negb (proceed fileinfo) then
    if negb (finished (processing fileinfo)) then
      let error := "File: '" +:+ Path_str file +:+ "' -- File not processed (e.g. "
                   +:+ "encrypted). Bug in code. Moving on to next file." in
      LOGGER CRITICAL error ;;
      ret (false, error)
    else ret (false, "")
  else
    set_progress file false false true false true false ;;
    r <- attempt (upload_file (encrypted_file fileinfo) (new_file fileinfo))
           is_Exception ;;
    match r with
    | Raise e =>
        let error := "File: " +:+ Path_str file +:+ ", Uploaded: "
                     +:+ Path_str (encrypted_file fileinfo) +:+ " -- "
                     +:+ "Upload failed! -- " +:+ exn_msg e in
        LOGGER ERROR error ;;
        ret (false, error)
    | Ok _ =>
        LOGGER INFO ("File uploaded: " +:+ Path_str (encrypted_file fileinfo)
                     +:+ ", Bucket location: " +:+ new_file fileinfo) ;;
        ret (true, "")
    end.

End Upload.

(** The message of [put] for a failed upload. *)
Definition upload_failed_msg (file : Path) (i : file_info) (e : exn) : string :=
  "File: " +:+ Path_str file +:+ ", Uploaded: "
  +:+ Path_str (encrypted_file i) +:+ " -- "
  +:+ "Upload failed! -- " +:+ exn_msg e.

(** No transfer fails. *)
Definition no_upload_fault : string -> option exn := fun _ => None.

(** A processing step that must not be reached. *)
Definition no_process_file
  : Path -> file_info -> Path -> M (bool * Path * Z * bool * string) :=
  fun _ _ _ => raise (SystemExit "process_file").

(** The record of [processed_state] with its encrypted file in the
    temporary directory. *)
Definition ready_state : state :=
  with_fs [(["/"; "tmp"], Dir);
           (["/"; "tmp"; "a.txt.zst.ccp"], File "encrypted a")]
    processed_state.

(** The stage of an upload that has started. *)
Definition started_stage : stage := {| in_progress := true; finished := false |}.

(** The outcome of the transfer of [put]: the error that [upload_file]
    raises, or the content that it stores. *)
Definition upload_result (upload_fault : string -> option exn)
    (i : file_info) (s : state) : exn + string :=
  match upload_fault (new_file i) with
  | Some e => inl e
  | None =>
      match fs_read (encrypted_file i) (fs s) with
      | None => inl (OSError ("No such file or directory: "
                              +:+ Path_str (encrypted_file i)))
      | Some c =>
          if bucket_exists s then inr c else inl (ClientError "NoSuchBucket")
      end
  end.

(** A file of [dir_D] that is ready for upload, next to one that is not
    started, and a transfer that fails. *)
Definition ready_in_dir (name : string) : file_info :=
  {| in_directory := true; dir_name := Some dir_D; path_base := Some "D";
     directory_path := ["D"]; size := 10; suffixes := [];
     proceed := true; compressed := false;
     new_file := "D/" +:+ name +:+ ".zst.ccp"; error := "";
     encrypted_file := ["/"; "tmp"; "D"; name +:+ ".zst.ccp"];
     encrypted_size := 12;
     processing := {| in_progress := false; finished := true |};
     upload := {| in_progress := false; finished := false |};
     database := {| in_progress := false; finished := false |} |}.

Definition ready_folder : state :=
  with_fs [(["/"; "tmp"], Dir); (["/"; "tmp"; "D"], Dir);
           (["/"; "tmp"; "D"; "a.zst.ccp"], File "encrypted a")]
    (with_data [(dir_D ++ ["a"], ready_in_dir "a");
                (dir_D ++ ["b"], in_dir_info "b")] empty_state).

Definition broken_transfer : string -> option exn :=
  fun _ => Some (ClientError "Connection reset").

(** * Log-in and access

    The checks of [__init__] before any file is looked at:
    [_check_user_input], [_check_ds_access] and [_check_project_access].
    They read and write the attributes of the session only, so they are
    functions from attributes to attributes or an error. *)

Module Login.

(** The classes raised here that are not raised by the delivery itself: the
    [TypeError] of [Path(None)], the error of [json.load] and the
    [ValueError] of [bytes.fromhex]. *)
Inductive error :=
| Exn (e : exn)
| TypeError (msg : string)
| JSONDecodeError (msg : string)
| ValueError (msg : string).

(** [_DSUser] *)
Record DSUser := {
  username : option string;
  password : option string;
  id : option string;
  role : option string
}.

(** The attributes of [DataDeliverer] that the checks use. *)
Record attrs := {
  user : DSUser;
  project_id : option string;
  project_owner : option string;
  method : string
}.

Definition set_owner (o : option string) (a : attrs) : attrs :=
  {| user := user a; project_id := project_id a; project_owner := o;
     method := method a |}.

Definition set_role (r : string) (a : attrs) : attrs :=
  {| user := {| username := username (user a); password := password (user a);
                id := id (user a); role := Some r |};
     project_id := project_id a; project_owner := project_owner a;
     method := method a |}.

Definition set_id (i : string) (a : attrs) : attrs :=
  {| user := {| username := username (user a); password := password (user a);
                id := Some i; role := role (user a) |};
     project_id := project_id a; project_owner := project_owner a;
     method := method a |}.

(** The three assignments from the credentials file. *)
Definition set_credentials (u p pr : string) (a : attrs) : attrs :=
  {| user := {| username := Some u; password := Some p;
                id := id (user a); role := role (user a) |};
     project_id := Some pr; project_owner := project_owner a;
     method := method a |}.

(** The truth value of a string or [None]. *)
Definition truthy (o : option string) : bool :=
  match o with
  | Some s => negb (String.eqb s "")
  | None => false
  end.

(** [str(o)] inside an f-string. *)
Definition pystr (o : option string) : string :=
  match o with
  | Some s => s
  | None => "None"
  end.

(** What opening and parsing the credentials file gives: the [OSError] of
    [open], the error of [json.load], or the JSON object (its values are
    taken to be strings). *)
Inductive config_file :=
| Unreadable (msg : string)
| Malformed (msg : string)
| Credentials (c : gmap string string).

(** A document of [user_db] and one of [project_db]; the keys that the code
    tests with [in] are optional. *)
Record user_doc := {
  doc_username : string;
  doc_password_settings : string;
  doc_password_hash : string;
  doc_role : string;
  doc_projects : list string;
  doc_s3_project : option string
}.

Record info_doc := {
  owner : option string;
  delivery_option : option string
}.

Record project_doc := {
  project_info : option info_doc;
  project_keys : option (gmap string string)
}.

(** [user_db[id]] on the documents in iteration order. *)
Fixpoint user_lookup (i : string) (db : list (string * user_doc))
  : option user_doc :=
  match db with
  | [] => None
  | (j, d) :: r => if String.eqb j i then Some d else user_lookup i r
  end.

Section Checks.
(** The content of the credentials file at a path. *)
Variable read_config : string -> config_file.
(** [secure_password_hash(password_settings, password_entered)] of
    [crypto_ds]. *)
Variable secure_password_hash : string -> option string -> string.
Variable user_db : list (string * user_doc).
Variable project_db : gmap string project_doc.

(** The first part of [_check_user_input], for loose credentials: an error,
    or the attributes and whether the method has returned. *)
Definition loose_credentials (config : option string) (a : attrs)
  : error + (bool * attrs) :=
  match config with
  | None =>
      if negb (truthy (username (user a)) && truthy (password (user a))) then
        inl (Exn (DeliveryOptionException
          ("Delivery System login credentials not specified. "
           +:+ "Enter --username/-u AND --password/-pw, or --config/-c."
           +:+ "For help: 'ds_deliver --help'.")))
      else
        match project_id a with
        | None =>
            inl (Exn (DeliveryOptionException
              ("Project not specified. Enter project ID using "
               +:+ "--project option or add to config file using "
               +:+ "--config/-c option.")))
        | Some _ =>
            match project_owner a with
            | None => inr (true, set_owner (username (user a)) a)
            | Some _ => inr (false, a)
            end
        end
  | Some _ => inr (false, a)
  end.

Definition _check_user_input (config : option string) (a : attrs)
  : error + attrs :=
  match loose_credentials config a with
  | inl e => inl e
  | inr (true, a') => inr a'
  | inr (false, a') =>
      match config with
      | None =>
          inl (TypeError
                 "expected str, bytes or os.PathLike object, not NoneType")
      | Some cf =>
          match read_config cf with
          | Unreadable ose =>
              inl (Exn (SystemExit ("Could not open path-file " +:+ cf
                                    +:+ ": " +:+ ose)))
          | Malformed msg => inl (JSONDecodeError msg)
          | Credentials c =>
              match c !! "username", c !! "password", c !! "project" with
              | Some u, Some p, Some pr =>
                  let a1 := set_credentials u p pr a' in
                  match c !! "owner" with
                  | Some o => inr (set_owner (Some o) a1)
                  | None =>
                      if bool_decide (project_owner a1 = None)
                         && String.eqb (method a1) "put"
                      then inl (Exn (DeliveryOptionException
                                  ("Project owner not specified. "
                                   +:+ "Cancelling delivery.")))
                      else inr a1
                  end
              | _, _, _ =>
                  inl (Exn (DeliveryOptionException
                    "The config file does not contain all required information."))
              end
          end
      end
  end.

(** The loop of [_check_ds_access] over the identifiers of [user_db]; the
    document with the user's name that comes first decides. *)
Fixpoint check_users (db : list (string * user_doc)) (a : attrs)
  : error + (bool * attrs) :=
  match db with
  | [] =>
      inl (Exn (CouchDBException
        ("Username not found in database. "
         +:+ "Access to Delivery System denied.")))
  | (id_, d) :: rest =>
      if bool_decide (username (user a) = Some (doc_username d)) then
        let password_hash :=
          secure_password_hash (doc_password_settings d) (password (user a)) in
        if negb (String.eqb (doc_password_hash d) password_hash) then
          inl (Exn (DeliverySystemException
                 "Wrong password. Access to Delivery System denied."))
        else
          let a1 := set_role (doc_role d) a in
          if (String.eqb (doc_role d) "facility" && String.eqb (method a1) "put")
             || (String.eqb (doc_role d) "researcher"
                 && String.eqb (method a1) "get")
          then
            let a2 := set_id id_ a1 in
            if String.eqb (doc_role d) "researcher"
               && String.eqb (method a2) "get"
               && (bool_decide (project_owner a2 = None)
                   || bool_decide (project_owner a2 = username (user a2)))
            then inr (true, set_owner (id (user a2)) a2)
            else inr (true, a2)
          else
            inl (Exn (DeliveryOptionException
              ("Method error. Facilities can only use 'put' "
               +:+ "and Researchers can only use 'get'.")))
      else check_users rest a
  end.

Definition _check_ds_access (a : attrs) : error + (bool * attrs) :=
  check_users user_db a.

(** Modelled from the spec: [DatabaseConnector] is not among the sources;
    the stores give the documents of the users and of the projects as
    mappings, whose missing key is a [KeyError]. *)
Definition user_getitem (i : option string) : error + user_doc :=
  match i ≫= (fun j => user_lookup j user_db) with
  | Some d => inr d
  | None => inl (Exn (KeyError (pystr i)))
  end.

Definition _check_project_access (a : attrs) : error + (bool * string) :=
  match user_getitem (id (user a)) with
  | inl e => inl e
  | inr me =>
      let user_projects := doc_projects me in
      match project_id a ≫= (fun p => project_db !! p) with
      | None =>
          inl (Exn (CouchDBException
            ("The project " +:+ pystr (project_id a) +:+ " does not exist.")))
      | Some current_project =>
          if negb (bool_decide (project_id a ∈ Some <$> user_projects)) then
            inl (Exn (DeliverySystemException
              ("You do not have access to the specified project "
               +:+ pystr (project_id a) +:+ ". Aborting delivery.")))
          else
            match project_info current_project with
            | None =>
                inl (Exn (CouchDBException
                  ("There is no 'project_info' recorded for the specified "
                   +:+ "project. Aborting delivery.")))
            | Some info =>
                match owner info with
                | None =>
                    inl (Exn (CouchDBException
                      ("An owner of the data has not been specified. "
                       +:+ "Cannot guarantee data security. Cancelling delivery.")))
                | Some correct_owner =>
                    if (String.eqb (method a) "put"
                        && bool_decide (Some correct_owner = project_owner a)
                        && negb (bool_decide (project_owner a = id (user a))))
                       || (String.eqb (method a) "get"
                           && bool_decide (Some correct_owner = project_owner a)
                           && bool_decide (project_owner a = id (user a)))
                    then
                      match delivery_option info with
                      | None =>
                          inl (Exn (CouchDBException
                            ("A delivery option has not been "
                             +:+ "specified for this project.")))
                      | Some opt =>
                          if negb (String.eqb opt "S3") then
                            inl (Exn (DeliveryOptionException
                              ("The specified project does not "
                               +:+ "have access to S3 delivery.")))
                          else
                            match doc_s3_project me with
                            | None => inl (Exn (KeyError "s3_project"))
                            | Some s3_project => inr (true, s3_project)
                            end
                      end
                    else
                      inl (Exn (DeliveryOptionException
                        ("Incorrect data owner! You do not have access to this "
                         +:+ "project. Cancelling delivery.")))
                end
            end
      end
  end.

End Checks.

End Login.

(** ** Users, projects and credentials for the examples *)

Definition plain_hash : string -> option string -> string :=
  fun settings pw => settings +:+ ":" +:+ Login.pystr pw.

Definition facility_doc : Login.user_doc :=
  {| Login.doc_username := "fac"; Login.doc_password_settings := "salt";
     Login.doc_password_hash := "salt:pw"; Login.doc_role := "facility";
     Login.doc_projects := ["p1"]; Login.doc_s3_project := Some "s3-fac" |}.

Definition researcher_doc : Login.user_doc :=
  {| Login.doc_username := "res"; Login.doc_password_settings := "salt";
     Login.doc_password_hash := "salt:pw"; Login.doc_role := "researcher";
     Login.doc_projects := ["p1"]; Login.doc_s3_project := Some "s3-res" |}.

Definition two_users : list (string * Login.user_doc) :=
  [("id-fac", facility_doc); ("id-res", researcher_doc)].

Definition one_project : gmap string Login.project_doc :=
  {[ "p1" := {| Login.project_info :=
                  Some {| Login.owner := Some "id-res";
                          Login.delivery_option := Some "S3" |};
                Login.project_keys := None |} ]}.

Definition no_config : string -> Login.config_file :=
  fun _ => Login.Unreadable "No such file or directory".


(** The attributes after [__init__] has stored its arguments. *)
Definition entered (username password project_id project_owner : option string)
    (caller : string) : Login.attrs :=
  {| Login.user := {| Login.username := username; Login.password := password;
                      Login.id := None; Login.role := None |};
     Login.project_id := project_id; Login.project_owner := project_owner;
     Login.method := caller |}.

(** ** The recipient's key *)

Section Keys.
Variable project_db : gmap string Login.project_doc.
(** [bytes.fromhex], [None] for a string that is not hexadecimal. *)
Variable fromhex : string -> option (list Byte.byte).

(** [get_recipient_key(keytype)]; the documents are mappings as in the
    access checks. *)
Definition get_recipient_key (a : Login.attrs) (keytype : string)
  : Login.error + list Byte.byte :=
  match Login.project_id a ≫= (fun p => project_db !! p) with
  | None =>
      inl (Login.Exn (CouchDBException
        ("The project " +:+ Login.pystr (Login.project_id a)
         +:+ " does not exist.")))
  | Some doc =>
      match Login.project_info doc with
      | None =>
          inl (Login.Exn (CouchDBException
            ("There is no project information"
             +:+ "registered for the specified "
             +:+ "project.")))
      | Some info =>
          match Login.owner info with
          | None =>
              inl (Login.Exn (CouchDBException
                ("The specified project does not "
                 +:+ "have a recorded owner.")))
          | Some o =>
              if negb (bool_decide (Login.project_owner a = Some o)) then
                inl (Login.Exn (CouchDBException
                  ("The user " +:+ Login.pystr (Login.project_owner a)
                   +:+ " does not exist.")))
              else
                match Login.project_keys doc with
                | None =>
                    inl (Login.Exn (CouchDBException
                      ("Could not find any projects for "
                       +:+ "the user " +:+ Login.pystr (Login.project_owner a)
                       +:+ ".")))
                | Some keys =>
                    match keys !! keytype with
                    | None =>
                        inl (Login.Exn (CouchDBException
                          ("There is no public key recorded for "
                           +:+ "user " +:+ Login.pystr (Login.project_owner a)
                           +:+ " and "
                           +:+ "project " +:+ Login.pystr (Login.project_id a)
                           +:+ ".")))
                    | Some hex =>
                        match fromhex hex with
                        | Some b => inr b
                        | None =>
                            inl (Login.ValueError
                                   "non-hexadecimal number found in fromhex() arg")
                        end
                    end
                end
          end
      end
  end.

End Keys.

(** A project with a public key, and a decoder that knows one string. *)
Definition keyed_project : gmap string Login.project_doc :=
  {[ "p1" := {| Login.project_info :=
                  Some {| Login.owner := Some "id-res";
                          Login.delivery_option := Some "S3" |};
                Login.project_keys := Some {[ "public" := "0aff" ]} |} ]}.

Definition one_hex : string -> option (list Byte.byte) :=
  fun h => if String.eqb h "0aff" then Some [Byte.x0a; Byte.xff] else None.

(** A world in which every header is one of a compressed format, and a
    file of it whose name ends in the compression marker. *)
Definition compressed_world : world :=
  {| is_compressed := fun _ => (true, "");
     get_root_path := get_root_path quiet_world;
     MAGIC_DICT := MAGIC_DICT quiet_world;
     Path_suffixes := Path_suffixes quiet_world;
     st_size := st_size quiet_world;
     exists_error := exists_error quiet_world;
     db_fault := db_fault quiet_world;
     delete_fault := delete_fault quiet_world;
     rmtree_fault := rmtree_fault quiet_world;
     mkdir_fault := mkdir_fault quiet_world;
     download_fault := download_fault quiet_world;
     path_exists := path_exists quiet_world;
     resolve := resolve quiet_world;
     is_dir := is_dir quiet_world;
     is_file := is_file quiet_world;
     glob := glob quiet_world;
     read_pathfile := read_pathfile quiet_world;
     wrap := wrap quiet_world;
     render := render quiet_world |}.

Definition a_zst : Path := ["/"; "data"; "a.zst"].



(** * Properties *)

Ltac run :=
  unfold bind, ret, raise, modify, LOGGER, emit, get_state, try_except,
    getitem, attempt in *; simpl in *.

(** ** Strings and paths *)

Lemma append_assoc (a b c : string) : (a +:+ b) +:+ c = a +:+ b +:+ c.
Proof.
  induction a as [|x a IH]; [reflexivity|].
  change (String x ((a +:+ b) +:+ c) = String x (a +:+ b +:+ c)).
  by rewrite IH.
Qed.

Lemma append_nil_r (a : string) : a +:+ "" = a.
Proof.
  induction a as [|x a IH]; [reflexivity|].
  change (String x (a +:+ "") = String x a). by rewrite IH.
Qed.

Lemma append_length (a b : string) :
  String.length (a +:+ b) = String.length a + String.length b.
Proof.
  induction a as [|x a IH]; [reflexivity|].
  change (S (String.length (a +:+ b)) = S (String.length a + String.length b)).
  by rewrite IH.
Qed.

Lemma ends_with_refl (s : string) : ends_with s s.
Proof. by exists "". Qed.

Lemma ends_with_app (a b s : string) : ends_with b s -> ends_with (a +:+ b) s.
Proof. intros [u ->]. exists (a +:+ u). by rewrite append_assoc. Qed.

Lemma no_slash_app (a b : string) :
  no_slash (a +:+ b) = no_slash a && no_slash b.
Proof.
  induction a as [|x a IH]; [reflexivity|].
  change (negb (bool_decide (x = "/"%char)) && no_slash (a +:+ b)
          = negb (bool_decide (x = "/"%char)) && no_slash a && no_slash b).
  rewrite IH. by destruct (bool_decide (x = "/"%char)), (no_slash a).
Qed.

Lemma split_parts_no_slash (s cur : string) :
  no_slash s = true -> split_parts cur s = [cur +:+ s].
Proof.
  revert cur. induction s as [|c r IH]; intros cur H; simpl in *.
  - by rewrite append_nil_r.
  - apply andb_true_iff in H as [Hc Hr].
    apply negb_true_iff, bool_decide_eq_false in Hc.
    destruct (decide (c = "/"%char)) as [|_]; [done|].
    rewrite (IH _ Hr), append_assoc. reflexivity.
Qed.

Lemma no_slash_not_root (s : string) : no_slash s = true -> is_root s = false.
Proof.
  intros H. apply bool_decide_eq_false_2. by intros [->| ->].
Qed.

(** A name without separator that is neither empty nor a dot is a path of
    one part. *)
Lemma Path_of_string_name (s : string) :
  no_slash s = true -> 2 <= String.length s -> Path_of_string s = [s].
Proof.
  intros H Hl. unfold Path_of_string.
  rewrite (split_parts_no_slash _ _ H). change ("" +:+ s) with s.
  assert (Hs : s <> "" /\ s <> ".").
  { split; intros ->; simpl in Hl; lia. }
  rewrite filter_cons_True, filter_nil by done.
  destruct s as [|c r]; [done|]. simpl in H.
  apply andb_true_iff in H as [Hc _].
  apply negb_true_iff, bool_decide_eq_false in Hc.
  unfold anchor. by destruct (decide (c = "/"%char)).
Qed.

Lemma sep_join_snoc (l : list string) (s : string) :
  sep_join (l ++ [s]) =
  match l with [] => s | _ => sep_join l +:+ "/" +:+ s end.
Proof.
  induction l as [|x l IH]; [reflexivity|].
  destruct l as [|y l]; [reflexivity|].
  change (x +:+ "/" +:+ sep_join ((y :: l) ++ [s])
          = (x +:+ "/" +:+ sep_join (y :: l)) +:+ "/" +:+ s).
  rewrite IH, !append_assoc. reflexivity.
Qed.

Lemma Path_str_snoc (dp : Path) (s : string) :
  s <> "/" -> ends_with (Path_str (dp ++ [s])) s.
Proof.
  intros Hs. destruct dp as [|x r]; simpl.
  - destruct (is_root s); [|apply ends_with_refl].
    rewrite append_nil_r. apply ends_with_refl.
  - destruct (is_root x).
    + apply ends_with_app. rewrite sep_join_snoc.
      destruct r; [apply ends_with_refl|]. do 2 apply ends_with_app.
      apply ends_with_refl.
    + change (ends_with (sep_join ((x :: r) ++ [s])) s).
      rewrite sep_join_snoc. do 2 apply ends_with_app. apply ends_with_refl.
Qed.

(** The target key is the file's own name with the suffixes added, below the
    directory path. *)
Lemma target_key_name (dp file : Path) (c : bool) :
  no_slash (Path_name file) = true ->
  ends_with (target_key dp file c) (Path_name file +:+ proc_suff c).
Proof.
  intros H. unfold target_key.
  assert (Hn : no_slash (Path_name file +:+ proc_suff c) = true).
  { rewrite no_slash_app, H. by destruct c. }
  assert (Hl : 2 <= String.length (Path_name file +:+ proc_suff c)).
  { rewrite append_length. destruct c; simpl; lia. }
  assert (He : Path_name file +:+ (if c then "" else ".zst") +:+ ".ccp"
               = Path_name file +:+ proc_suff c) by by destruct c.
  rewrite He, (Path_of_string_name _ Hn Hl).
  assert (Hs : Path_name file +:+ proc_suff c <> "/").
  { intros E. rewrite E in Hl. simpl in Hl. lia. }
  unfold Path_div, is_absolute. rewrite (no_slash_not_root _ Hn).
  by apply Path_str_snoc.
Qed.

Lemma chars_app (a b : string) :
  list_ascii_of_string (a +:+ b)
  = list_ascii_of_string a ++ list_ascii_of_string b.
Proof.
  induction a as [|x a IH]; [reflexivity|].
  change (x :: list_ascii_of_string (a +:+ b)
          = x :: list_ascii_of_string a ++ list_ascii_of_string b).
  by rewrite IH.
Qed.

Lemma string_of_chars_app (l k : list ascii) :
  string_of_list_ascii (l ++ k)
  = string_of_list_ascii l +:+ string_of_list_ascii k.
Proof.
  induction l as [|x l IH]; [reflexivity|].
  change (String x (string_of_list_ascii (l ++ k))
          = String x (string_of_list_ascii l +:+ string_of_list_ascii k)).
  by rewrite IH.
Qed.

Lemma ends_with_chars (t s : string) :
  ends_with t s <->
  exists l, list_ascii_of_string t = l ++ list_ascii_of_string s.
Proof.
  split.
  - intros [u ->]. exists (list_ascii_of_string u). apply chars_app.
  - intros [l Hl]. exists (string_of_list_ascii l).
    rewrite <- (string_of_list_ascii_of_string t), Hl, string_of_chars_app.
    by rewrite string_of_list_ascii_of_string.
Qed.

Lemma Path_str_snoc_shape (dp : Path) (s : string) :
  s <> "/" ->
  Path_str (dp ++ [s]) = s \/ exists u, Path_str (dp ++ [s]) = u +:+ "/" +:+ s.
Proof.
  intros Hs. destruct dp as [|x r]; simpl.
  - left. destruct (is_root s); [apply append_nil_r|reflexivity].
  - right. destruct (is_root x) eqn:Hx.
    + rewrite sep_join_snoc. destruct r as [|y r].
      * apply bool_decide_eq_true in Hx as [->| ->]; [by exists ""|by exists "/"].
      * exists (x +:+ sep_join (y :: r)). by rewrite append_assoc.
    + change (exists u, sep_join ((x :: r) ++ [s]) = u +:+ "/" +:+ s).
      rewrite sep_join_snoc. eauto.
Qed.

(** A compressed file whose name does not end in [.zst] gets a key that
    does not end in [.zst.ccp]. *)
Lemma target_key_no_marker (dp file : Path) :
  no_slash (Path_name file) = true ->
  ~ ends_with (Path_name file) ".zst" ->
  ~ ends_with (target_key dp file true) (".zst" +:+ ".ccp").
Proof.
  intros Hn Hz. unfold target_key.
  assert (Hn' : no_slash (Path_name file +:+ ".ccp") = true)
    by by rewrite no_slash_app, Hn.
  assert (Hl : 2 <= String.length (Path_name file +:+ ".ccp")).
  { rewrite append_length. simpl. lia. }
  change (Path_name file +:+ "" +:+ ".ccp") with (Path_name file +:+ ".ccp").
  rewrite (Path_of_string_name _ Hn' Hl).
  assert (Hs : Path_name file +:+ ".ccp" <> "/").
  { intros E. rewrite E in Hl. simpl in Hl. lia. }
  unfold Path_div, is_absolute. rewrite (no_slash_not_root _ Hn').
  intros He. apply ends_with_chars in He as [v Hv].
  assert (Hcase : exists l, l ++ list_ascii_of_string (Path_name file)
                            = v ++ list_ascii_of_string ".zst" /\
                            (l = [] \/ exists l', l = l' ++ ["/"%char])).
  { destruct (Path_str_snoc_shape dp _ Hs) as [E|[u E]]; rewrite E in Hv.
    - exists []. split; [|by left]. simpl.
      rewrite chars_app in Hv.
      change (list_ascii_of_string (".zst" +:+ ".ccp"))
        with (list_ascii_of_string ".zst" ++ list_ascii_of_string ".ccp") in Hv.
      rewrite (app_assoc v) in Hv. by apply app_inv_tail in Hv.
    - exists (list_ascii_of_string u ++ ["/"%char]). split; [|eauto].
      rewrite !chars_app in Hv.
      change (list_ascii_of_string (".zst" +:+ ".ccp"))
        with (list_ascii_of_string ".zst" ++ list_ascii_of_string ".ccp") in Hv.
      change (list_ascii_of_string "/") with ["/"%char] in Hv.
      rewrite (app_assoc v), !app_assoc in Hv. apply app_inv_tail in Hv.
      by rewrite <- app_assoc in Hv |- *. }
  destruct Hcase as (l & Hl' & Hshape). apply Hz.
  destruct Hshape as [->|[l' ->]].
  - apply ends_with_chars. by exists v.
  - apply app_eq_inv in Hl' as [(k & Hk1 & Hk2)|(k & Hk1 & Hk2)].
    + destruct k as [|y k _] using rev_ind.
      * apply ends_with_chars. exists []. by rewrite Hk2.
      * exfalso. rewrite app_assoc in Hk1. apply app_inj_tail in Hk1 as [_ <-].
        assert (Hin : "/"%char ∈ list_ascii_of_string ".zst").
        { rewrite Hk2. rewrite !elem_of_app. left. right. constructor. }
        vm_compute in Hin. apply list_elem_of_In in Hin. simpl in Hin.
        repeat (destruct Hin as [Hin|Hin]; [discriminate Hin|]). done.
    + apply ends_with_chars. by exists k.
Qed.

(** ** The two checks *)

Ltac fold_key key :=
  repeat match goal with
  | |- context [Path_str (Path_div ?a (Path_of_string ?b))] =>
      change (Path_str (Path_div a (Path_of_string b))) with key
  end.

Lemma contact_support_suffix (a b : string) :
  ends_with (a +:+ nl +:+ "File '" +:+ b +:+ "' already exists in "
             +:+ "bucket, but does NOT exist in database. "
             +:+ "Delivery cancelled, contact support.") contact_support.
Proof. do 6 apply ends_with_app. apply ends_with_refl. Qed.

Lemma get_file_info_outcome (W : world) (C : config) (s : state)
    (file : Path) (in_dir : bool) (dn : Path) (c : bool)
    (files : gmap string string) :
  is_compressed W file = (c, "") ->
  db_fault W (project_id C) = None ->
  project_db s !! project_id C = Some files ->
  let path_base := if in_dir then Some (Path_name dn) else None in
  let key := target_key (get_root_path W file path_base) file c in
  let in_db := bool_decide (is_Some (files !! key)) in
  let in_bucket := bool_decide (is_Some (bucket s !! key)) in
  exists r s',
    get_file_info W C file in_dir dn s = (Ok r, s') /\
    (existence_matrix in_db in_bucket (overwrite C) = true ->
     exists i, r = Info i /\ proceed i = true /\ new_file i = key /\
               compressed i = c) /\
    (existence_matrix in_db in_bucket (overwrite C) = false ->
     exists e, r = Failed e /\
               (in_db = false -> ends_with e contact_support)).
Proof.
  intros Hc Hf Hp path_base key in_db in_bucket.
  unfold get_file_info, get_file_info_bucket, project_files, file_exists_in_bucket.
  rewrite Hc, Hf. run.
  destruct c; [|destruct (magic_suffix W (Path_suffixes W file))]; simpl;
    rewrite Hp; simpl; fold_key key; fold in_db; clearbody in_db;
    destruct in_db, (overwrite C); simpl; fold in_bucket; clearbody in_bucket;
    destruct in_bucket; simpl;
    (do 2 eexists; split; [reflexivity|]; split; intros E; try discriminate E;
     eauto 10 using contact_support_suffix);
    (eexists; split; [reflexivity|discriminate]).
Qed.

Lemma do_file_checks_outcome (W : world) (C : config) (s : state)
    (file dp : Path) (sfx : list string) (c : bool)
    (files : gmap string string) :
  is_compressed W file = (c, "") ->
  db_fault W (project_id C) = None ->
  project_db s !! project_id C = Some files ->
  let key := target_key dp file c in
  let in_db := bool_decide (is_Some (files !! key)) in
  let in_bucket := bool_decide (is_Some (bucket s !! key)) in
  exists e s',
    do_file_checks W C file dp sfx s
    = (Ok (negb in_db && negb in_bucket, c, key, e), s') /\
    (in_db = false -> in_bucket = true -> ends_with e contact_support).
Proof.
  intros Hc Hf Hp key in_db in_bucket.
  unfold do_file_checks, project_files, file_exists_in_bucket.
  rewrite Hc, Hf. run.
  destruct c; [|destruct (magic_suffix W sfx)]; simpl;
    rewrite Hp; simpl; fold_key key; fold in_db; clearbody in_db;
    destruct in_db; simpl; fold in_bucket; clearbody in_bucket;
    destruct in_bucket; simpl;
    (do 2 eexists; split; [reflexivity|]; intros E1 E2; try discriminate;
     eauto using contact_support_suffix).
Qed.

(** C1 (the code at the failing input): the key of the file is registered
    in the project, it is not in the bucket and [overwrite] is set, so the
    table says proceed.  [get_file_info] proceeds, as the table says;
    [do_file_checks], the second copy of the same checks, never reads
    [self.overwrite] and rejects the file. *)
Theorem do_file_checks_ignores_overwrite :
  let key := target_key [] a_txt false in
  let in_db :=
    bool_decide (is_Some (({[ key := "registered" ]} : gmap string string) !! key)) in
  let in_bucket := bool_decide (is_Some (bucket registered_state !! key)) in
  project_db registered_state !! "p1" = Some {[ key := "registered" ]} /\
  overwrite (put_config true true) = true /\
  existence_matrix in_db in_bucket (overwrite (put_config true true)) = true /\
  checked_proceed
    <$> match (get_file_info quiet_world (put_config true true) a_txt false []
                 registered_state).1 with
        | Ok r => Some r
        | Raise _ => None
        end = Some true /\
  (do_file_checks quiet_world (put_config true true) a_txt [] [".txt"]
     registered_state).1
  = Ok (false, false, "a.txt.zst.ccp",
        "File '/data/a.txt' already exists in the database. ").
Proof.
  split; [vm_compute; reflexivity|]. split; [reflexivity|].
  split; [vm_compute; reflexivity|]. split; vm_compute; reflexivity.
Qed.

(** What the two copies of the checks compute.  [get_file_info] follows the
    table of the four combinations of [in_db] and [in_bucket]: it accepts
    the file exactly when the table says proceed, and the rejection of a
    file that is in the bucket but not in the database tells the user to
    contact support.  [do_file_checks] accepts the file exactly when it is
    neither in the database nor in the bucket, with the same message for a
    file that is in the bucket only. *)
Theorem existence_matrix_of_the_checks (W : world) (C : config) (s : state)
    (file : Path) (in_dir : bool) (dn dp : Path) (sfx : list string)
    (c : bool) (files : gmap string string) :
  is_compressed W file = (c, "") ->
  db_fault W (project_id C) = None ->
  project_db s !! project_id C = Some files ->
  let path_base := if in_dir then Some (Path_name dn) else None in
  let key := target_key (get_root_path W file path_base) file c in
  let in_db := bool_decide (is_Some (files !! key)) in
  let in_bucket := bool_decide (is_Some (bucket s !! key)) in
  let key' := target_key dp file c in
  let in_db' := bool_decide (is_Some (files !! key')) in
  let in_bucket' := bool_decide (is_Some (bucket s !! key')) in
  (exists r s',
     get_file_info W C file in_dir dn s = (Ok r, s') /\
     checked_proceed r = existence_matrix in_db in_bucket (overwrite C) /\
     (in_db = false -> in_bucket = true ->
      ends_with (checked_error r) contact_support)) /\
  (exists e s',
     do_file_checks W C file dp sfx s
     = (Ok (negb in_db' && negb in_bucket', c, key', e), s') /\
     (in_db' = false -> in_bucket' = true -> ends_with e contact_support)).
Proof.
  intros Hc Hf Hp path_base key in_db in_bucket key' in_db' in_bucket'.
  split; [|by apply do_file_checks_outcome].
  destruct (get_file_info_outcome W C s file in_dir dn c files Hc Hf Hp)
    as (r & s' & Hr & Hyes & Hno).
  fold path_base key in_db in_bucket in Hyes, Hno.
  exists r, s'. split; [done|].
  destruct (existence_matrix in_db in_bucket (overwrite C)) eqn:E.
  - destruct (Hyes eq_refl) as (i & -> & Hi & _). split; [done|].
    intros E1 E2. rewrite E1, E2 in E. discriminate E.
  - destruct (Hno eq_refl) as (e & -> & He). split; [done|]. simpl. auto.
Qed.

Lemma existence_matrix_of_the_checks_witness :
  is_compressed quiet_world a_txt = (false, "") /\
  db_fault quiet_world (project_id (put_config true true)) = None /\
  project_db registered_state !! project_id (put_config true true)
  = Some {[ "a.txt.zst.ccp" := "registered" ]} /\
  (exists r s',
     get_file_info quiet_world (put_config true true) a_txt false []
       registered_state = (Ok r, s') /\
     checked_proceed r = true) /\
  (exists e s',
     do_file_checks quiet_world (put_config true true) a_txt [] [".txt"]
       registered_state = (Ok (false, false, "a.txt.zst.ccp", e), s')).
Proof.
  repeat (split; [reflexivity|]).
  destruct (existence_matrix_of_the_checks quiet_world (put_config true true)
              registered_state a_txt false [] [] [".txt"] false
              {[ "a.txt.zst.ccp" := "registered" ]}
              eq_refl eq_refl eq_refl)
    as [(r & s' & Hr & Hp & _) (e & s'' & He & _)].
  split.
  - exists r, s'. split; [exact Hr|]. rewrite Hp. vm_compute. reflexivity.
  - exists e, s''. rewrite He. vm_compute. reflexivity.
Defined.

(** C4 (as stated): the header of [/data/a.zst] says compressed, so the
    key should end in the encryption marker only; both copies of the checks
    give the key [a.zst.ccp], which ends in the compression marker followed
    by the encryption marker. *)
Lemma compressed_zst_key_has_both_markers :
  is_compressed compressed_world a_zst = (true, "") /\
  (exists i,
     (get_file_info compressed_world (put_config true false) a_zst false []
        empty_state).1 = Ok (Info i) /\
     compressed i = true /\ new_file i = "a.zst.ccp") /\
  (do_file_checks compressed_world (put_config true false) a_zst [] [".zst"]
     empty_state).1 = Ok (true, true, "a.zst.ccp", "") /\
  ends_with "a.zst.ccp" (".zst" +:+ ".ccp").
Proof.
  split; [reflexivity|]. split.
  { eexists. split; [vm_compute; reflexivity|]. split; reflexivity. }
  split; [vm_compute; reflexivity|]. by exists "a".
Qed.

(** C4 (amended): for a file whose header could be read, the target key
    that [get_file_info] and [do_file_checks] compute is the file's name
    followed by [.zst.ccp] when the header says not compressed and by [.ccp]
    alone when it says compressed, so the key of a compressed file ends in
    [.zst.ccp] only if the name itself ends in [.zst].  [get_file_info]
    returns the dictionary with that key under ['new_file'] and the verdict
    of the header under ['compressed'] for every file that the existence
    check lets proceed, and the two-key dictionary otherwise;
    [do_file_checks] returns the key and the verdict in both cases. *)
Theorem suffix_policy (W : world) (C : config) (s : state)
    (file : Path) (in_dir : bool) (dn dp : Path) (sfx : list string)
    (c : bool) (files : gmap string string) :
  is_compressed W file = (c, "") ->
  db_fault W (project_id C) = None ->
  project_db s !! project_id C = Some files ->
  no_slash (Path_name file) = true ->
  let path_base := if in_dir then Some (Path_name dn) else None in
  let key := target_key (get_root_path W file path_base) file c in
  let in_db := bool_decide (is_Some (files !! key)) in
  let in_bucket := bool_decide (is_Some (bucket s !! key)) in
  let key' := target_key dp file c in
  let in_db' := bool_decide (is_Some (files !! key')) in
  let in_bucket' := bool_decide (is_Some (bucket s !! key')) in
  let marked := Path_name file +:+ (if c then ".ccp" else ".zst" +:+ ".ccp") in
  ends_with key marked /\ ends_with key' marked /\
  (c = true -> ~ ends_with (Path_name file) ".zst" ->
   ~ ends_with key (".zst" +:+ ".ccp") /\
   ~ ends_with key' (".zst" +:+ ".ccp")) /\
  (exists r s',
     get_file_info W C file in_dir dn s = (Ok r, s') /\
     (existence_matrix in_db in_bucket (overwrite C) = true ->
      exists i, r = Info i /\ new_file i = key /\ compressed i = c) /\
     (existence_matrix in_db in_bucket (overwrite C) = false ->
      exists e, r = Failed e)) /\
  (exists e s',
     do_file_checks W C file dp sfx s
     = (Ok (negb in_db' && negb in_bucket', c, key', e), s')).
Proof.
  intros Hc Hf Hp Hn path_base key in_db in_bucket key' in_db' in_bucket' marked.
  split; [exact (target_key_name _ file c Hn)|].
  split; [exact (target_key_name _ file c Hn)|].
  split.
  { intros Hc' Hz. unfold key, key'. rewrite Hc'.
    split; by apply target_key_no_marker. }
  split.
  - destruct (get_file_info_outcome W C s file in_dir dn c files Hc Hf Hp)
      as (r & s' & Hr & Hyes & Hno).
    fold path_base key in_db in_bucket in Hyes, Hno.
    exists r, s'. split; [exact Hr|]. split.
    + intros E. destruct (Hyes E) as (i & -> & _ & Hk & Hci). eauto.
    + intros E. destruct (Hno E) as (e & -> & _). eauto.
  - destruct (do_file_checks_outcome W C s file dp sfx c files Hc Hf Hp)
      as (e & s' & He & _).
    eauto.
Qed.

Lemma suffix_policy_witness :
  no_slash (Path_name a_txt) = true /\
  ends_with (target_key [ "dir" ] a_txt false) "a.txt.zst.ccp" /\
  (exists i s',
     get_file_info quiet_world (put_config true false) a_txt false []
       empty_state = (Ok (Info i), s') /\
     new_file i = "a.txt.zst.ccp" /\ compressed i = false) /\
  exists e s',
    do_file_checks quiet_world (put_config true false) a_txt [ "dir" ] []
      empty_state = (Ok (true, false, "dir/a.txt.zst.ccp", e), s').
Proof.
  split; [reflexivity|].
  destruct (suffix_policy quiet_world (put_config true false) empty_state
              a_txt false [] [ "dir" ] [] false ∅
              eq_refl eq_refl eq_refl eq_refl)
    as (_ & Hk & _ & (r & s' & Hr & Hyes & _) & Hd).
  split; [exact Hk|]. split; [|exact Hd].
  destruct (Hyes eq_refl) as (i & -> & Hn & Hci).
  exists i, s'. split; [exact Hr|]. split; [exact Hn | exact Hci].
Defined.

(** A compressed file whose name does not end in [.zst]: the encryption
    marker only. *)
Example compressed_file_gets_ccp_only :
  exists i,
    (get_file_info compressed_world (put_config true false)
       ["/"; "data"; "a.gz"] true dir_D empty_state).1 = Ok (Info i) /\
    new_file i = "a.gz.ccp" /\ compressed i = true.
Proof. eexists. split; [vm_compute; reflexivity|]. split; reflexivity. Qed.

(** ** The cascade of [update_delivery] *)

Lemma cancel_directory_spec (file : Path) (u : updinfo) (dn : option Path)
    (err : string) (items visited : list (Path * file_info)) (s : state) :
  u_error u = Some err ->
  data s = visited ++ items ->
  is_Some (failed s !! dn) ->
  exists s',
    cancel_directory file u dn visited items s = (Ok tt, s') /\
    data s' = visited ++ (cascade dn (failed_file_msg file err) <$> items) /\
    is_Some (failed s' !! dn).
Proof.
  intros Hu. revert visited s.
  induction items as [|[path info] rest IH]; intros visited s Hd Hf; simpl.
  - exists s. by rewrite Hd.
  - unfold cascade at 1, cancellable. simpl.
    destruct (bool_decide (dir_name info = dn) && negb (in_progress (upload info))
              && negb (finished (upload info))) eqn:E.
    + apply andb_true_iff in E as [E _]. apply andb_true_iff in E as [E _].
      apply bool_decide_eq_true in E.
      unfold failed_add. run. rewrite Hu. simpl. rewrite E.
      destruct Hf as [fe Hf]. rewrite Hf. simpl.
      set (msg := "Failed file: " +:+ Path_str file +:+ " -- " +:+ err).
      match goal with
      | |- context [cancel_directory _ _ _ _ _ ?st] =>
          destruct (IH (visited ++ [(path, cancelled msg info)]) st)
            as (s' & Hs' & Hd' & Hf')
      end.
      * simpl. by rewrite <- app_assoc.
      * simpl. rewrite lookup_insert_eq. eauto.
      * exists s'. split; [exact Hs'|]. split; [|exact Hf'].
        rewrite Hd', <- app_assoc. reflexivity.
    + destruct (IH (visited ++ [(path, info)]) s) as (s' & Hs' & Hd' & Hf').
      * by rewrite <- app_assoc.
      * done.
      * exists s'. split; [exact Hs'|]. split; [|exact Hf'].
        rewrite Hd', <- app_assoc. reflexivity.
Qed.

Lemma update_delivery_failure (C : config) (s : state) (file : Path)
    (u : updinfo) (err : string) (info : file_info) :
  u_proceed u = Some false ->
  u_error u = Some err ->
  data_lookup file (data s) = Some info ->
  in_directory info = true ->
  exists s',
    update_delivery C file u s = (Ok tt, s') /\
    data s' =
      if break_on_fail C
      then cascade (dir_name info) (failed_file_msg file err) <$> data s
      else data_alter (cancelled err) file (data s).
Proof.
  intros Hp He Hl Hd. unfold update_delivery, data_getitem. run.
  rewrite Hp. simpl. rewrite Hl. simpl. rewrite Hd.
  destruct (break_on_fail C); case_bool_decide as Hin; simpl.
  1,2: match goal with
       | |- context [cancel_directory _ _ _ _ _ ?st] =>
           destruct (cancel_directory_spec file u (dir_name info) err
                       (data st) [] st He eq_refl) as (s' & Hs' & Hd' & _);
             [simpl; rewrite ?lookup_insert_eq; eauto|];
             simpl in Hs'; rewrite Hs'; exists s'; split; [done|];
             by rewrite Hd'
       end.
  all: rewrite He; unfold failed_add; run.
  - destruct Hin as [fe Hin]. rewrite Hin. simpl.
    eexists. split; [reflexivity|]. done.
  - rewrite lookup_insert_eq. simpl.
    eexists. split; [reflexivity|]. done.
Qed.

Lemma cascade_key (dn : option Path) (msg : string) (e : Path * file_info) :
  (cascade dn msg e).1 = e.1.
Proof. unfold cascade. by destruct (cancellable dn e.2). Qed.

Lemma data_lookup_cascade (dn : option Path) (msg : string) (file : Path)
    (d : list (Path * file_info)) :
  data_lookup file (cascade dn msg <$> d)
  = (fun i => (cascade dn msg (file, i)).2) <$> data_lookup file d.
Proof.
  induction d as [|[p i] d IH]; [done|].
  rewrite fmap_cons. unfold cascade at 1. simpl.
  destruct (cancellable dn i) eqn:E; simpl; case_bool_decide; subst; simpl;
    try done; unfold cascade; simpl; by rewrite E.
Qed.

Lemma data_alter_length (f : file_info -> file_info) (file : Path)
    (d : list (Path * file_info)) :
  length (data_alter f file d) = length d.
Proof.
  induction d as [|[p i] d IH]; [done|]. simpl.
  case_bool_decide; simpl; by rewrite ?IH.
Qed.

Lemma data_alter_lookup (f : file_info -> file_info) (file : Path)
    (d : list (Path * file_info)) :
  data_lookup file (data_alter f file d) = f <$> data_lookup file d.
Proof.
  induction d as [|[p i] d IH]; [done|]. simpl.
  case_bool_decide as E; simpl; rewrite ?(bool_decide_eq_true_2 _ E),
    ?(bool_decide_eq_false_2 _ E); done.
Qed.

Lemma data_alter_other (f : file_info -> file_info) (file : Path)
    (d : list (Path * file_info)) (k : nat) (p : Path) (i : file_info) :
  d !! k = Some (p, i) -> p <> file -> data_alter f file d !! k = Some (p, i).
Proof.
  revert k. induction d as [|[q j] d IH]; intros k Hk Hp; [done|]. simpl.
  destruct k as [|k]; simpl in *.
  - injection Hk as -> ->. by rewrite bool_decide_eq_false_2.
  - case_bool_decide; simpl; auto.
Qed.

(** C2: a file of a directory whose upload has not started is reported as
    failed ([updinfo['proceed']] is false).  With [break_on_fail], every entry
    of [self.data] with the same ['dir_name'] whose upload is neither in
    progress nor finished, the failing file among them, gets
    [proceed = False] and the error [Failed file: <file> -- <error>], and
    every other entry is left as it was.  Without [break_on_fail], the entry
    of the failing file gets [proceed = False] and the error, and every other
    entry is left as it was. *)
Theorem break_on_fail_cascade (C : config) (s : state) (file : Path)
    (u : updinfo) (err : string) (info : file_info) :
  u_proceed u = Some false ->
  u_error u = Some err ->
  data_lookup file (data s) = Some info ->
  in_directory info = true ->
  in_progress (upload info) = false ->
  finished (upload info) = false ->
  exists s',
    update_delivery C file u s = (Ok tt, s') /\
    length (data s') = length (data s) /\
    if break_on_fail C then
      let msg := "Failed file: " +:+ Path_str file +:+ " -- " +:+ err in
      data_lookup file (data s') = Some (cancelled msg info) /\
      forall (k : nat) (p : Path) (i : file_info),
        data s !! k = Some (p, i) ->
        (dir_name i = dir_name info ->
         in_progress (upload i) = false -> finished (upload i) = false ->
         data s' !! k = Some (p, cancelled msg i) /\
         proceed (cancelled msg i) = false /\ error (cancelled msg i) = msg) /\
        (dir_name i <> dir_name info \/
         in_progress (upload i) = true \/ finished (upload i) = true ->
         data s' !! k = Some (p, i))
    else
      data_lookup file (data s') = Some (cancelled err info) /\
      forall (k : nat) (p : Path) (i : file_info),
        data s !! k = Some (p, i) -> p <> file ->
        data s' !! k = Some (p, i).
Proof.
  intros Hp He Hl Hd Hu1 Hu2.
  destruct (update_delivery_failure C s file u err info Hp He Hl Hd)
    as (s' & Hs' & Hd').
  exists s'. split; [done|]. destruct (break_on_fail C); rewrite Hd'.
  - split; [by rewrite length_fmap|]. split.
    + rewrite data_lookup_cascade, Hl. simpl. unfold cascade, cancellable.
      simpl. rewrite bool_decide_eq_true_2, Hu1, Hu2 by done. done.
    + intros k p i Hk. rewrite list_lookup_fmap, Hk. simpl.
      unfold cascade, cancellable. simpl. split.
      * intros E1 E2 E3. rewrite bool_decide_eq_true_2, E2, E3 by done. done.
      * intros [E|[E|E]].
        -- by rewrite bool_decide_eq_false_2.
        -- rewrite E. by rewrite andb_false_r.
        -- rewrite E. by rewrite andb_false_r.
  - split; [apply data_alter_length|]. split.
    + by rewrite data_alter_lookup, Hl.
    + intros k p i Hk Hne. by apply data_alter_other.
Qed.

Lemma break_on_fail_cascade_witness :
  u_proceed (failure_of "boom") = Some false /\
  u_error (failure_of "boom") = Some "boom" /\
  data_lookup (dir_D ++ ["b"]) (data three_files) = Some (in_dir_info "b") /\
  in_directory (in_dir_info "b") = true /\
  in_progress (upload (in_dir_info "b")) = false /\
  finished (upload (in_dir_info "b")) = false /\
  exists s',
    update_delivery (put_config true false) (dir_D ++ ["b"]) (failure_of "boom")
      three_files = (Ok tt, s') /\
    data s' =
      [(dir_D ++ ["a"], cancelled "Failed file: /data/D/b -- boom" (in_dir_info "a"));
       (dir_D ++ ["b"], cancelled "Failed file: /data/D/b -- boom" (in_dir_info "b"));
       (dir_D ++ ["c"], cancelled "Failed file: /data/D/b -- boom" (in_dir_info "c"))].
Proof.
  repeat (split; [reflexivity|]).
  destruct (break_on_fail_cascade (put_config true false) three_files
              (dir_D ++ ["b"]) (failure_of "boom") "boom" (in_dir_info "b")
              eq_refl eq_refl eq_refl eq_refl eq_refl eq_refl)
    as (s' & Hs' & Hlen & _ & Hall).
  exists s'. split; [exact Hs'|].
  pose proof (proj1 (proj1 (Hall 0 _ _ eq_refl) eq_refl eq_refl eq_refl)) as H0.
  pose proof (proj1 (proj1 (Hall 1 _ _ eq_refl) eq_refl eq_refl eq_refl)) as H1.
  pose proof (proj1 (proj1 (Hall 2 _ _ eq_refl) eq_refl eq_refl eq_refl)) as H2.
  destruct (data s') as [|e0 [|e1 [|e2 [|e3 r]]]]; try discriminate Hlen.
  simpl in H0, H1, H2. by injection H0 as ->; injection H1 as ->; injection H2 as ->.
Defined.

(** Without [break_on_fail] the other two files stay as they were. *)
Example no_break_on_fail_three_files :
  (update_delivery (put_config false false) (dir_D ++ ["b"]) (failure_of "boom")
     three_files).1 = Ok tt /\
  data (update_delivery (put_config false false) (dir_D ++ ["b"])
          (failure_of "boom") three_files).2 =
    [(dir_D ++ ["a"], in_dir_info "a");
     (dir_D ++ ["b"], cancelled "boom" (in_dir_info "b"));
     (dir_D ++ ["c"], in_dir_info "c")].
Proof. split; vm_compute; reflexivity. Qed.

(** ** Progress flags *)

Lemma stage_get_set (k k' : string) (st : stage) (i : file_info) :
  stage_get k (stage_set k' st i)
  = if String.eqb k k' then (fun _ => st) <$> stage_get k i else stage_get k i.
Proof.
  unfold stage_get, stage_set. simpl.
  destruct (String.eqb_spec k k') as [->|Hne].
  - destruct (String.eqb k' "processing"); [done|].
    destruct (String.eqb k' "upload"); [done|].
    by destruct (String.eqb k' "database").
  - destruct (String.eqb_spec k "processing") as [->|?].
    { by rewrite (proj2 (String.eqb_neq k' "processing")) by congruence. }
    destruct (String.eqb_spec k "upload") as [->|?].
    { by rewrite (proj2 (String.eqb_neq k' "upload")) by congruence. }
    destruct (String.eqb_spec k "database") as [->|?]; [|done].
    by rewrite (proj2 (String.eqb_neq k' "database")) by congruence.
Qed.

Lemma data_alter_at (f : file_info -> file_info) (file : Path)
    (d : list (Path * file_info)) (n : nat) (p : Path) (i : file_info) :
  d !! n = Some (p, i) ->
  data_alter f file d !! n = Some (p, i) \/
  (p = file /\ data_alter f file d !! n = Some (p, f i)).
Proof.
  revert n. induction d as [|[q j] d IH]; intros n Hn; [done|]. simpl.
  case_bool_decide as E.
  - destruct n; simpl in *; [|by left]. injection Hn as -> ->. by right.
  - destruct n; simpl in *; [by left|]. auto.
Qed.

(** C5 (as stated): [set_progress(item, processing=True, started=True)] on a
    record whose processing is finished sets it back to in progress and not
    finished. *)
Lemma set_progress_restarts_finished_stage :
  finished (processing processed_info) = true /\
  (set_progress a_txt false true false false true false processed_state).1 = Ok tt /\
  exists i,
    data_lookup a_txt
      (data (set_progress a_txt false true false false true false
               processed_state).2) = Some i /\
    in_progress (processing i) = true /\ finished (processing i) = false.
Proof.
  split; [reflexivity|]. split; [reflexivity|].
  eexists. split; [vm_compute; reflexivity|]. split; reflexivity.
Qed.

(** C5 (amended): once a stage of a record is finished, a call of
    [set_progress] that does not say [started], or that selects another
    stage, leaves it finished and does not put it in progress; a call with
    [started] for the selected stage sets that stage to in progress and not
    finished whatever it was before. *)
Theorem set_progress_finished_stage (s : state) (item : Path)
    (check processing upload db started fin : bool) :
  (forall (n : nat) (p : Path) (i : file_info) (k : string) (st : stage),
     data s !! n = Some (p, i) ->
     stage_get k i = Some st ->
     finished st = true ->
     started = false \/ k <> to_update_of processing upload db ->
     exists i' st',
       data (set_progress item check processing upload db started fin s).2 !! n
       = Some (p, i') /\
       stage_get k i' = Some st' /\
       finished st' = true /\
       (in_progress st' = true -> in_progress st = true)) /\
  (forall (info : file_info) (st : stage),
     data_lookup item (data s) = Some info ->
     stage_get (to_update_of processing upload db) info = Some st ->
     started = true ->
     exists s',
       set_progress item check processing upload db started fin s = (Ok tt, s') /\
       data_lookup item (data s')
       = Some (stage_set (to_update_of processing upload db)
                 {| in_progress := true; finished := false |} info)).
Proof.
  split.
  - intros n p i k st Hn Hk Hf Hcase.
    assert (Hsame : exists i' st',
               data s !! n = Some (p, i') /\ stage_get k i' = Some st' /\
               finished st' = true /\ (in_progress st' = true -> in_progress st = true))
      by (exists i, st; auto).
    assert (Hupd : forall x : stage,
               (finished x = true /\ in_progress x = false) \/
               k <> to_update_of processing upload db ->
               exists i' st',
                 data_alter (stage_set (to_update_of processing upload db) x)
                   item (data s) !! n = Some (p, i') /\
                 stage_get k i' = Some st' /\ finished st' = true /\
                 (in_progress st' = true -> in_progress st = true)).
    { intros x Hx.
      destruct (data_alter_at (stage_set (to_update_of processing upload db) x)
                  item (data s) n p i Hn) as [H|[_ H]].
      - rewrite H. exists i, st. auto.
      - rewrite H.
        exists (stage_set (to_update_of processing upload db) x i).
        rewrite stage_get_set, Hk. simpl.
        destruct (String.eqb_spec k (to_update_of processing upload db)).
        + destruct Hx as [[Hx1 Hx2]|Hx]; [|done].
          exists x. split; [done|]. split; [done|]. split; [done|].
          rewrite Hx2. discriminate.
        + exists st. auto. }
    unfold set_progress, data_getitem. run.
    destruct started; [|destruct fin];
      try (destruct (data_lookup item (data s)) as [info|]; simpl;
           [destruct (stage_get (to_update_of processing upload db) info);
            simpl|]);
      try exact Hsame.
    + apply Hupd. right. by destruct Hcase.
    + apply Hupd. by left.
  - intros info st Hl Hk ->. unfold set_progress, data_getitem. run.
    rewrite Hl. simpl. rewrite Hk. simpl. eexists. split; [reflexivity|].
    simpl. by rewrite data_alter_lookup, Hl.
Qed.

Lemma set_progress_finished_stage_witness :
  data processed_state !! 0 = Some (a_txt, processed_info) /\
  stage_get "processing" processed_info
  = Some {| in_progress := false; finished := true |} /\
  exists i' st',
    data (set_progress a_txt false false true false true false
            processed_state).2 !! 0 = Some (a_txt, i') /\
    stage_get "processing" i' = Some st' /\ finished st' = true.
Proof.
  split; [reflexivity|]. split; [reflexivity|].
  destruct (proj1 (set_progress_finished_stage processed_state a_txt
                     false false true false true false)
              0 a_txt processed_info "processing" _ eq_refl eq_refl eq_refl)
    as (i' & st' & H1 & H2 & H3 & _).
  { right. discriminate. }
  exists i', st'. auto.
Defined.

(** ** Finalize *)

(** Upload finished, registration not: the object is deleted from the
    bucket and the database is left alone. *)
Lemma finalize_deletes_object (W : world) (C : config) (s : state)
    (file : Path) (info : file_info) (files : gmap string string) :
  finished (upload info) = true ->
  finished (database info) = false ->
  delete_fault W (new_file info) = None ->
  db_fault W (project_id C) = None ->
  project_db s !! project_id C = Some files ->
  exists s',
    _finalize W C file info s = (Ok true, s') /\
    bucket s' = delete (new_file info) (bucket s) /\
    project_db s' = project_db s.
Proof.
  intros Hu Hd Hf Hdb Hp. unfold _finalize, delete_item, project_files. run.
  rewrite Hu, Hd, Hf, Hdb. simpl. rewrite Hp. simpl.
  eexists. split; [reflexivity|]. done.
Qed.

(** Registration finished, upload not, and the key is registered: the entry
    is deleted from the project's files and the bucket is left alone. *)
Lemma finalize_deletes_entry (W : world) (C : config) (s : state)
    (file : Path) (info : file_info) (files : gmap string string) :
  finished (database info) = true ->
  finished (upload info) = false ->
  db_fault W (project_id C) = None ->
  project_db s !! project_id C = Some files ->
  is_Some (files !! new_file info) ->
  exists s',
    _finalize W C file info s = (Ok true, s') /\
    project_db s' = <[project_id C := delete (new_file info) files]> (project_db s) /\
    bucket s' = bucket s.
Proof.
  intros Hd Hu Hdb Hp [m Hm]. unfold _finalize, project_files, del_file. run.
  rewrite Hu, Hd, Hdb. simpl. rewrite Hp. simpl. rewrite Hm. simpl.
  eexists. split; [reflexivity|]. done.
Qed.

(** A [ClientError] of the object store is logged as a warning and the
    result is [False]. *)
Lemma finalize_client_error (W : world) (C : config) (s : state)
    (file : Path) (info : file_info) (msg : string) :
  finished (upload info) = true ->
  finished (database info) = false ->
  delete_fault W (new_file info) = Some (ClientError msg) ->
  exists s',
    _finalize W C file info s = (Ok false, s') /\
    log s' = log s ++ [(WARNING, msg)] /\
    bucket s' = bucket s /\ project_db s' = project_db s.
Proof.
  intros Hu Hd Hf. unfold _finalize, delete_item. run.
  rewrite Hu, Hd, Hf. simpl. eexists. split; [reflexivity|]. done.
Qed.

(** A failure of the connector with [CouchDBException] is logged as a
    warning and the result is [False]. *)
Lemma finalize_couchdb_exception (W : world) (C : config) (s : state)
    (file : Path) (info : file_info) (msg : string) :
  finished (upload info) = false ->
  db_fault W (project_id C) = Some (CouchDBException msg) ->
  exists s',
    _finalize W C file info s = (Ok false, s') /\
    log s' = log s ++ [(WARNING, msg)] /\
    bucket s' = bucket s /\ project_db s' = project_db s.
Proof.
  intros Hu Hf. unfold _finalize, project_files. run.
  rewrite Hu, Hf. simpl. eexists. split; [reflexivity|]. done.
Qed.

(** C3 (the code at the failing input): the deletion of the entry fails with
    [KeyError]; the [except CouchDBException] clause does not catch it, so
    [_finalize] raises, and nothing is logged. *)
Theorem finalize_raises_KeyError :
  project_db empty_state !! "p1" = Some ∅ /\
  _finalize quiet_world (put_config true false) a_txt registered_only_info
    empty_state
  = (Raise (KeyError "a.txt.zst.ccp"),
     with_io [DbFiles "p1"; DbDelete "p1" "a.txt.zst.ccp"] empty_state).
Proof. split; vm_compute; reflexivity. Qed.

(** ** The temporary directory *)

(** When every failure of [rmtree] is a [DeliverySystemException], every
    directory is attempted. *)
Lemma clear_dirs_all_attempted (W : world) (ds : list Path) (s : state) :
  (forall d e, d ∈ ds -> rmtree_fault W d = Some e ->
               is_DeliverySystemException e = true) ->
  exists s',
    clear_dirs W ds s = (Ok tt, s') /\ io s' = io s ++ (Rmtree <$> ds).
Proof.
  revert s. induction ds as [|d ds IH]; intros s H; simpl.
  - exists s. by rewrite app_nil_r.
  - unfold rmtree. run.
    destruct (rmtree_fault W d) as [e|] eqn:E; simpl.
    + rewrite (H d e) by (done || constructor). simpl.
      match goal with
      | |- context [clear_dirs W ds ?st] =>
          destruct (IH st) as (s' & Hs' & Hio)
      end.
      { intros x y Hx. apply H. by constructor. }
      exists s'. split; [done|]. rewrite Hio. simpl. by rewrite <- app_assoc.
    + match goal with
      | |- context [clear_dirs W ds ?st] =>
          destruct (IH st) as (s' & Hs' & Hio)
      end.
      { intros x y Hx. apply H. by constructor. }
      exists s'. split; [done|]. rewrite Hio. simpl. by rewrite <- app_assoc.
Qed.

(** A failure of [rmtree] that is not a [DeliverySystemException] leaves
    the loop: the directories after it are not attempted. *)
Lemma clear_dirs_aborts (W : world) (pre post : list Path) (d : Path)
    (e : exn) (s : state) :
  (forall x, x ∈ pre -> rmtree_fault W x = None) ->
  rmtree_fault W d = Some e ->
  is_DeliverySystemException e = false ->
  exists s',
    clear_dirs W (pre ++ d :: post) s = (Raise e, s') /\
    io s' = io s ++ (Rmtree <$> pre ++ [d]).
Proof.
  intros Hpre Hd He. revert s.
  induction pre as [|x pre IH]; intros s; simpl.
  - unfold rmtree. run. rewrite Hd. simpl. rewrite He.
    eexists. split; [reflexivity|]. done.
  - unfold rmtree. run. rewrite (Hpre x) by constructor. simpl.
    match goal with
    | |- context [clear_dirs W _ ?st] => destruct (IH ltac:(intros; apply Hpre; by constructor) st) as (s' & Hs' & Hio)
    end.
    exists s'. split; [done|]. rewrite Hio. simpl. by rewrite <- app_assoc.
Qed.

(** C8 (the code at the failing input): [rmtree] of the first folder fails
    with [OSError]; the [except DeliverySystemException] clause does not
    catch it, so [_clear_tempdir] raises, nothing is logged, and the second
    folder is neither attempted nor removed. *)
Theorem clear_tempdir_stops_at_OSError :
  temp_dirs ["/"; "tmp"] (fs two_folders)
  = [["/"; "tmp"; "one"]; ["/"; "tmp"; "two"]] /\
  _clear_tempdir locked_world (put_config true false) two_folders
  = (Raise (OSError "[Errno 13] Permission denied"),
     with_io [Rmtree ["/"; "tmp"; "one"]] two_folders).
Proof. split; vm_compute; reflexivity. Qed.

(** ** Tear-down *)

Lemma finalize_failed (W : world) (C : config) (f : Path) (info : file_info)
    (s : state) :
  failed (_finalize W C f info s).2 = failed s.
Proof.
  unfold _finalize, delete_item, project_files, del_file. run.
  repeat (case_match; simpl in *; simplify_eq; try done).
Qed.


(** What one round of the loop does. *)
Lemma exit_item_cases (W : world) (C : config) (f : Path) (info : file_info)
    (t : tables) (s : state) :
  exit_item W C f info t s =
    if delivered info then
      if bool_decide (is_Some (failed s !! Some f)) then
        (Raise (DeliverySystemException
                  ("File: " +:+ Path_str f +:+ " -- Recorded as "
                   +:+ "delivered, but also as " +:+ "failed. Bug. ")), s)
      else
        (Ok (add_succeeded (item_name f info)
               (Path_str (directory_path info) +:+ nl) t), s)
    else
      match _finalize W C f info s with
      | (Ok _, s') =>
          (Ok (add_failed (item_name f info)
                 (nl_join (wrap W (error info)) +:+ nl) t), s')
      | (Raise e, s') => (Raise e, s')
      end.
Proof.
  unfold exit_item. run. destruct (delivered info); [by case_bool_decide|].
  by destruct (_finalize W C f info s) as [[]].
Qed.

Lemma exit_item_failed (W : world) (C : config) (f : Path) (info : file_info)
    (t : tables) (s : state) :
  failed (exit_item W C f info t s).2 = failed s.
Proof.
  rewrite exit_item_cases. destruct (delivered info).
  - by case_bool_decide.
  - pose proof (finalize_failed W C f info s) as H.
    by destruct (_finalize W C f info s) as [[]].
Qed.


Lemma add_succeeded_rows (a b : string) (t : tables) (row : string * string) :
  row ∈ succeeded (add_succeeded a b t) -> row ∈ succeeded t \/ row = (a, b).
Proof.
  unfold add_succeeded. case_bool_decide; simpl; [by left|].
  rewrite elem_of_app, list_elem_of_singleton. tauto.
Qed.

Lemma add_succeeded_dict (a b : string) (t : tables) (x : string) :
  x = a \/ is_Some (suc_dict t !! x) ->
  is_Some (suc_dict (add_succeeded a b t) !! x).
Proof.
  unfold add_succeeded. case_bool_decide as E; simpl.
  - by intros [->|].
  - intros [->|H]; [rewrite lookup_insert_eq; eauto|].
    destruct (decide (a = x)) as [->|]; [done|]. by rewrite lookup_insert_ne.
Qed.

Lemma add_failed_dict (a b : string) (t : tables) (x : string) :
  x = a \/ is_Some (fai_dict t !! x) ->
  is_Some (fai_dict (add_failed a b t) !! x).
Proof.
  unfold add_failed. case_bool_decide as E; simpl.
  - by intros [->|].
  - intros [->|H]; [rewrite lookup_insert_eq; eauto|].
    destruct (decide (a = x)) as [->|]; [done|]. by rewrite lookup_insert_ne.
Qed.

Lemma add_succeeded_fai (a b : string) (t : tables) :
  fai_dict (add_succeeded a b t) = fai_dict t.
Proof. unfold add_succeeded. by case_bool_decide. Qed.

Lemma add_failed_suc (a b : string) (t : tables) :
  succeeded (add_failed a b t) = succeeded t /\
  suc_dict (add_failed a b t) = suc_dict t.
Proof. unfold add_failed. by case_bool_decide. Qed.

(** The tables at the end of the loop, when no round raises. *)
Lemma exit_loop_tables (W : world) (C : config)
    (items : list (Path * file_info)) (t0 t : tables) (s s' : state) :
  exit_loop W C items t0 s = (Ok t, s') ->
  (forall row, row ∈ succeeded t ->
     row ∈ succeeded t0 \/
     exists f info, (f, info) ∈ items /\ delivered info = true /\
                    failed s !! Some f = None /\ row.1 = item_name f info) /\
  (forall x, is_Some (fai_dict t0 !! x) -> is_Some (fai_dict t !! x)) /\
  (forall x, is_Some (suc_dict t0 !! x) -> is_Some (suc_dict t !! x)) /\
  (forall f info, (f, info) ∈ items ->
     if delivered info then is_Some (suc_dict t !! item_name f info)
     else is_Some (fai_dict t !! item_name f info)).
Proof.
  revert t0 s. induction items as [|[f info] items IH]; intros t0 s H.
  - simpl in H. injection H as -> ->.
    repeat split; auto. intros ?? Hin. by apply elem_of_nil in Hin.
  - simpl in H. unfold bind in H.
    pose proof (exit_item_failed W C f info t0 s) as Hfl.
    rewrite exit_item_cases in H, Hfl.
    destruct (delivered info) eqn:Hd.
    + case_bool_decide as Hin; [done|]. simpl in Hfl.
      apply IH in H as (H1 & H2 & H3 & H4).
      assert (Hnone : failed s !! Some f = None).
      { destruct (failed s !! Some f) eqn:E; [|done]. exfalso. eauto. }
      repeat split.
      * intros row Hrow. destruct (H1 row Hrow) as [Hr|(f' & i' & ? & ? & ? & ?)].
        -- apply add_succeeded_rows in Hr as [Hr| ->]; [by left|].
           right. exists f, info. repeat split; auto. constructor.
        -- right. exists f', i'. repeat split; auto. by constructor.
      * intros x Hx. apply H2. by rewrite add_succeeded_fai.
      * intros x Hx. apply H3, add_succeeded_dict. by right.
      * intros f' i' Hin'. apply elem_of_cons in Hin' as [[= -> ->]|Hin'].
        -- rewrite Hd. apply H3, add_succeeded_dict. by left.
        -- by apply H4.
    + destruct (_finalize W C f info s) as [[b|e] s1] eqn:Hfin; [|done].
      simpl in Hfl.
      apply IH in H as (H1 & H2 & H3 & H4).
      destruct (add_failed_suc (item_name f info)
                  (nl_join (wrap W (error info)) +:+ nl) t0) as [E1 E2].
      repeat split.
      * intros row Hrow. destruct (H1 row Hrow) as [Hr|(f' & i' & ? & ? & ? & ?)].
        -- left. by rewrite <- E1.
        -- right. exists f', i'. repeat split; auto; [by constructor|].
           by rewrite <- Hfl.
      * intros x Hx. apply H2, add_failed_dict. by right.
      * intros x Hx. apply H3. by rewrite E2.
      * intros f' i' Hin'. apply elem_of_cons in Hin' as [[= -> ->]|Hin'].
        -- rewrite Hd. apply H2, add_failed_dict. by left.
        -- by apply H4.
Qed.

Lemma exit_normal (W : world) (C : config) (s s1 s2 : state) (t : tables) :
  gdata s = ∅ ->
  exit_loop W C (data s) no_tables s = (Ok t, s1) ->
  _clear_tempdir W C s1 = (Ok tt, s2) ->
  __exit__ W C None s = (Ok None, with_log (log s2 ++ summary W t) s2).
Proof.
  intros Hg Hl Hc. unfold __exit__. run. rewrite Hg.
  rewrite bool_decide_eq_true_2 by done. rewrite Hl, Hc. unfold summary.
  destruct s2 as [d g fl db be b f l i]. unfold with_log. simpl.
  repeat case_bool_decide; simpl;
    rewrite <- ?app_assoc; simpl; rewrite ?app_nil_r; reflexivity.
Qed.

(** C6 (as stated): a record whose processing is not finished is listed as
    uploaded. *)
Lemma exit_lists_unprocessed_record :
  finished (processing unprocessed_info) = false /\
  __exit__ quiet_world (put_config true false) None unprocessed_state
  = (Ok None,
     with_log [(INFO, "----DELIVERY COMPLETED----");
               (INFO, "The following items were uploaded:" +:+ nl
                      +:+ "/data/a.txt" +:+ nl)] unprocessed_state).
Proof. split; vm_compute; reflexivity. Qed.

(** C6 (amended): when the loop of [__exit__] ends without an exception, a
    row of the table of delivered items stands for a record with
    [proceed], [upload.finished] and [database.finished] (the flag of the
    processing stage is not read), and every record that does not satisfy
    these three is passed to [_finalize] and its item is in the table of
    failed items; the two tables are the ones that the summary logs. *)
Theorem teardown_success_condition (W : world) (C : config) (s s1 : state)
    (t : tables) :
  gdata s = ∅ ->
  exit_loop W C (data s) no_tables s = (Ok t, s1) ->
  (forall row, row ∈ succeeded t ->
     exists f info,
       (f, info) ∈ data s /\
       proceed info = true /\ finished (upload info) = true /\
       finished (database info) = true /\
       row.1 = item_name f info) /\
  (forall f info,
     (f, info) ∈ data s ->
     proceed info && finished (upload info) && finished (database info) = false ->
     is_Some (fai_dict t !! item_name f info) /\
     forall t0 s0,
       exit_item W C f info t0 s0 =
       match _finalize W C f info s0 with
       | (Ok _, s') =>
           (Ok (add_failed (item_name f info)
                  (nl_join (wrap W (error info)) +:+ nl) t0), s')
       | (Raise e, s') => (Raise e, s')
       end) /\
  (forall s2,
     _clear_tempdir W C s1 = (Ok tt, s2) ->
     __exit__ W C None s = (Ok None, with_log (log s2 ++ summary W t) s2)).
Proof.
  intros Hg Hl. destruct (exit_loop_tables W C _ _ _ _ _ Hl) as (H1 & _ & _ & H4).
  repeat split.
  - intros row Hrow. destruct (H1 row Hrow) as [Hr|(f & info & Hin & Hd & _ & Hn)].
    { by apply elem_of_nil in Hr. }
    exists f, info. unfold delivered in Hd.
    apply andb_true_iff in Hd as [Hd ?]. apply andb_true_iff in Hd as [??].
    auto.
  - specialize (H4 f info H). unfold delivered in H4. by rewrite H0 in H4.
  - intros t0 s0. rewrite exit_item_cases. unfold delivered. by rewrite H0.
  - intros s2 Hc. by apply exit_normal with s1.
Qed.

Lemma teardown_success_condition_witness :
  gdata two_records = ∅ /\
  exit_loop quiet_world (put_config true false) (data two_records) no_tables
    two_records
  = (Ok two_records_tables, with_io [DbFiles "p1"] two_records) /\
  is_Some (fai_dict two_records_tables !! "/data/b.txt") /\
  (__exit__ quiet_world (put_config true false) None two_records).1 = Ok None.
Proof.
  assert (Hg : gdata two_records = ∅) by reflexivity.
  assert (Hl : exit_loop quiet_world (put_config true false) (data two_records)
                 no_tables two_records
               = (Ok two_records_tables, with_io [DbFiles "p1"] two_records))
    by (vm_compute; reflexivity).
  destruct (teardown_success_condition quiet_world (put_config true false)
              two_records _ _ Hg Hl) as (_ & Hfail & Hsum).
  split; [exact Hg|]. split; [exact Hl|]. split.
  - apply (Hfail b_txt failed_upload_info); [|reflexivity].
    apply elem_of_cons. right. constructor.
  - erewrite Hsum; [reflexivity|]. vm_compute. reflexivity.
Defined.




(** ** The input list *)

Lemma deliver_loop_app (W : world) (C : config) (a b : list string)
    (af : list (pykey * option file_info))
    (fl : gmap (option Path) failed_entry) (s : state) :
  deliver_loop W C (a ++ b) af fl s =
  match deliver_loop W C a af fl s with
  | (Ok (af', fl'), s') => deliver_loop W C b af' fl' s'
  | (Raise e, s') => (Raise e, s')
  end.
Proof.
  revert af fl s. induction a as [|d a IH]; intros af fl s; [done|].
  simpl.
  destruct (dict_mem (KStr d) af || dict_mem (KPath (resolve W d)) af); [done|].
  destruct (String.eqb (method C) "get"); [apply IH|].
  destruct (String.eqb (method C) "put"); [|apply IH].
  destruct (negb (path_exists W d)); [done|].
  destruct (is_dir W (resolve W d)).
  - unfold bind. destruct (get_dir_info W C (resolve W d) s) as [[[di df]|e] s1];
      [apply IH|done].
  - unfold bind.
    destruct (get_file_info W C (resolve W d) false [] s) as [[[err|i]|e] s1];
      [apply IH|apply IH|done].
Qed.

Lemma data_to_deliver_loop (W : world) (C : config) (data : list string)
    (pathfile : option string) (s : state) :
  method C = "get" \/ method C = "put" ->
  _data_to_deliver W C data pathfile s
  = deliver_loop W C (input_list W data pathfile) [] ∅ s.
Proof.
  intros H. unfold _data_to_deliver. fold (input_list W data pathfile).
  by destruct H as [-> | ->].
Qed.

(** Reaching an input that is already a key of [all_files] raises, in the
    state that the inputs before it have left. *)
Lemma deliver_loop_repeated (W : world) (C : config) (pre post : list string)
    (d : string) (af : list (pykey * option file_info))
    (fl : gmap (option Path) failed_entry) (s s1 : state) :
  deliver_loop W C pre [] ∅ s = (Ok (af, fl), s1) ->
  KStr d ∈ af.*1 \/ KPath (resolve W d) ∈ af.*1 ->
  deliver_loop W C (pre ++ d :: post) [] ∅ s
  = (Raise (DeliveryOptionException (duplicate_msg d)), s1).
Proof.
  intros Hpre Hin. rewrite deliver_loop_app, Hpre. simpl. unfold dict_mem.
  destruct Hin as [Hin|Hin].
  - by rewrite (bool_decide_eq_true_2 _ Hin).
  - rewrite (bool_decide_eq_true_2 (KPath _ ∈ _) Hin). by rewrite orb_true_r.
Qed.

Lemma dict_set_fresh {K V} `{EqDecision K} (k : K) (v : V) (d : list (K * V)) :
  k ∉ d.*1 -> dict_set k v d = d ++ [(k, v)].
Proof.
  induction d as [|[k' v'] d IH]; intros Hk; [done|]. simpl in *.
  apply not_elem_of_cons in Hk as [Hne Hk].
  destruct (decide (k' = k)) as [->|_]; [done|]. by rewrite IH.
Qed.

Lemma get_entries_keys (visited : list string) (d : string) :
  KStr d ∈ (get_entry <$> visited).*1 <-> d ∈ visited.
Proof.
  rewrite <- list_fmap_compose. rewrite list_elem_of_fmap. split.
  - intros (x & [= ->] & Hx). done.
  - intros Hd. by exists d.
Qed.

Lemma get_entries_no_path (visited : list string) (p : Path) :
  KPath p ∉ (get_entry <$> visited).*1.
Proof.
  rewrite <- list_fmap_compose. rewrite list_elem_of_fmap.
  by intros (x & [=] & _).
Qed.

(** In the get direction the loop touches nothing: it returns one empty
    dictionary per input when no input is repeated, and raises otherwise. *)
Lemma deliver_loop_get (W : world) (C : config) (l visited : list string)
    (s : state) :
  method C = "get" ->
  (NoDup (visited ++ l) ->
   deliver_loop W C l (get_entry <$> visited) ∅ s
   = (Ok (get_entry <$> visited ++ l, ∅), s)) /\
  (NoDup visited -> ~ NoDup (visited ++ l) ->
   exists d, d ∈ visited ++ l /\
     deliver_loop W C l (get_entry <$> visited) ∅ s
     = (Raise (DeliveryOptionException (duplicate_msg d)), s)).
Proof.
  intros Hm. revert visited. induction l as [|d l IH]; intros visited.
  - rewrite app_nil_r. split; [done|]. intros H1 H2. done.
  - simpl. rewrite Hm. simpl. unfold dict_mem.
    rewrite (bool_decide_eq_false_2 (KPath _ ∈ _))
      by apply get_entries_no_path.
    rewrite orb_false_r.
    destruct (decide (d ∈ visited)) as [Hin|Hnin].
    + rewrite bool_decide_eq_true_2 by by apply get_entries_keys.
      split.
      * intros Hnd. apply NoDup_app in Hnd as (_ & Hnd & _).
        exfalso. apply (Hnd d Hin). constructor.
      * intros _ _. exists d. split; [|done].
        apply elem_of_app. by left.
    + rewrite bool_decide_eq_false_2 by by rewrite get_entries_keys.
      rewrite dict_set_fresh by by rewrite get_entries_keys.
      change ((get_entry <$> visited) ++ [(KStr d, None)])
        with ((get_entry <$> visited) ++ (get_entry <$> [d])).
      rewrite <- fmap_app.
      destruct (IH (visited ++ [d])) as [IH1 IH2].
      rewrite <- app_assoc in IH1, IH2. simpl in IH1, IH2.
      split; [exact IH1|].
      intros Hv Hnd. apply IH2; [|done].
      apply NoDup_app. split; [done|]. split; [|apply NoDup_singleton].
      intros x Hx Hx'. apply list_elem_of_singleton in Hx'. by subst.
Qed.

(** C7 (as stated): the same file twice in the put direction.  The error is
    raised, but the first occurrence has been classified before, with the
    look-ups in both stores. *)
Lemma duplicate_found_after_classification :
  _data_to_deliver quiet_world (put_config true false)
    ["/data/a.txt"; "/data/a.txt"] None empty_state
  = (Raise (DeliveryOptionException (duplicate_msg "/data/a.txt")),
     with_io [ReadHeader a_txt; DbFiles "p1"; S3Exists "a.txt.zst.ccp";
              Stat a_txt] empty_state).
Proof. vm_compute. reflexivity. Qed.

(** C7 (amended): in the get direction an input list that holds the same
    path more than once makes [_data_to_deliver] raise
    [DeliveryOptionException] with nothing touched.  In the put direction
    the exception is raised when the loop reaches an input whose resolved
    path is already a key of [all_files]: the inputs before it have been
    classified, the repeated one and those after it have not. *)
Theorem duplicate_input_raises (W : world) (C : config) (s : state)
    (data : list string) (pathfile : option string) :
  (method C = "get" ->
   ~ NoDup (input_list W data pathfile) ->
   exists d, d ∈ input_list W data pathfile /\
     _data_to_deliver W C data pathfile s
     = (Raise (DeliveryOptionException (duplicate_msg d)), s)) /\
  (method C = "put" ->
   forall (pre post : list string) (d : string)
          (af : list (pykey * option file_info))
          (fl : gmap (option Path) failed_entry) (s1 : state),
     input_list W data pathfile = pre ++ d :: post ->
     deliver_loop W C pre [] ∅ s = (Ok (af, fl), s1) ->
     KPath (resolve W d) ∈ af.*1 ->
     _data_to_deliver W C data pathfile s
     = (Raise (DeliveryOptionException (duplicate_msg d)), s1)).
Proof.
  split.
  - intros Hm Hnd. rewrite data_to_deliver_loop by by left.
    destruct (deliver_loop_get W C (input_list W data pathfile) [] s Hm)
      as [_ H].
    apply H; [constructor|done].
  - intros Hm pre post d af fl s1 Hl Hpre Hin.
    rewrite data_to_deliver_loop by by right.
    rewrite Hl. eapply deliver_loop_repeated; eauto.
Qed.

Lemma duplicate_input_raises_witness :
  method (put_config true false) = "put" /\
  input_list quiet_world ["/data/a.txt"; "/data/a.txt"] None
  = ["/data/a.txt"] ++ "/data/a.txt" :: [] /\
  _data_to_deliver quiet_world (put_config true false)
    ["/data/a.txt"; "/data/a.txt"] None empty_state
  = (Raise (DeliveryOptionException (duplicate_msg "/data/a.txt")),
     with_io [ReadHeader a_txt; DbFiles "p1"; S3Exists "a.txt.zst.ccp";
              Stat a_txt] empty_state).
Proof.
  split; [reflexivity|]. split; [reflexivity|].
  apply (proj2 (duplicate_input_raises quiet_world (put_config true false)
                  empty_state ["/data/a.txt"; "/data/a.txt"] None)
           eq_refl ["/data/a.txt"] [] "/data/a.txt"
           [(KPath a_txt, Some accepted_a_txt)] ∅).
  - reflexivity.
  - vm_compute. reflexivity.
  - apply list_elem_of_singleton. reflexivity.
Defined.

(** The same folder twice is not found by the check of the loop: the keys
    of [all_files] are the files of the folder, not the folder. *)
Example repeated_folder_is_classified_twice :
  exists r,
    _data_to_deliver folder_world (put_config true false)
      ["/data/D"; "/data/D"] None empty_state
    = (Ok r,
       with_io [ReadHeader (dir_D ++ ["a"]); DbFiles "p1";
                S3Exists "a.zst.ccp"; Stat (dir_D ++ ["a"]);
                ReadHeader (dir_D ++ ["a"]); DbFiles "p1";
                S3Exists "a.zst.ccp"; Stat (dir_D ++ ["a"])] empty_state).
Proof. eexists. vm_compute. reflexivity. Qed.

(** ** Download *)

Lemma fs_exists_sub (p : Path) (f g : list (Path * node)) :
  sub_tree f g -> fs_exists p f = true -> fs_exists p g = true.
Proof.
  unfold fs_exists. intros Hs H. apply bool_decide_eq_true in H.
  apply bool_decide_eq_true. destruct H as [H|[H|[H|H]]]; auto.
Qed.

Lemma settled_sub (W : world) (C : config) (b : gmap string string)
    (f g : list (Path * node)) (key : string) :
  sub_tree f g -> settled W C b f key -> settled W C b g key.
Proof.
  intros Hs [H1 H2]. split; [exact (fs_exists_sub _ f g Hs H1)|].
  destruct H2 as [H2|H2]; [left; exact (fs_exists_sub _ f g Hs H2)|by right].
Qed.

Lemma ancestors_self (p : Path) : p <> [] -> p ∈ ancestors p.
Proof.
  induction p as [|x p IH]; [done|]. intros _. simpl.
  destruct p as [|y p]; [constructor|].
  right. apply list_elem_of_fmap. exists (y :: p). split; [done|]. by apply IH.
Qed.

Lemma dict_set_keys {K V} `{EqDecision K} (k : K) (v : V) (d : list (K * V))
    (x : K) :
  x ∈ (dict_set k v d).*1 <-> x = k \/ x ∈ d.*1.
Proof.
  induction d as [|[k' v'] d IH]; simpl.
  - rewrite list_elem_of_singleton. split; [tauto|].
    intros [E|E]; [done|]. by apply elem_of_nil in E.
  - destruct (decide (k' = k)) as [->|Hne]; simpl.
    + rewrite !elem_of_cons. tauto.
    + rewrite !elem_of_cons, IH. tauto.
Qed.

Lemma sub_tree_refl (f : list (Path * node)) : sub_tree f f.
Proof. by intros p. Qed.

Lemma sub_tree_trans (f g h : list (Path * node)) :
  sub_tree f g -> sub_tree g h -> sub_tree f h.
Proof. intros H1 H2 p Hp. by apply H2, H1. Qed.

(** [make_parent] either leaves the loop with the tree as it was, or
    continues with the folder in the tree. *)
Lemma make_parent_cases (W : world) (p : Path) (s : state) :
  (fs_exists (Path_parent p) (fs s) = true /\ make_parent W p s = (Ok tt, s)) \/
  (fs_exists (Path_parent p) (fs s) = false /\
   is_Some (mkdir_fault W (Path_parent p)) /\
   exists e s', make_parent W p s = (Raise e, s') /\ fs s' = fs s /\
                bucket s' = bucket s /\ gdata s' = gdata s) \/
  (fs_exists (Path_parent p) (fs s) = false /\
   exists s', make_parent W p s = (Ok tt, s') /\
              sub_tree (fs s) (fs s') /\
              fs_exists (Path_parent p) (fs s') = true /\
              bucket s' = bucket s /\ gdata s' = gdata s).
Proof.
  unfold make_parent, mkdir. run.
  destruct (fs_exists (Path_parent p) (fs s)) eqn:Hpar; simpl; [by left|].
  right. destruct (mkdir_fault W (Path_parent p)) as [e0|] eqn:Hmk; simpl.
  - left. split; [done|]. split; [eauto|].
    destruct (is_OSError e0); simpl; eauto 10.
  - right. split; [done|]. eexists. split; [reflexivity|]. simpl.
    split; [|split; [|done]].
    + intros q Hq. rewrite fmap_app. apply elem_of_app. by left.
    + apply bool_decide_eq_true. right. right. right.
      rewrite fmap_app. apply elem_of_app. right.
      rewrite <- list_fmap_compose. apply list_elem_of_fmap.
      exists (Path_parent p). split; [done|].
      apply list_elem_of_filter.
      unfold fs_exists in Hpar. apply bool_decide_eq_false in Hpar.
      split; [tauto|]. apply ancestors_self. tauto.
Qed.

(** [fetch] either skips an existing file with a message, or leaves the
    loop with the tree as it was, or continues with the file in the tree or
    with a download that failed. *)
Lemma fetch_cases (W : world) (path key : string) (p : Path) (s : state) :
  is_Some (gdata s !! path) ->
  (fs_exists p (fs s) = true /\
   fetch W path key p s
   = (Ok tt, with_log (log s ++ [(STDOUT, "File " +:+ Path_str p
                                     +:+ " already exists. Not downloading.")]) s)) \/
  (fs_exists p (fs s) = false /\
   ((exists e s', download_fault W key = Some e /\ is_Exception e = false /\
                  fetch W path key p s = (Raise e, s') /\ fs s' = fs s /\
                  bucket s' = bucket s /\ gdata s' = gdata s) \/
    (exists s', ((exists e, download_fault W key = Some e /\ is_Exception e = true) \/
                 (download_fault W key = None /\ bucket s !! key = None)) /\
                fetch W path key p s = (Ok tt, s') /\ fs s' = fs s /\
                bucket s' = bucket s /\ is_Some (gdata s' !! path)) \/
    (exists c s', download_fault W key = None /\ bucket s !! key = Some c /\
                  fetch W path key p s = (Ok tt, s') /\
                  fs s' = dict_set p (File c) (fs s) /\
                  bucket s' = bucket s /\ is_Some (gdata s' !! path)))).
Proof.
  intros [m Hm]. unfold fetch, download_file, gdata_set. run.
  destruct (fs_exists p (fs s)) eqn:Hnp; simpl; [by left|].
  right. split; [done|].
  destruct (download_fault W key) as [e|] eqn:Hdl; simpl.
  - destruct (is_Exception e) eqn:He; simpl.
    + right. left. rewrite Hm. simpl. eexists. split; [eauto|].
      split; [reflexivity|]. simpl. rewrite lookup_insert_eq. eauto.
    + left. exists e. eexists. repeat split; eauto.
  - destruct (bucket s !! key) as [c|] eqn:Hb; simpl.
    + right. right. rewrite Hm. simpl. exists c. eexists.
      split; [done|]. split; [done|]. split; [reflexivity|]. simpl.
      rewrite lookup_insert_eq. eauto.
    + right. left. rewrite Hm. simpl. eexists. split; [eauto|].
      split; [reflexivity|]. simpl. rewrite lookup_insert_eq. eauto.
Qed.

Lemma fetch_general (W : world) (C : config) (path key : string) (s : state) :
  is_Some (gdata s !! path) ->
  fs_exists (Path_parent (local_path C key)) (fs s) = true ->
  exists r s',
    fetch W path key (local_path C key) s = (r, s') /\
    sub_tree (fs s) (fs s') /\ bucket s' = bucket s /\
    is_Some (gdata s' !! path) /\
    match r with
    | Ok _ => settled W C (bucket s') (fs s') key
    | Raise _ => aborting W C (fs s') key
    end.
Proof.
  intros Hg Hpar.
  destruct (fetch_cases W path key (local_path C key) s Hg)
    as [[Hnp Hf]|[Hnp [(e & s2 & Hdl & He & Hf & Hfs & Hb2 & Hgd2)
                      |[(s2 & Hwhy & Hf & Hfs & Hb2 & Hg2)
                       |(c & s2 & Hdl & Hbk & Hf & Hfs & Hb2 & Hg2)]]]];
    rewrite Hf.
  - eexists _, _. split; [reflexivity|]. simpl.
    split; [apply sub_tree_refl|]. split; [done|]. split; [done|].
    split; [done|]. by left.
  - exists (Raise e), s2. split; [done|]. rewrite Hfs, Hb2, Hgd2.
    split; [apply sub_tree_refl|]. split; [done|]. split; [done|].
    right. eauto.
  - exists (Ok tt), s2. split; [done|]. rewrite Hfs, Hb2.
    split; [apply sub_tree_refl|]. split; [done|]. split; [done|].
    split; [done|]. right. exact Hwhy.
  - exists (Ok tt), s2. split; [done|]. rewrite Hfs, Hb2.
    assert (Hsub : sub_tree (fs s) (dict_set (local_path C key) (File c) (fs s))).
    { intros p Hp. apply dict_set_keys. by right. }
    split; [done|]. split; [done|]. split; [done|]. split.
    + by apply (fs_exists_sub _ (fs s)).
    + left. apply bool_decide_eq_true. right. right. right.
      apply dict_set_keys. by left.
Qed.

Lemma get_one_general (W : world) (C : config) (path key : string) (s : state) :
  is_Some (gdata s !! path) ->
  exists r s',
    get_one W C path key s = (r, s') /\
    sub_tree (fs s) (fs s') /\ bucket s' = bucket s /\
    is_Some (gdata s' !! path) /\
    match r with
    | Ok _ => settled W C (bucket s') (fs s') key
    | Raise _ => aborting W C (fs s') key
    end.
Proof.
  intros Hg. unfold get_one. fold (local_path C key). unfold bind.
  destruct (make_parent_cases W (local_path C key) s)
    as [[Hpar Hmp]|[(Hpar & Hmk & e & s1 & Hmp & Hfs & Hb & Hgd)
                   |(Hpar & s1 & Hmp & Hsub & Hpar1 & Hb & Hgd)]];
    rewrite Hmp.
  - by apply fetch_general.
  - exists (Raise e), s1. rewrite Hfs, Hb, Hgd.
    split; [done|]. split; [apply sub_tree_refl|]. split; [done|].
    split; [done|]. left. done.
  - destruct (fetch_general W C path key s1) as (r & s2 & Hf & Hs2 & Hb2 & Hg2 & Hr);
      [by rewrite Hgd|done|].
    exists r, s2. split; [done|].
    split; [by eapply sub_tree_trans|]. split; [congruence|]. done.
Qed.

Lemma get_one_settled (W : world) (C : config) (path key : string) (s : state) :
  is_Some (gdata s !! path) ->
  settled W C (bucket s) (fs s) key ->
  exists s',
    get_one W C path key s = (Ok tt, s') /\
    fs s' = fs s /\ bucket s' = bucket s /\ is_Some (gdata s' !! path).
Proof.
  intros Hg [Hpar Hset]. unfold get_one. fold (local_path C key). unfold bind.
  destruct (make_parent_cases W (local_path C key) s)
    as [[_ Hmp]|[(Hpar' & _)|(Hpar' & _)]]; [|congruence..].
  rewrite Hmp.
  destruct (fetch_cases W path key (local_path C key) s Hg)
    as [[Hnp Hf]|[Hnp [(e & s2 & Hdl & He & Hf & Hfs & Hb2 & Hgd2)
                      |[(s2 & Hwhy & Hf & Hfs & Hb2 & Hg2)
                       |(c & s2 & Hdl & Hbk & Hf & Hfs & Hb2 & Hg2)]]]];
    rewrite Hf.
  - eexists. split; [reflexivity|]. done.
  - exfalso. destruct Hset as [?|[(e' & ? & ?)|[? ?]]]; congruence.
  - exists s2. done.
  - exfalso. destruct Hset as [?|[(e' & ? & ?)|[? ?]]]; congruence.
Qed.

Lemma get_one_aborting (W : world) (C : config) (path key : string) (s : state) :
  is_Some (gdata s !! path) ->
  aborting W C (fs s) key ->
  exists e s',
    get_one W C path key s = (Raise e, s') /\ fs s' = fs s.
Proof.
  intros Hg Hab. unfold get_one. fold (local_path C key). unfold bind.
  destruct (make_parent_cases W (local_path C key) s)
    as [[Hpar Hmp]|[(Hpar & Hmk & e & s1 & Hmp & Hfs & Hb & Hgd)
                   |(Hpar & s1 & Hmp & Hsub & Hpar1 & Hb & Hgd)]];
    rewrite Hmp.
  - destruct Hab as [[? _]|(_ & Hnp' & e & Hdl' & He')]; [congruence|].
    destruct (fetch_cases W path key (local_path C key) s Hg)
      as [[Hnp Hf]|[Hnp [(e2 & s2 & Hdl & He & Hf & Hfs & Hb2 & Hgd2)
                        |[(s2 & Hwhy & Hf & Hfs & Hb2 & Hg2)
                         |(c & s2 & Hdl & Hbk & Hf & Hfs & Hb2 & Hg2)]]]];
      rewrite Hf.
    + congruence.
    + eauto.
    + exfalso. destruct Hwhy as [(e2 & ? & ?)|[? ?]]; congruence.
    + congruence.
  - eauto.
  - exfalso. destruct Hab as [[_ [e Hmk]]|(? & _)]; [|congruence].
    (* the folder could be made, so [mkdir] has no fault *)
    unfold make_parent, mkdir in Hmp. run. rewrite Hpar in Hmp. simpl in Hmp.
    rewrite Hmk in Hmp. simpl in Hmp. by destruct (is_OSError e).
Qed.

(** The first run of the loop: the tree grows, and either every key is
    settled at the end or the loop was left at an aborting key after settled
    ones. *)
Lemma get_loop_first (W : world) (C : config) (path : string)
    (ks : list string) (s : state) :
  is_Some (gdata s !! path) ->
  exists r s',
    get_loop W C path ks s = (r, s') /\
    sub_tree (fs s) (fs s') /\ bucket s' = bucket s /\
    is_Some (gdata s' !! path) /\
    match r with
    | Ok _ => Forall (settled W C (bucket s') (fs s')) ks
    | Raise _ =>
        exists pre k post,
          ks = pre ++ k :: post /\
          Forall (settled W C (bucket s') (fs s')) pre /\
          aborting W C (fs s') k
    end.
Proof.
  revert s. induction ks as [|k ks IH]; intros s Hg; simpl.
  - exists (Ok tt), s. repeat split; auto using sub_tree_refl.
  - unfold bind.
    destruct (get_one_general W C path k s Hg)
      as (r1 & s1 & H1 & Hsub1 & Hb1 & Hg1 & Hr1).
    rewrite H1. destruct r1 as [[]|e].
    + destruct (IH s1 Hg1) as (r & s' & H2 & Hsub2 & Hb2 & Hg2 & Hr).
      exists r, s'. split; [done|].
      split; [by eapply sub_tree_trans|]. split; [congruence|].
      split; [done|].
      assert (Hk : settled W C (bucket s') (fs s') k).
      { rewrite Hb2. by apply (settled_sub _ _ _ (fs s1)). }
      destruct r as [[]|e].
      * by constructor.
      * destruct Hr as (pre & k' & post & -> & Hpre & Hab).
        exists (k :: pre), k', post. split; [done|]. split; [|done].
        by constructor.
    + exists (Raise e), s1. split; [done|]. split; [done|]. split; [done|].
      split; [done|]. exists [], k, ks. split; [done|]. split; [constructor|done].
Qed.

(** A run of the loop over settled keys, up to the end or up to an aborting
    key, does not change the tree. *)
Lemma get_loop_again (W : world) (C : config) (path : string)
    (ks : list string) (s : state) :
  is_Some (gdata s !! path) ->
  (Forall (settled W C (bucket s) (fs s)) ks ->
   exists s', get_loop W C path ks s = (Ok tt, s') /\ fs s' = fs s) /\
  (forall pre k post,
     ks = pre ++ k :: post ->
     Forall (settled W C (bucket s) (fs s)) pre ->
     aborting W C (fs s) k ->
     exists e s', get_loop W C path ks s = (Raise e, s') /\ fs s' = fs s).
Proof.
  revert s. induction ks as [|k ks IH]; intros s Hg; simpl.
  - split; [by exists s|]. intros [|??] ?? [=].
  - unfold bind. split.
    + intros Hall. apply Forall_cons in Hall as [Hk Hall].
      destruct (get_one_settled W C path k s Hg Hk) as (s1 & H1 & Hfs & Hb & Hg1).
      rewrite H1. destruct (IH s1 Hg1) as [IH1 _].
      destruct IH1 as (s' & H2 & Hfs'); [by rewrite Hfs, Hb|].
      exists s'. split; [done|]. congruence.
    + intros pre k' post Hks Hpre Hab. destruct pre as [|k0 pre]; simpl in Hks.
      * injection Hks as <- <-.
        destruct (get_one_aborting W C path k s Hg Hab) as (e & s1 & H1 & Hfs).
        rewrite H1. eauto.
      * injection Hks as <- ->. apply Forall_cons in Hpre as [Hk Hpre].
        destruct (get_one_settled W C path k s Hg Hk) as (s1 & H1 & Hfs & Hb & Hg1).
        rewrite H1. destruct (IH s1 Hg1) as [_ IH2].
        destruct (IH2 pre k' post eq_refl) as (e & s' & H2 & Hfs');
          [by rewrite Hfs, Hb|by rewrite Hfs|].
        exists e, s'. split; [done|]. congruence.
Qed.

Lemma get_loop_twice (W : world) (C : config) (path : string)
    (ks : list string) (s : state) :
  is_Some (gdata s !! path) ->
  fs (get_loop W C path ks (get_loop W C path ks s).2).2
  = fs (get_loop W C path ks s).2.
Proof.
  intros Hg.
  destruct (get_loop_first W C path ks s Hg)
    as (r & s1 & H1 & _ & _ & Hg1 & Hr).
  rewrite H1. simpl.
  destruct (get_loop_again W C path ks s1 Hg1) as [Hok Hab].
  destruct r as [[]|e].
  - destruct (Hok Hr) as (s2 & H2 & Hfs). by rewrite H2.
  - destruct Hr as (pre & k & post & Hks & Hpre & Hk).
    destruct (Hab pre k post Hks Hpre Hk) as (e' & s2 & H2 & Hfs).
    by rewrite H2.
Qed.

Lemma get_one_bucket_exists (W : world) (C : config) (path key : string)
    (s : state) :
  bucket_exists (get_one W C path key s).2 = bucket_exists s.
Proof.
  unfold get_one, make_parent, fetch, mkdir, download_file, gdata_set. run.
  repeat (case_match; run; simplify_eq; try done).
Qed.

Lemma get_loop_bucket_exists (W : world) (C : config) (path : string)
    (ks : list string) (s : state) :
  bucket_exists (get_loop W C path ks s).2 = bucket_exists s.
Proof.
  revert s. induction ks as [|k ks IH]; intros s; [done|]. simpl. unfold bind.
  pose proof (get_one_bucket_exists W C path k s) as H.
  destruct (get_one W C path k s) as [[[]|e] s1]; simpl in *; [|done].
  by rewrite IH.
Qed.

(** The statements of [get] after [self.s3], were they reached with a
    connector: a key whose local file exists is not downloaded, a message is
    printed and nothing else changes, so the file keeps its contents; running
    them twice for one of the session's paths leaves the temporary tree as
    one run leaves it (the bucket and the failures of the collaborators
    being the same in both runs). *)
Lemma get_body_twice_is_once (W : world) (C : config) (path : string)
    (s : state) :
  is_Some (gdata s !! path) ->
  (forall key,
     fs_exists (Path_parent (local_path C key)) (fs s) = true ->
     fs_exists (local_path C key) (fs s) = true ->
     get_one W C path key s
     = (Ok tt,
        with_log (log s ++ [(STDOUT, "File " +:+ Path_str (local_path C key)
                                     +:+ " already exists. Not downloading.")])
          s)) /\
  fs (get_body W C path (get_body W C path s).2).2 = fs (get_body W C path s).2.
Proof.
  intros Hg. split.
  - intros key Hpar Hnp. unfold get_one. fold (local_path C key). unfold bind.
    destruct (make_parent_cases W (local_path C key) s)
      as [[_ Hmp]|[(Hpar' & _)|(Hpar' & _)]]; [|congruence..].
    rewrite Hmp.
    destruct (fetch_cases W path key (local_path C key) s Hg)
      as [[_ Hf]|[Hnp' _]]; [|congruence].
    by rewrite Hf.
  - destruct (bucket_exists s) eqn:Hbe.
    2:{ unfold get_body. run. rewrite Hbe. simpl. by rewrite Hbe. }
    set (s0 := with_io (io s ++ [S3List path]) s).
    destruct (get_loop_first W C path (listed path (bucket s)) s0 Hg)
      as (r & s1 & H1 & _ & Hb1 & Hg1 & Hr).
    pose proof (get_loop_bucket_exists W C path (listed path (bucket s)) s0) as Hbe1.
    rewrite H1 in Hbe1. simpl in Hbe1.
    assert (Hrun : (get_body W C path s).2 = s1).
    { unfold get_body, files_in_bucket. run. rewrite Hbe. simpl.
      fold (listed path (bucket s)). fold s0. rewrite H1.
      by destruct r as [[]|e]. }
    rewrite Hrun.
    unfold get_body, files_in_bucket. run. rewrite Hbe1, Hbe. simpl.
    fold (listed path (bucket s1)). rewrite Hb1.
    change (bucket s0) with (bucket s).
    set (s2 := with_io (io s1 ++ [S3List path]) s1).
    destruct (get_loop_again W C path (listed path (bucket s)) s2 Hg1)
      as [Hok Hab].
    destruct r as [[]|e].
    + destruct (Hok Hr) as (s3 & H3 & Hfs). by rewrite H3.
    + destruct Hr as (pre & k & post & Hks & Hpre & Hk).
      destruct (Hab pre k post Hks Hpre Hk) as (e' & s3 & H3 & Hfs).
      by rewrite H3.
Qed.

(** The statements after [self.s3] on [download_state]: the existing file
    would keep its contents, the other object would be downloaded. *)
Example get_body_keeps_existing_file :
  (get_body quiet_world get_config "dir/" download_state).1 = Ok (true, "dir/") /\
  fs (get_body quiet_world get_config "dir/" download_state).2
  = [(["/"; "tmp"], Dir);
     (["/"; "tmp"; "dir"], Dir);
     (["/"; "tmp"; "dir"; "a.txt.zst.ccp"], File "old a");
     (["/"; "tmp"; "dir"; "b.txt.zst.ccp"], File "new b")] /\
  (STDOUT, "File /tmp/dir/a.txt.zst.ccp already exists. Not downloading.")
  ∈ log (get_body quiet_world get_config "dir/" download_state).2.
Proof.
  split; [vm_compute; reflexivity|]. split; [vm_compute; reflexivity|].
  vm_compute. apply list_elem_of_In. simpl. auto.
Qed.

(** [get] never comes to these statements: whatever the session and the path
    are, it raises at [self.s3] and nothing has been listed, printed or
    downloaded. *)
Lemma get_reads_self_s3 (W : world) (C : config) (path : string) (s : state) :
  get W C path s
  = (Raise (AttributeError "'DataDeliverer' object has no attribute 's3'"), s).
Proof. unfold get, self_s3. run. reflexivity. Qed.

(** C9 (the code at the failing input): a session that downloads what is
    below [dir/], with the local file of one of the two objects already in
    the temporary directory.  [get] does not skip that file with a message:
    it raises [AttributeError] at its first statement, because [self.s3] is
    assigned nowhere; nothing is printed and the log and the trace are
    empty. *)
Theorem get_raises_AttributeError :
  fs_exists (local_path get_config "dir/a.txt.zst.ccp") (fs download_state)
  = true /\
  get quiet_world get_config "dir/" download_state
  = (Raise (AttributeError "'DataDeliverer' object has no attribute 's3'"),
     download_state) /\
  log download_state = [] /\ io download_state = [].
Proof.
  split; [vm_compute; reflexivity|].
  split; [|split; reflexivity].
  unfold get, self_s3. run. reflexivity.
Qed.

(** * Further properties of the session's methods *)

(** ** [update_delivery] beyond the cascade *)

(** X1: the failure of a file that was given on its own (not as part of a
    directory) cancels that record only, whatever [break_on_fail] is: the
    record gets ['proceed': False] and the error text as it is, the file is
    recorded in [self.failed] with that text, and no other record changes. *)
Theorem single_file_failure (C : config) (s : state) (file : Path)
    (u : updinfo) (err : string) (info : file_info) :
  u_proceed u = Some false ->
  u_error u = Some err ->
  data_lookup file (data s) = Some info ->
  in_directory info = false ->
  exists s',
    update_delivery C file u s = (Ok tt, s') /\
    data_lookup file (data s') = Some (cancelled err info) /\
    failed s' = <[Some file := error_entry err]> (failed s) /\
    (forall (k : nat) (p : Path) (i : file_info),
       data s !! k = Some (p, i) -> p <> file -> data s' !! k = Some (p, i)) /\
    bucket s' = bucket s /\ project_db s' = project_db s /\ log s' = log s.
Proof.
  intros Hp He Hl Hd. unfold update_delivery, data_getitem. run.
  rewrite Hp. simpl. rewrite Hl. simpl. rewrite Hd, He. simpl.
  eexists. split; [reflexivity|]. simpl.
  rewrite data_alter_lookup, Hl. repeat split; try done.
  intros k p i Hk Hne. by apply data_alter_other.
Qed.

Lemma single_file_failure_witness :
  exists s',
    update_delivery (put_config true false) a_txt (failure_of "boom")
      processed_state = (Ok tt, s') /\
    data_lookup a_txt (data s') = Some (cancelled "boom" processed_info) /\
    failed s' = <[Some a_txt := error_entry "boom"]> (failed processed_state).
Proof.
  destruct (single_file_failure (put_config true false) processed_state a_txt
              (failure_of "boom") "boom" processed_info)
    as (s' & H1 & H2 & H3 & _); try reflexivity.
  exists s'. auto.
Defined.

(** X2: with [break_on_fail], the failure of a directory file whose own
    upload is already in progress or finished leaves that record as it was
    (it keeps ['proceed'] and gets no error text), although the files of the
    directory whose upload has not started are cancelled. *)
Theorem failing_file_in_upload_is_not_cancelled (C : config) (s : state)
    (file : Path) (u : updinfo) (err : string) (info : file_info) :
  u_proceed u = Some false ->
  u_error u = Some err ->
  data_lookup file (data s) = Some info ->
  in_directory info = true ->
  break_on_fail C = true ->
  in_progress (upload info) = true \/ finished (upload info) = true ->
  exists s',
    update_delivery C file u s = (Ok tt, s') /\
    data_lookup file (data s') = Some info /\
    forall (k : nat) (p : Path) (i : file_info),
      data s !! k = Some (p, i) ->
      dir_name i = dir_name info ->
      in_progress (upload i) = false -> finished (upload i) = false ->
      data s' !! k = Some (p, cancelled (failed_file_msg file err) i).
Proof.
  intros Hp He Hl Hd Hb Hup.
  destruct (update_delivery_failure C s file u err info Hp He Hl Hd)
    as (s' & Hs' & Hdata).
  rewrite Hb in Hdata. exists s'. split; [exact Hs'|]. rewrite Hdata. split.
  - rewrite data_lookup_cascade, Hl. simpl. unfold cascade, cancellable. simpl.
    destruct Hup as [-> | ->]; simpl;
      rewrite ?andb_false_r; reflexivity.
  - intros k p i Hk Hdn H1 H2. rewrite list_lookup_fmap, Hk. simpl.
    unfold cascade, cancellable. simpl.
    rewrite H1, H2, bool_decide_eq_true_2 by exact Hdn. reflexivity.
Qed.

Lemma failing_file_in_upload_is_not_cancelled_witness :
  exists s',
    update_delivery (put_config true false) (dir_D ++ ["b"]) (failure_of "boom")
      one_uploading = (Ok tt, s') /\
    data_lookup (dir_D ++ ["b"]) (data s') = Some (uploading_info "b") /\
    data s' !! 0%nat
    = Some (dir_D ++ ["a"],
            cancelled (failed_file_msg (dir_D ++ ["b"]) "boom") (in_dir_info "a")).
Proof.
  destruct (failing_file_in_upload_is_not_cancelled (put_config true false)
              one_uploading (dir_D ++ ["b"]) (failure_of "boom") "boom"
              (uploading_info "b"))
    as (s' & H1 & H2 & H3); try reflexivity.
  - left. reflexivity.
  - exists s'. split; [exact H1|]. split; [exact H2|].
    apply (H3 0%nat (dir_D ++ ["a"]) (in_dir_info "a")); reflexivity.
Defined.

(** X3: an update without the key ['proceed'] is a [KeyError], and so is an
    update for a file that is not in the delivery dictionary; in both cases
    nothing has been changed when the error is raised. *)
Theorem update_delivery_missing_key (C : config) (s : state) (file : Path)
    (u : updinfo) :
  (u_proceed u = None ->
   update_delivery C file u s = (Raise (KeyError "proceed"), s)) /\
  (is_Some (u_proceed u) -> data_lookup file (data s) = None ->
   update_delivery C file u s = (Raise (KeyError (Path_str file)), s)).
Proof.
  split.
  - intros Hp. unfold update_delivery. run. by rewrite Hp.
  - intros [b Hp] Hl. unfold update_delivery, data_getitem. run.
    rewrite Hp. simpl. destruct b; simpl; rewrite Hl; reflexivity.
Qed.

Lemma update_delivery_missing_key_witness :
  update_delivery (put_config true false) b_txt (failure_of "boom")
    processed_state
  = (Raise (KeyError "/data/b.txt"), processed_state).
Proof.
  apply (proj2 (update_delivery_missing_key (put_config true false)
                  processed_state b_txt (failure_of "boom"))).
  - eexists. reflexivity.
  - reflexivity.
Defined.

(** ** [set_progress]: an invariant and the calls that select nothing *)

Lemma data_alter_inv (f : file_info -> file_info) (file : Path)
    (d : list (Path * file_info)) (n : nat) (p : Path) (i' : file_info) :
  data_alter f file d !! n = Some (p, i') ->
  exists i, d !! n = Some (p, i) /\ (i' = i \/ (p = file /\ i' = f i)).
Proof.
  revert n. induction d as [|[q j] r IH]; intros n; simpl; [done|].
  case_bool_decide as Hq.
  - destruct n; simpl; intros H; [|eauto].
    injection H as <- <-. eauto.
  - destruct n; simpl; intros H; [|eauto].
    injection H as <- <-. eauto.
Qed.

(** X4: [set_progress] keeps the flags of a stage exclusive: if no stage of
    any record is marked both in progress and finished before a call, none
    is afterwards, whatever the arguments of the call are. *)
Theorem set_progress_keeps_one_flag (s : state) (item : Path)
    (check processing upload db started fin : bool) :
  (forall (n : nat) (p : Path) (i : file_info) (k : string) (st : stage),
     data s !! n = Some (p, i) -> stage_get k i = Some st ->
     one_flag st = true) ->
  forall (n : nat) (p : Path) (i : file_info) (k : string) (st : stage),
    data (set_progress item check processing upload db started fin s).2 !! n
    = Some (p, i) ->
    stage_get k i = Some st -> one_flag st = true.
Proof.
  intros Hinv n p i k st.
  assert (Hupd : forall x : stage, one_flag x = true ->
            data_alter (stage_set (to_update_of processing upload db) x)
              item (data s) !! n = Some (p, i) ->
            stage_get k i = Some st -> one_flag st = true).
  { intros x Hx Hn Hk.
    destruct (data_alter_inv _ _ _ _ _ _ Hn) as (j & Hj & [-> | [_ ->]]).
    - eapply Hinv; eauto.
    - rewrite stage_get_set in Hk.
      destruct (String.eqb k (to_update_of processing upload db)).
      + destruct (stage_get k j); simpl in Hk; [|done]. by injection Hk as <-.
      + eapply Hinv; eauto. }
  unfold set_progress, data_getitem. run.
  destruct started; [|destruct fin];
    try (destruct (data_lookup item (data s)) as [info|]; simpl;
         [destruct (stage_get (to_update_of processing upload db) info);
          simpl|]);
    try (by apply Hinv); by apply Hupd.
Qed.

Lemma set_progress_keeps_one_flag_witness :
  exists i st,
    data (set_progress a_txt false false true false false true
            processed_state).2 !! 0%nat = Some (a_txt, i) /\
    stage_get "upload" i = Some st /\ one_flag st = true.
Proof.
  eexists _, _. split; [reflexivity|]. split; [reflexivity|].
  apply (set_progress_keeps_one_flag processed_state a_txt
           false false true false false true)
    with (n := 0%nat) (p := a_txt)
         (i := stage_set "upload" {| in_progress := false; finished := true |}
                 processed_info)
         (k := "upload"); [|reflexivity|reflexivity].
  intros n p i k st Hn Hk.
  destruct n as [|n]; [|destruct n; discriminate Hn].
  injection Hn as <- <-. unfold stage_get in Hk.
  repeat (destruct (String.eqb k _); [by injection Hk as <-|]).
  discriminate Hk.
Defined.

(** X5: the calls of [set_progress] that select nothing.  Without [started]
    and [finished] the call does nothing at all, not even for an unknown
    item; otherwise an unknown item is a [KeyError], and so is a call that
    names none of the three stages ([check] names none); the dictionary is
    unchanged when the error is raised. *)
Theorem set_progress_selects_nothing (s : state) (item : Path)
    (check processing upload db started fin : bool) :
  (started = false -> fin = false ->
   set_progress item check processing upload db started fin s = (Ok tt, s)) /\
  (started || fin = true -> data_lookup item (data s) = None ->
   set_progress item check processing upload db started fin s
   = (Raise (KeyError (Path_str item)), s)) /\
  (started || fin = true -> is_Some (data_lookup item (data s)) ->
   processing = false -> upload = false -> db = false ->
   set_progress item check processing upload db started fin s
   = (Raise (KeyError ""), s)).
Proof.
  split; [|split].
  - intros -> ->. reflexivity.
  - intros Hsf Hl. unfold set_progress, data_getitem. run.
    destruct started; [|destruct fin; [|done]]; rewrite Hl; reflexivity.
  - intros Hsf [info Hl] -> -> ->. unfold set_progress, data_getitem. run.
    destruct started; [|destruct fin; [|done]]; rewrite Hl; reflexivity.
Qed.

Lemma set_progress_selects_nothing_witness :
  set_progress a_txt true false false false true false processed_state
  = (Raise (KeyError ""), processed_state).
Proof.
  apply (proj2 (proj2 (set_progress_selects_nothing processed_state a_txt
                         true false false false true false)));
    try reflexivity.
  eexists. reflexivity.
Defined.

(** ** The checks read, they do not write *)

Lemma same_stores_refl (s : state) : same_stores s s.
Proof. by repeat split. Qed.

Lemma same_stores_trans (s1 s2 s3 : state) :
  same_stores s1 s2 -> same_stores s2 s3 -> same_stores s1 s3.
Proof.
  unfold same_stores. intros (?&?&?&?&?&?&?) (?&?&?&?&?&?&?).
  repeat split; congruence.
Qed.

Lemma get_file_info_same_stores (W : world) (C : config) (file : Path)
    (in_dir : bool) (dn : Path) (s : state) :
  same_stores s (get_file_info W C file in_dir dn s).2.
Proof.
  unfold get_file_info, get_file_info_bucket, project_files,
    file_exists_in_bucket. run.
  destruct (is_compressed W file) as [c e].
  repeat (case_match; run; simplify_eq; try apply same_stores_refl);
    by repeat split.
Qed.

(** X6: the two checks of a file only read: whatever they return or raise,
    the delivery dictionary, the failed dictionary, both stores and the
    temporary tree are as before; they add to the log and to the trace
    only. *)
Theorem checks_do_not_write (W : world) (C : config) (file : Path)
    (in_dir : bool) (dn dp : Path) (sfx : list string) (s : state) :
  same_stores s (get_file_info W C file in_dir dn s).2 /\
  same_stores s (do_file_checks W C file dp sfx s).2.
Proof.
  split; [apply get_file_info_same_stores|].
  unfold do_file_checks, project_files, file_exists_in_bucket. run.
  destruct (is_compressed W file) as [c e].
  repeat (case_match; run; simplify_eq; try apply same_stores_refl);
    by repeat split.
Qed.

(** X7: [get_file_info] rejects before it asks further.  A file whose
    header cannot be read is rejected with that error text and neither store
    is consulted; a file whose key is registered in the project is, without
    [overwrite], rejected after the metadata store has been read and before
    the object store is asked. *)
Theorem get_file_info_rejects_early (W : world) (C : config) (file : Path)
    (in_dir : bool) (dn : Path) (s : state) (c : bool) (err : string)
    (files : gmap string string) :
  is_compressed W file = (c, err) ->
  (err <> "" ->
   get_file_info W C file in_dir dn s
   = (Ok (Failed err), with_io (io s ++ [ReadHeader file]) s)) /\
  (err = "" ->
   db_fault W (project_id C) = None ->
   project_db s !! project_id C = Some files ->
   let path_base := if in_dir then Some (Path_name dn) else None in
   is_Some (files !! target_key (get_root_path W file path_base) file c) ->
   overwrite C = false ->
   exists s',
     get_file_info W C file in_dir dn s
     = (Ok (Failed ("File '" +:+ Path_str file
                    +:+ "' already exists in the database. ")), s') /\
     io s' = io s ++ [ReadHeader file; DbFiles (project_id C)]).
Proof.
  intros Hc. split.
  - intros Hne. unfold get_file_info. run. rewrite Hc.
    destruct (String.eqb_spec err ""); [done|]. reflexivity.
  - intros -> Hdb Hfiles pb Hin Hov.
    unfold target_key in Hin. subst pb.
    unfold get_file_info, project_files. run. rewrite Hc. simpl.
    destruct c; [|destruct (magic_suffix W (Path_suffixes W file))]; simpl;
      rewrite Hdb; simpl; rewrite Hfiles; simpl;
      rewrite (bool_decide_eq_true_2 _ Hin), Hov; simpl;
      (eexists; split; [reflexivity|]); simpl;
      by rewrite <- app_assoc.
Qed.

Lemma get_file_info_rejects_early_witness :
  get_file_info unreadable_world (put_config true true) a_txt false []
    registered_state
  = (Ok (Failed "Permission denied"),
     with_io [ReadHeader a_txt] registered_state).
Proof.
  apply (proj1 (get_file_info_rejects_early unreadable_world
                  (put_config true true) a_txt false [] registered_state
                  false "Permission denied" ∅ eq_refl)).
  discriminate.
Defined.

(** X8: a failure of the metadata store is not turned into a rejection of
    the file: when the project document cannot be read, or the project is
    unknown, both checks raise, after the header has been read and before
    the object store is asked. *)
Theorem checks_raise_store_failure (W : world) (C : config) (file : Path)
    (in_dir : bool) (dn dp : Path) (sfx : list string) (s : state) (c : bool)
    (e : exn) :
  is_compressed W file = (c, "") ->
  (db_fault W (project_id C) = Some e \/
   (db_fault W (project_id C) = None /\ project_db s !! project_id C = None /\
    e = KeyError (project_id C))) ->
  exists s1 s2,
    get_file_info W C file in_dir dn s = (Raise e, s1) /\
    do_file_checks W C file dp sfx s = (Raise e, s2) /\
    io s1 = io s ++ [ReadHeader file; DbFiles (project_id C)] /\
    io s2 = io s ++ [ReadHeader file; DbFiles (project_id C)].
Proof.
  intros Hc Hf.
  unfold get_file_info, do_file_checks, project_files. run. rewrite Hc. simpl.
  destruct Hf as [Hf | (Hf & Hp & ->)];
    (destruct c; [|destruct (magic_suffix W (Path_suffixes W file));
                   destruct (magic_suffix W sfx)]);
    simpl; rewrite Hf; simpl; rewrite ?Hp;
    (do 2 eexists; split; [reflexivity|]; split; [reflexivity|]);
    simpl; by rewrite <- !app_assoc.
Qed.

Lemma checks_raise_store_failure_witness :
  exists s1 s2,
    get_file_info quiet_world (put_config true false) a_txt false []
      (with_project_db ∅ empty_state) = (Raise (KeyError "p1"), s1) /\
    do_file_checks quiet_world (put_config true false) a_txt [] []
      (with_project_db ∅ empty_state) = (Raise (KeyError "p1"), s2).
Proof.
  destruct (checks_raise_store_failure quiet_world (put_config true false)
              a_txt false [] [] [] (with_project_db ∅ empty_state) false
              (KeyError "p1") eq_refl)
    as (s1 & s2 & H1 & H2 & _).
  - right. repeat split; reflexivity.
  - exists s1, s2. auto.
Defined.

Lemma get_file_info_accepts (W : world) (C : config) (file : Path)
    (in_dir : bool) (dn : Path) (s s' : state) (i : file_info) :
  get_file_info W C file in_dir dn s = (Ok (Info i), s') ->
  proceed i = true /\ in_directory i = in_dir /\
  dir_name i = (if in_dir then Some dn else None) /\
  processing i = new_stage /\ upload i = new_stage /\ database i = new_stage /\
  exists files,
    project_db s !! project_id C = Some files /\
    (is_Some (files !! new_file i) -> overwrite C = true) /\
    (is_Some (bucket s !! new_file i) ->
     overwrite C = true /\ is_Some (files !! new_file i)).
Proof.
  unfold get_file_info, get_file_info_bucket, project_files,
    file_exists_in_bucket. run.
  destruct (is_compressed W file) as [c e].
  destruct (negb (String.eqb e "")); [done|].
  destruct c; [|destruct (magic_suffix W (Path_suffixes W file))]; simpl;
    (destruct (db_fault W (project_id C)); [done|]); simpl;
    (destruct (project_db s !! project_id C) as [files|]; [|done]); simpl;
    repeat case_bool_decide; simpl; destruct (overwrite C); simpl;
    repeat case_bool_decide; simpl;
    intros Hres; simplify_eq; simpl;
    (repeat (split; [reflexivity|])); exists files; (split; [reflexivity|]);
    split; intros; try split; done.
Qed.


(** X9: what [get_file_info] accepts.  A file for which it returns the full
    dictionary has a key that is in neither store, or [overwrite] is set and
    the key is registered in the project; the dictionary has ['proceed']
    set, no stage started, and the directory fields as the caller gave
    them. *)
Theorem accepted_file_is_new_or_overwritten (W : world) (C : config)
    (file : Path) (in_dir : bool) (dn : Path) (s s' : state) (i : file_info) :
  get_file_info W C file in_dir dn s = (Ok (Info i), s') ->
  (exists files,
     project_db s !! project_id C = Some files /\
     existence_matrix (bool_decide (is_Some (files !! new_file i)))
       (bool_decide (is_Some (bucket s !! new_file i))) (overwrite C) = true) /\
  proceed i = true /\
  in_directory i = in_dir /\ dir_name i = (if in_dir then Some dn else None) /\
  processing i = new_stage /\ upload i = new_stage /\ database i = new_stage.
Proof.
  intros H.
  destruct (get_file_info_accepts W C file in_dir dn s s' i H)
    as (Hp & Hd & Hn & H1 & H2 & H3 & files & Hf & Hdb & Hb).
  split; [|by repeat split].
  exists files. split; [exact Hf|].
  repeat case_bool_decide; simpl; try done; auto.
  all: by destruct Hb.
Qed.

Lemma accepted_file_is_new_or_overwritten_witness :
  proceed accepted_a_txt = true /\ upload accepted_a_txt = new_stage.
Proof.
  destruct (accepted_file_is_new_or_overwritten quiet_world
              (put_config true false) a_txt false [] empty_state
              (with_io [ReadHeader a_txt; DbFiles "p1"; S3Exists "a.txt.zst.ccp";
                        Stat a_txt] empty_state)
              accepted_a_txt)
    as (_ & Hp & _ & _ & _ & Hu & _); [reflexivity|].
  split; [exact Hp | exact Hu].
Defined.

(** ** The files of a folder *)

Lemma elem_of_dict_set {K V} `{EqDecision K} (k k' : K) (v v' : V)
    (d : list (K * V)) :
  (k', v') ∈ dict_set k v d -> (k', v') = (k, v) \/ (k', v') ∈ d.
Proof.
  induction d as [|[q w] r IH]; simpl.
  - intros H. apply list_elem_of_singleton in H. by left.
  - destruct (decide (q = k)); intros H; apply elem_of_cons in H as [H|H].
    + by left.
    + right. by apply elem_of_cons; right.
    + right. rewrite H. by apply elem_of_cons; left.
    + destruct (IH H) as [?|?]; [by left|]. right. by apply elem_of_cons; right.
Qed.

Lemma get_dir_info_loop_results (W : world) (C : config) (folder : Path)
    (found : list Path) (dir_info : list (Path * file_info))
    (dir_fail : gmap (option Path) failed_entry) (s s' : state)
    (info' : list (Path * file_info))
    (fail' : gmap (option Path) failed_entry) :
  get_dir_info_loop W C folder found dir_info dir_fail s
  = (Ok (info', fail'), s') ->
  same_stores s s' /\
  (forall f i, (f, i) ∈ info' ->
     (f, i) ∈ dir_info \/
     (candidate W found f /\ in_directory i = true /\
      dir_name i = Some folder /\ proceed i = true /\ upload i = new_stage)) /\
  (forall k e, fail' !! k = Some e ->
     dir_fail !! k = Some e \/
     exists f, k = Some f /\ candidate W found f /\
               f_proceed e = Some false /\ is_Some (f_error e)).
Proof.
  revert dir_info dir_fail s.
  induction found as [|f rest IH]; intros dir_info dir_fail s; simpl.
  - intros H. injection H as <- <- <-. split; [apply same_stores_refl|].
    split; intros; by left.
  - assert (Hweak : forall g, candidate W rest g -> candidate W (f :: rest) g).
    { intros g (Hg & ? & ?). split; [by apply elem_of_cons; right|done]. }
    destruct (is_file W f && negb (contains "DS_Store" (Path_str f))) eqn:Hc.
    + apply andb_true_iff in Hc as [Hfile Hds]. apply negb_true_iff in Hds.
      assert (Hcand : candidate W (f :: rest) f).
      { split; [by apply elem_of_cons; left|done]. }
      unfold bind at 1.
      pose proof (get_file_info_same_stores W C f true folder s) as Hsame.
      destruct (get_file_info W C f true folder s) as [[[err|i]|e] s1] eqn:Hg;
        simpl in Hsame; [| |done].
      * run. intros H. apply IH in H as (Hs & Hi & Hf).
        split; [|split].
        -- eapply same_stores_trans; [exact Hsame|].
           eapply same_stores_trans; [|exact Hs]. by repeat split.
        -- intros g j Hgj. destruct (Hi g j Hgj) as [?|(?&?)]; [by left|].
           right. split; [by apply Hweak|done].
        -- intros k e Hk. destruct (Hf k e Hk) as [Hk'|(g & -> & ? & ?)].
           ++ destruct (decide (k = Some f)) as [->|Hne].
              ** rewrite lookup_insert_eq in Hk'. injection Hk' as <-.
                 right. exists f. split; [done|]. split; [exact Hcand|].
                 split; [reflexivity|]. simpl. by eexists.
              ** rewrite lookup_insert_ne in Hk' by done. by left.
           ++ right. exists g. split; [done|]. split; [by apply Hweak|done].
      * intros H. apply IH in H as (Hs & Hi & Hf).
        destruct (get_file_info_accepts W C f true folder s s1 i Hg)
          as (Hp & Hd & Hn & _ & Hu & _).
        split; [|split].
        -- eapply same_stores_trans; [exact Hsame|exact Hs].
        -- intros g j Hgj. destruct (Hi g j Hgj) as [Hin|(?&?)].
           ++ apply elem_of_dict_set in Hin as [Heq|?]; [|by left].
              injection Heq as -> ->. right.
              split; [exact Hcand|]. split; [exact Hd|]. split; [exact Hn|].
              split; [exact Hp|exact Hu].
           ++ right. split; [by apply Hweak|done].
        -- intros k e Hk. destruct (Hf k e Hk) as [?|(g & -> & ? & ?)];
             [by left|].
           right. exists g. split; [done|]. split; [by apply Hweak|done].
    + intros H. apply IH in H as (Hs & Hi & Hf).
      split; [exact Hs|]. split.
      * intros g j Hgj. destruct (Hi g j Hgj) as [?|(?&?)]; [by left|].
        right. split; [by apply Hweak|done].
      * intros k e Hk. destruct (Hf k e Hk) as [?|(g & -> & ? & ?)];
          [by left|].
        right. exists g. split; [done|]. split; [by apply Hweak|done].
Qed.

(** X10: what [get_dir_info] returns for a folder.  Every accepted entry is
    a file found below the folder that is a regular file and has no
    [DS_Store] in its path; it is marked as part of a directory with the
    folder as ['dir_name'], proceeds, and its upload has not started.  Every
    rejected entry is such a file as well and is the two-key dictionary with
    ['proceed': False].  Nothing but the log and the trace is changed. *)
Theorem get_dir_info_results (W : world) (C : config) (folder : Path)
    (s s' : state) (dir_info : list (Path * file_info))
    (dir_fail : gmap (option Path) failed_entry) :
  get_dir_info W C folder s = (Ok (dir_info, dir_fail), s') ->
  same_stores s s' /\
  (forall f i, (f, i) ∈ dir_info ->
     candidate W (glob W folder) f /\ in_directory i = true /\
     dir_name i = Some folder /\ proceed i = true /\ upload i = new_stage) /\
  (forall k e, dir_fail !! k = Some e ->
     exists f, k = Some f /\ candidate W (glob W folder) f /\
               f_proceed e = Some false /\ is_Some (f_error e)).
Proof.
  intros H. apply get_dir_info_loop_results in H as (Hs & Hi & Hf).
  split; [exact Hs|]. split.
  - intros f i Hin. destruct (Hi f i Hin) as [Hnil|?]; [|done].
    by apply elem_of_nil in Hnil.
  - intros k e Hk. destruct (Hf k e Hk) as [Hnil|?]; [|done].
    by rewrite lookup_empty in Hnil.
Qed.

Lemma get_dir_info_results_witness :
  candidate folder_world (glob folder_world dir_D) (dir_D ++ ["a"]) /\
  in_directory folder_a_info = true /\ dir_name folder_a_info = Some dir_D /\
  proceed folder_a_info = true /\ upload folder_a_info = new_stage.
Proof.
  apply (proj1 (proj2 (get_dir_info_results folder_world (put_config true false)
           dir_D empty_state
           (get_dir_info folder_world (put_config true false) dir_D
              empty_state).2
           [(dir_D ++ ["a"], folder_a_info)] ∅ eq_refl))).
  apply list_elem_of_singleton. reflexivity.
Defined.

(** ** [_finalize]: what is undone and what is left alone *)

(** X11: a record whose two completion flags agree has nothing to undo:
    [_finalize] reads the project document and changes neither store; it
    returns [True] when the project is known and raises [KeyError] when it
    is not. *)
Theorem finalize_nothing_to_undo (W : world) (C : config) (s : state)
    (file : Path) (info : file_info) :
  finished (upload info) = finished (database info) ->
  db_fault W (project_id C) = None ->
  _finalize W C file info s
  = (match project_db s !! project_id C with
     | Some _ => Ok true
     | None => Raise (KeyError (project_id C))
     end, with_io (io s ++ [DbFiles (project_id C)]) s).
Proof.
  intros Heq Hdb. unfold _finalize, project_files. run.
  rewrite Heq, Hdb. simpl.
  destruct (finished (database info)); simpl;
    destruct (project_db s !! project_id C); reflexivity.
Qed.

Lemma finalize_nothing_to_undo_witness :
  _finalize quiet_world (put_config true false) a_txt delivered_info two_records
  = (Ok true, with_io [DbFiles "p1"] two_records).
Proof.
  apply (finalize_nothing_to_undo quiet_world (put_config true false)
           two_records a_txt delivered_info); reflexivity.
Defined.

(** X12: for a record whose upload is finished and whose registration is
    not, [_finalize] removes the object from the bucket whatever the
    metadata store then does (it is only read and may fail): the project
    documents, the delivery dictionary and the temporary tree are unchanged,
    and the result is [True] when the project document can be read. *)
Theorem finalize_undoes_upload (W : world) (C : config) (s : state)
    (file : Path) (info : file_info) :
  finished (upload info) = true ->
  finished (database info) = false ->
  delete_fault W (new_file info) = None ->
  bucket (_finalize W C file info s).2 = delete (new_file info) (bucket s) /\
  bucket (_finalize W C file info s).2 !! new_file info = None /\
  project_db (_finalize W C file info s).2 = project_db s /\
  data (_finalize W C file info s).2 = data s /\
  fs (_finalize W C file info s).2 = fs s /\
  (db_fault W (project_id C) = None -> is_Some (project_db s !! project_id C) ->
   (_finalize W C file info s).1 = Ok true).
Proof.
  intros Hu Hd Hf.
  assert (Hb : bucket (_finalize W C file info s).2
               = delete (new_file info) (bucket s)).
  { unfold _finalize, delete_item, project_files. run.
    rewrite Hu, Hd, Hf. simpl.
    destruct (db_fault W (project_id C)) as [e|]; simpl;
      [by destruct (is_CouchDBException e)|].
    by destruct (project_db s !! project_id C). }
  split; [exact Hb|]. split; [by rewrite Hb, lookup_delete_eq|].
  unfold _finalize, delete_item, project_files. run.
  rewrite Hu, Hd, Hf. simpl.
  destruct (db_fault W (project_id C)) as [e|]; simpl.
  - destruct (is_CouchDBException e); by repeat split.
  - destruct (project_db s !! project_id C); simpl; repeat split; try done.
    all: try by intros _ [? ?].
Qed.

Lemma finalize_undoes_upload_witness :
  bucket (_finalize quiet_world (put_config true false) a_txt
            uploaded_only_info uploaded_only_state).2 !! "a.txt.zst.ccp" = None.
Proof.
  apply (finalize_undoes_upload quiet_world (put_config true false)
           uploaded_only_state a_txt uploaded_only_info); reflexivity.
Defined.

(** X13: [_finalize] makes a half-delivered file deliverable again.  A file
    whose object is in the bucket while its key is not registered is
    rejected by [get_file_info] with the request to contact support; after
    [_finalize] of its record (upload finished, registration not) the same
    call accepts the file under the same key. *)
Theorem finalize_then_classify (W : world) (C : config) (s : state)
    (file : Path) (in_dir : bool) (dn : Path) (c : bool)
    (files : gmap string string) (info : file_info) :
  is_compressed W file = (c, "") ->
  db_fault W (project_id C) = None ->
  project_db s !! project_id C = Some files ->
  let path_base := if in_dir then Some (Path_name dn) else None in
  let key := target_key (get_root_path W file path_base) file c in
  files !! key = None ->
  is_Some (bucket s !! key) ->
  new_file info = key ->
  finished (upload info) = true ->
  finished (database info) = false ->
  delete_fault W key = None ->
  (exists e s0,
     get_file_info W C file in_dir dn s = (Ok (Failed e), s0) /\
     ends_with e contact_support) /\
  exists s1 i s2,
    _finalize W C file info s = (Ok true, s1) /\
    get_file_info W C file in_dir dn s1 = (Ok (Info i), s2) /\
    new_file i = key /\ proceed i = true.
Proof.
  intros Hc Hdb Hp pb key Hnone Hb Hk Hu Hd Hdel.
  assert (Hn : bool_decide (is_Some (files !! key)) = false).
  { rewrite Hnone. apply bool_decide_eq_false_2, is_Some_None. }
  split.
  - destruct (get_file_info_outcome W C s file in_dir dn c files Hc Hdb Hp)
      as (r & s0 & Hr & _ & Hrej).
    fold pb in Hrej. fold key in Hrej.
    destruct Hrej as (e & -> & He).
    { rewrite Hn, (bool_decide_eq_true_2 _ Hb). reflexivity. }
    exists e, s0. split; [exact Hr|]. by apply He.
  - rewrite <- Hk in Hdel.
    destruct (finalize_deletes_object W C s file info files Hu Hd Hdel Hdb Hp)
      as (s1 & Hfin & Hb1 & Hp1).
    rewrite <- Hp1 in Hp.
    destruct (get_file_info_outcome W C s1 file in_dir dn c files Hc Hdb Hp)
      as (r & s2 & Hr & Hacc & _).
    fold pb in Hacc. fold key in Hacc.
    destruct Hacc as (i & -> & Hpi & Hni & _).
    { rewrite Hn, Hb1, Hk, lookup_delete_eq.
      rewrite (bool_decide_eq_false_2 _ is_Some_None). reflexivity. }
    exists s1, i, s2. auto.
Qed.

Lemma finalize_then_classify_witness :
  exists s1 i s2,
    _finalize quiet_world (put_config true false) a_txt uploaded_only_info
      uploaded_only_state = (Ok true, s1) /\
    get_file_info quiet_world (put_config true false) a_txt false [] s1
    = (Ok (Info i), s2) /\
    new_file i = "a.txt.zst.ccp" /\ proceed i = true.
Proof.
  apply (finalize_then_classify quiet_world (put_config true false)
           uploaded_only_state a_txt false [] false ∅ uploaded_only_info);
    try reflexivity.
  eexists. reflexivity.
Defined.

(** X14: a failure of the deletion of the object ends [_finalize] before
    the metadata store is read.  A [ClientError] is logged as a warning and
    the result is [False]; an exception of another class is raised to the
    caller; in both cases the object and the project documents are as
    before. *)
Theorem finalize_stops_at_failed_deletion (W : world) (C : config)
    (s : state) (file : Path) (info : file_info) (e : exn) :
  finished (upload info) = true ->
  finished (database info) = false ->
  delete_fault W (new_file info) = Some e ->
  _finalize W C file info s
  = if is_ClientError e
    then (Ok false,
          with_log (log s ++ [(WARNING, exn_msg e)])
            (with_io (io s ++ [S3Delete (new_file info)]) s))
    else (Raise e, with_io (io s ++ [S3Delete (new_file info)]) s).
Proof.
  intros Hu Hd Hf. unfold _finalize, delete_item. run.
  rewrite Hu, Hd, Hf. simpl.
  destruct (is_ClientError e); reflexivity.
Qed.

Lemma finalize_stops_at_failed_deletion_witness :
  _finalize refusing_world (put_config true false) a_txt uploaded_only_info
    uploaded_only_state
  = (Ok false,
     with_log [(WARNING, "AccessDenied")]
       (with_io [S3Delete "a.txt.zst.ccp"] uploaded_only_state)).
Proof.
  apply (finalize_stops_at_failed_deletion refusing_world
           (put_config true false) uploaded_only_state a_txt
           uploaded_only_info (ClientError "AccessDenied")); reflexivity.
Defined.

(** ** The temporary directory after [_clear_tempdir] *)

Lemma elem_of_temp_dirs (t d : Path) (f : list (Path * node)) :
  d ∈ temp_dirs t f <-> (d, Dir) ∈ f /\ d <> t /\ Path_parent d = t.
Proof.
  unfold temp_dirs. rewrite list_elem_of_fmap. split.
  - intros ([p n] & -> & Hin). apply list_elem_of_filter in Hin as [(Hn & ? & ?) Hin].
    simpl in *. by subst n.
  - intros (Hin & ? & ?). exists (d, Dir). split; [done|].
    apply list_elem_of_filter. by repeat split.
Qed.

Lemma removelast_length (d : Path) : length (removelast d) = pred (length d).
Proof.
  induction d as [|x [|y r] IH]; [done|done|].
  change (removelast (x :: y :: r)) with (x :: removelast (y :: r)).
  simpl in *. by rewrite IH.
Qed.

(** A child is one part longer than its parent. *)
Lemma Path_parent_length (d t : Path) :
  Path_parent d = t -> d <> t -> length d = S (length t).
Proof.
  intros <- Hne. destruct d as [|x [|y r]].
  - done.
  - simpl in *. by destruct (is_root x).
  - unfold Path_parent. rewrite removelast_length. reflexivity.
Qed.

Lemma clear_dirs_removes (W : world) (ds : list Path) (s : state) :
  (forall d, d ∈ ds -> rmtree_fault W d = None) ->
  exists s',
    clear_dirs W ds s = (Ok tt, s') /\
    (forall e, e ∈ fs s' <->
               e ∈ fs s /\ forall d, d ∈ ds -> ~ d `prefix_of` e.1) /\
    data s' = data s /\ bucket s' = bucket s /\ project_db s' = project_db s /\
    log s' = log s.
Proof.
  revert s. induction ds as [|d ds IH]; intros s H; simpl.
  - exists s. split; [done|]. split; [|done].
    intros e. split; [|by intros [? _]]. intros He. split; [done|].
    intros d Hd. by apply elem_of_nil in Hd.
  - unfold rmtree. run. rewrite (H d) by (by apply elem_of_cons; left). simpl.
    match goal with
    | |- context [clear_dirs W ds ?st] =>
        destruct (IH st) as (s' & Hs' & Hfs & Hd & Hb & Hp & Hl)
    end.
    { intros x Hx. apply H. by apply elem_of_cons; right. }
    exists s'. split; [exact Hs'|]. split; [|done].
    intros e. rewrite Hfs. simpl. rewrite list_elem_of_filter. split.
    + intros [[Hnp He] Hrest]. split; [done|].
      intros x Hx. apply elem_of_cons in Hx as [->|Hx]; [done|by apply Hrest].
    + intros [He Hall]. split; [split; [|done]|].
      * apply Hall. by apply elem_of_cons; left.
      * intros x Hx. apply Hall. by apply elem_of_cons; right.
Qed.

(** X15: what [_clear_tempdir] leaves when no removal fails.  Exactly the
    entries below a folder of the temporary directory are removed, these
    folders included; the temporary directory itself stays, and so does a
    file that lies directly in it: the directory is emptied of its folders,
    not of all its content.  The delivery dictionary and both stores are
    untouched. *)
Theorem clear_tempdir_removes_the_folders (W : world) (C : config)
    (s : state) :
  (forall d, rmtree_fault W d = None) ->
  (tempdir C, Dir) ∈ fs s ->
  exists s',
    _clear_tempdir W C s = (Ok tt, s') /\
    (forall e, e ∈ fs s' <->
       e ∈ fs s /\
       forall d, (d, Dir) ∈ fs s -> d <> tempdir C ->
                 Path_parent d = tempdir C -> ~ d `prefix_of` e.1) /\
    (tempdir C, Dir) ∈ fs s' /\
    (forall p c, (p, File c) ∈ fs s -> Path_parent p = tempdir C ->
                 (p, Dir) ∉ fs s -> (p, File c) ∈ fs s') /\
    data s' = data s /\ bucket s' = bucket s /\ project_db s' = project_db s.
Proof.
  intros Hno Ht. unfold _clear_tempdir. run.
  rewrite (bool_decide_eq_true_2 _ Ht).
  destruct (clear_dirs_removes W (temp_dirs (tempdir C) (fs s)) s)
    as (s' & Hs' & Hfs & Hd & Hb & Hp & _); [by intros|].
  exists s'. split; [exact Hs'|].
  assert (Hchar : forall e, e ∈ fs s' <->
            e ∈ fs s /\
            forall d, (d, Dir) ∈ fs s -> d <> tempdir C ->
                      Path_parent d = tempdir C -> ~ d `prefix_of` e.1).
  { intros e. rewrite Hfs. split; intros [He Hall]; (split; [done|]).
    - intros d H1 H2 H3. apply Hall. by apply elem_of_temp_dirs.
    - intros d Hin. apply elem_of_temp_dirs in Hin as (?&?&?). by apply Hall. }
  split; [exact Hchar|]. split; [|split; [|done]].
  - apply Hchar. split; [done|]. simpl. intros d _ Hne Hpar Hpre.
    apply prefix_length in Hpre.
    rewrite (Path_parent_length d (tempdir C) Hpar Hne) in Hpre. lia.
  - intros p c Hin Hpar Hnd. apply Hchar. split; [done|]. simpl.
    intros d Hdin Hne Hdpar [k Hk].
    destruct (decide (p = tempdir C)) as [->|Hpne].
    + pose proof (Path_parent_length d (tempdir C) Hdpar Hne) as Hlen.
      rewrite Hk, length_app in Hlen. lia.
    + pose proof (Path_parent_length d (tempdir C) Hdpar Hne) as Hlen.
      pose proof (Path_parent_length p (tempdir C) Hpar Hpne) as Hlen'.
      rewrite Hk, length_app, Hlen in Hlen'.
      destruct k; [|simpl in Hlen'; lia].
      rewrite app_nil_r in Hk. subst p. done.
Qed.

Lemma clear_tempdir_removes_the_folders_witness :
  exists s',
    _clear_tempdir quiet_world (put_config true false) loose_file_tree
    = (Ok tt, s') /\
    (["/"; "tmp"; "loose.ccp"], File "y") ∈ fs s'.
Proof.
  destruct (clear_tempdir_removes_the_folders quiet_world
              (put_config true false) loose_file_tree)
    as (s' & H1 & _ & _ & H2 & _).
  - reflexivity.
  - apply elem_of_cons. by left.
  - exists s'. split; [exact H1|]. apply H2.
    + apply list_elem_of_In. simpl. auto 10.
    + reflexivity.
    + intros Hin. apply list_elem_of_In in Hin. simpl in Hin.
      repeat (destruct Hin as [Hin|Hin]; [discriminate Hin|]). exact Hin.
Defined.

(** ** The bucket after the tear-down *)

Lemma finalize_bucket (W : world) (C : config) (file : Path)
    (info : file_info) (s : state) :
  delete_fault W (new_file info) = None ->
  bucket (_finalize W C file info s).2
  = if to_undo info then delete (new_file info) (bucket s) else bucket s.
Proof.
  intros Hf. unfold to_undo, _finalize, delete_item, project_files, del_file.
  run. rewrite Hf.
  destruct (finished (upload info)), (finished (database info)); simpl;
    (destruct (db_fault W (project_id C)) as [e|]; simpl;
     [by destruct (is_CouchDBException e)|]);
    destruct (project_db s !! project_id C) as [files|]; simpl; try done.
  by destruct (files !! new_file info).
Qed.

Lemma exit_item_bucket (W : world) (C : config) (f : Path) (info : file_info)
    (t : tables) (s : state) :
  delete_fault W (new_file info) = None ->
  bucket (exit_item W C f info t s).2
  = if to_undo info then delete (new_file info) (bucket s) else bucket s.
Proof.
  intros Hf. rewrite exit_item_cases. destruct (delivered info) eqn:Hd.
  - unfold delivered in Hd. apply andb_true_iff in Hd as [Hd Hdb].
    apply andb_true_iff in Hd as [_ Hu]. unfold to_undo. rewrite Hu, Hdb.
    simpl. by case_bool_decide.
  - rewrite <- (finalize_bucket W C f info s Hf).
    by destruct (_finalize W C f info s) as [[]].
Qed.

Lemma exit_loop_bucket_shrinks (W : world) (C : config)
    (items : list (Path * file_info)) (t : tables) (s : state) (k : string) :
  (forall x, delete_fault W x = None) ->
  bucket s !! k = None -> bucket (exit_loop W C items t s).2 !! k = None.
Proof.
  intros Hno. revert t s.
  induction items as [|[f info] items IH]; intros t s Hk; [done|].
  simpl. unfold bind.
  pose proof (exit_item_bucket W C f info t s (Hno _)) as Hb.
  assert (Hk1 : bucket (exit_item W C f info t s).2 !! k = None).
  { rewrite Hb. destruct (to_undo info); [|done].
    destruct (decide (new_file info = k)) as [->|];
      [by rewrite lookup_delete_eq|by rewrite lookup_delete_ne]. }
  destruct (exit_item W C f info t s) as [[t1|e] s1]; simpl in *; [|done].
  by apply IH.
Qed.

Lemma exit_loop_bucket (W : world) (C : config)
    (items : list (Path * file_info)) (t t' : tables) (s s' : state)
    (k : string) :
  (forall x, delete_fault W x = None) ->
  exit_loop W C items t s = (Ok t', s') ->
  ((exists f info, (f, info) ∈ items /\ to_undo info = true /\
                   new_file info = k) ->
   bucket s' !! k = None) /\
  ((forall f info, (f, info) ∈ items -> to_undo info = true ->
                   new_file info <> k) ->
   bucket s' !! k = bucket s !! k).
Proof.
  intros Hno. revert t s.
  induction items as [|[f info] items IH]; intros t s H; simpl in H.
  - injection H as <- <-. split; [|done].
    intros (? & ? & Hin & _). by apply elem_of_nil in Hin.
  - unfold bind in H.
    pose proof (exit_item_bucket W C f info t s (Hno _)) as Hb.
    destruct (exit_item W C f info t s) as [[t1|e] s1] eqn:Hitem;
      simpl in Hb; [|done].
    destruct (IH t1 s1 H) as [IHa IHb]. split.
    + intros (g & j & Hin & Hundo & Hkey).
      apply elem_of_cons in Hin as [[= -> ->]|Hin].
      * pose proof (exit_loop_bucket_shrinks W C items t1 s1 k Hno) as Hm.
        rewrite H in Hm. apply Hm.
        rewrite Hb, Hundo, Hkey. apply lookup_delete_eq.
      * apply IHa. eauto.
    + intros Hall. rewrite IHb.
      * rewrite Hb. destruct (to_undo info) eqn:Hundo; [|done].
        apply lookup_delete_ne. apply (Hall f info); [|done].
        by apply elem_of_cons; left.
      * intros g j Hin. apply (Hall g j). by apply elem_of_cons; right.
Qed.

Lemma clear_dirs_bucket (W : world) (ds : list Path) (s : state) :
  bucket (clear_dirs W ds s).2 = bucket s.
Proof.
  revert s. induction ds as [|d ds IH]; intros s; [done|].
  simpl. unfold rmtree. run.
  destruct (rmtree_fault W d) as [e|]; simpl.
  - destruct (is_DeliverySystemException e); simpl; [|done]. by rewrite IH.
  - by rewrite IH.
Qed.

(** X16: what a tear-down that ends without an exception has done to the
    bucket, when no deletion fails.  The object of every record whose
    upload is finished and whose registration is not is gone; every other
    key is as before, so the objects of delivered records stay. *)
Theorem teardown_removes_unregistered_objects (W : world) (C : config)
    (s s' : state) (r : option bool) (k : string) :
  (forall x, delete_fault W x = None) ->
  __exit__ W C None s = (Ok r, s') ->
  ((exists f info, (f, info) ∈ data s /\ finished (upload info) = true /\
                   finished (database info) = false /\ new_file info = k) ->
   bucket s' !! k = None) /\
  ((forall f info, (f, info) ∈ data s -> finished (upload info) = true ->
                   finished (database info) = false -> new_file info <> k) ->
   bucket s' !! k = bucket s !! k).
Proof.
  intros Hno H. unfold __exit__ in H. run.
  case_bool_decide; [|done]. simpl in H.
  destruct (exit_loop W C (data s) no_tables s) as [[t|e] s1] eqn:Hloop; [|done].
  pose proof (clear_dirs_bucket W (temp_dirs (tempdir C) (fs s1)) s1) as Hcl.
  unfold _clear_tempdir in H. run.
  case_bool_decide; [|done].
  destruct (clear_dirs W (temp_dirs (tempdir C) (fs s1)) s1) as [[[]|e] s2];
    [|done].
  simpl in Hcl.
  assert (Hb : bucket s' = bucket s1).
  { rewrite <- Hcl. repeat case_bool_decide; simpl in H; by simplify_eq. }
  destruct (exit_loop_bucket W C (data s) no_tables t s s1 k Hno Hloop)
    as [Ha Hn].
  rewrite Hb. split.
  - intros (f & info & Hin & Hu & Hd & Hk). apply Ha. exists f, info.
    unfold to_undo. by rewrite Hu, Hd.
  - intros Hall. apply Hn. intros f info Hin Hundo. unfold to_undo in Hundo.
    apply andb_true_iff in Hundo as [Hu Hd]. apply negb_true_iff in Hd. eauto.
Qed.

Lemma teardown_removes_unregistered_objects_witness :
  bucket (__exit__ quiet_world (put_config true false) None half_delivered).2
    !! "b.txt.zst.ccp" = None /\
  bucket (__exit__ quiet_world (put_config true false) None half_delivered).2
    !! "a.txt.zst.ccp" = Some "encrypted a".
Proof.
  assert (Hrun : exists r,
            __exit__ quiet_world (put_config true false) None half_delivered
            = (Ok r, (__exit__ quiet_world (put_config true false) None
                        half_delivered).2))
    by (eexists; vm_compute; reflexivity).
  destruct Hrun as [r Hrun]. split.
  - apply (proj1 (teardown_removes_unregistered_objects quiet_world
                    (put_config true false) half_delivered _ r
                    "b.txt.zst.ccp" (fun _ => eq_refl) Hrun)).
    exists b_txt, b_uploaded_only_info. repeat split.
    apply elem_of_cons. right. apply elem_of_cons. by left.
  - rewrite (proj2 (teardown_removes_unregistered_objects quiet_world
                      (put_config true false) half_delivered _ r
                      "a.txt.zst.ccp" (fun _ => eq_refl) Hrun)).
    + reflexivity.
    + intros f info Hin Hu Hd.
      apply elem_of_cons in Hin as [[= -> ->]|Hin]; [discriminate Hd|].
      apply list_elem_of_singleton in Hin. injection Hin as -> ->.
      discriminate.
Defined.

(** ** The summary *)

Lemma exit_loop_no_delivery (W : world) (C : config)
    (items : list (Path * file_info)) (t0 t : tables) (s s' : state) :
  exit_loop W C items t0 s = (Ok t, s') ->
  (forall f info, (f, info) ∈ items -> delivered info = false) ->
  suc_dict t = suc_dict t0.
Proof.
  revert t0 s. induction items as [|[f info] items IH]; intros t0 s H Hall.
  - simpl in H. by injection H as -> _.
  - simpl in H. unfold bind in H. rewrite exit_item_cases in H.
    rewrite (Hall f info) in H by (by apply elem_of_cons; left).
    destruct (_finalize W C f info s) as [[b|e] s1]; [|done].
    apply IH in H.
    + rewrite H. apply add_failed_suc.
    + intros g j Hin. apply (Hall g j). by apply elem_of_cons; right.
Qed.

Lemma failed_banner_in_summary (W : world) (t : tables) :
  failed_banner ∈ summary W t <-> suc_dict t = ∅.
Proof.
  unfold summary, failed_banner. rewrite <- map_size_empty_iff. split.
  - intros H. apply elem_of_app in H as [H|H].
    { case_bool_decide; [|by apply elem_of_nil in H].
      apply elem_of_cons in H as [H|H]; [discriminate H|].
      apply list_elem_of_singleton in H. discriminate H. }
    apply elem_of_app in H as [H|H].
    { case_bool_decide; [lia|by apply elem_of_nil in H]. }
    case_bool_decide; [|by apply elem_of_nil in H].
    apply list_elem_of_singleton in H. vm_compute in H. discriminate H.
  - intros H0. apply elem_of_app. right. apply elem_of_app. left.
    rewrite bool_decide_eq_true_2 by lia. by apply list_elem_of_singleton.
Qed.

(** X17: the summary of a tear-down that ends without an exception has the
    line [----DELIVERY FAILED----] exactly when no record of the delivery
    dictionary is delivered (in particular for a session without records,
    and never next to a delivered item). *)
Theorem failed_banner_iff_nothing_delivered (W : world) (C : config)
    (s s1 s2 : state) (t : tables) :
  gdata s = ∅ ->
  exit_loop W C (data s) no_tables s = (Ok t, s1) ->
  _clear_tempdir W C s1 = (Ok tt, s2) ->
  __exit__ W C None s = (Ok None, with_log (log s2 ++ summary W t) s2) /\
  (failed_banner ∈ summary W t <->
   forall f info, (f, info) ∈ data s ->
     proceed info && finished (upload info) && finished (database info) = false).
Proof.
  intros Hg Hl Hc. split; [by apply exit_normal with s1|].
  rewrite failed_banner_in_summary. split.
  - intros Hempty f info Hin.
    destruct (exit_loop_tables W C _ _ _ _ _ Hl) as (_ & _ & _ & H4).
    specialize (H4 f info Hin). fold (delivered info).
    destruct (delivered info); [|done].
    rewrite Hempty, lookup_empty in H4. by destruct H4.
  - intros Hall. by rewrite (exit_loop_no_delivery W C _ _ _ _ _ Hl Hall).
Qed.

Lemma failed_banner_iff_nothing_delivered_witness :
  __exit__ quiet_world (put_config true false) None empty_state
  = (Ok None, with_log [failed_banner] empty_state).
Proof.
  apply (proj1 (failed_banner_iff_nothing_delivered quiet_world
                  (put_config true false) empty_state empty_state empty_state
                  no_tables eq_refl eq_refl eq_refl)).
Defined.

(** ** [prep_upload] and [put] *)

(** X19: a cancelled record is neither processed nor uploaded.  For a record
    with ['proceed': False], [prep_upload] returns
    [(False, Path(""), 0, False, "")] without calling [process_file], and
    [put] returns [False] without touching the bucket; neither starts a
    stage.  The error text of [put] is empty exactly when the processing of
    the record had finished. *)
Theorem cancelled_record_is_skipped (C : config)
    (process_file : Path -> file_info -> Path -> M (bool * Path * Z * bool * string))
    (upload_fault : string -> option exn)
    (file : Path) (info : file_info) (s : state) :
  proceed info = false ->
  prep_upload C process_file file info s = (Ok (false, [], 0%Z, false, ""), s) /\
  (exists err s',
     put upload_fault file info s = (Ok (false, err), s') /\
     same_stores s s' /\ io s' = io s /\
     (err = "" <-> finished (processing info) = true)).
Proof.
  intros Hp. split.
  - unfold prep_upload. by rewrite Hp.
  - unfold put. rewrite Hp. simpl.
    destruct (finished (processing info)); simpl.
    + exists "", s. split; [reflexivity|]. split; [apply same_stores_refl|].
      by split.
    + run. eexists _, _. split; [reflexivity|]. split; [by repeat split|].
      split; [reflexivity|]. split; [|discriminate].
      intros H. apply (f_equal String.length) in H.
      rewrite !append_length in H. simpl in H. lia.
Qed.

Lemma cancelled_record_is_skipped_witness :
  prep_upload (put_config true false) no_process_file b_txt failed_upload_info
    two_records
  = (Ok (false, [], 0%Z, false, ""), two_records).
Proof.
  apply (proj1 (cancelled_record_is_skipped (put_config true false)
                  no_process_file no_upload_fault b_txt failed_upload_info
                  two_records eq_refl)).
Defined.

Lemma put_runs (upload_fault : string -> option exn) (file : Path)
    (info rec : file_info) (s : state) :
  proceed info = true ->
  data_lookup file (data s) = Some rec ->
  put upload_fault file info s =
    let s0 := with_data (data_alter (stage_set "upload" started_stage) file
                           (data s)) s in
    match upload_result upload_fault info s with
    | inr c =>
        (Ok (true, ""),
         with_log (log s ++ [(INFO, "File uploaded: "
                                    +:+ Path_str (encrypted_file info)
                                    +:+ ", Bucket location: "
                                    +:+ new_file info)])
           (with_bucket (<[new_file info := c]> (bucket s)) s0))
    | inl e =>
        if is_Exception e then
          (Ok (false, upload_failed_msg file info e),
           with_log (log s ++ [(ERROR, upload_failed_msg file info e)]) s0)
        else (Raise e, s0)
    end.
Proof.
  intros Hp Hl.
  unfold put, set_progress, data_getitem, upload_file, upload_result,
    upload_failed_msg. run. rewrite Hp. simpl. rewrite Hl. simpl.
  destruct (upload_fault (new_file info)) as [e|]; simpl.
  - by destruct (is_Exception e).
  - destruct (fs_read (encrypted_file info) (fs s)); simpl; [|done].
    by destruct (bucket_exists s).
Qed.

(** X20: a successful [put].  For a record that proceeds and whose
    processed file is in the temporary directory, [put] returns
    [(True, "")]; the object is in the bucket under the record's key with
    the content of the processed file, so the existence check of that key
    answers [True]; the upload stage of the record is in progress, never
    finished (that is left to the caller), and the other records and the
    project documents are unchanged. *)
Theorem put_success (W : world) (upload_fault : string -> option exn)
    (file : Path) (info rec : file_info) (c : string) (s : state) :
  proceed info = true ->
  data_lookup file (data s) = Some rec ->
  upload_fault (new_file info) = None ->
  fs_read (encrypted_file info) (fs s) = Some c ->
  bucket_exists s = true ->
  exists s',
    put upload_fault file info s = (Ok (true, ""), s') /\
    bucket s' = <[new_file info := c]> (bucket s) /\
    (file_exists_in_bucket W (new_file info) s').1
    = Ok (true, exists_error W (new_file info)) /\
    data_lookup file (data s') = Some (stage_set "upload" started_stage rec) /\
    finished (upload (stage_set "upload" started_stage rec)) = false /\
    (forall (k : nat) (p : Path) (i : file_info),
       data s !! k = Some (p, i) -> p <> file -> data s' !! k = Some (p, i)) /\
    project_db s' = project_db s /\ fs s' = fs s.
Proof.
  intros Hp Hl Hf Hr Hb. rewrite (put_runs upload_fault file info rec s Hp Hl).
  unfold upload_result. rewrite Hf, Hr, Hb. simpl.
  eexists. split; [reflexivity|]. simpl. split; [reflexivity|].
  split.
  { unfold file_exists_in_bucket. run.
    rewrite bool_decide_eq_true_2; [reflexivity|].
    rewrite lookup_insert_eq. by eexists. }
  split; [by rewrite data_alter_lookup, Hl|]. split; [reflexivity|].
  split; [|done]. intros k p i Hk Hne. by apply data_alter_other.
Qed.

Lemma put_success_witness :
  exists s',
    put no_upload_fault a_txt processed_info ready_state = (Ok (true, ""), s') /\
    bucket s' = <["a.txt.zst.ccp" := "encrypted a"]> (bucket ready_state).
Proof.
  destruct (put_success quiet_world no_upload_fault a_txt processed_info
              processed_info "encrypted a" ready_state)
    as (s' & H1 & H2 & _); try reflexivity.
  exists s'. split; [exact H1 | exact H2].
Defined.

(** X21: a failed upload is a value, not an exception.  When the transfer
    fails with an exception that [except Exception] catches (a failure of
    the client, a missing processed file, a missing bucket), [put] returns
    [False] with the message that names both files and the error, and logs
    it once; the bucket is unchanged and the upload stage of the record
    stays in progress.  An exception outside [Exception] is raised. *)
Theorem put_failure (upload_fault : string -> option exn) (file : Path)
    (info rec : file_info) (e : exn) (s : state) :
  proceed info = true ->
  data_lookup file (data s) = Some rec ->
  upload_result upload_fault info s = inl e ->
  exists s',
    put upload_fault file info s
    = (if is_Exception e then Ok (false, upload_failed_msg file info e)
       else Raise e, s') /\
    bucket s' = bucket s /\
    data_lookup file (data s') = Some (stage_set "upload" started_stage rec) /\
    log s' = log s ++ (if is_Exception e
                       then [(ERROR, upload_failed_msg file info e)] else []).
Proof.
  intros Hp Hl He. rewrite (put_runs upload_fault file info rec s Hp Hl), He.
  cbv zeta.
  pose proof (data_alter_lookup (stage_set "upload" started_stage) file (data s))
    as Hrec. rewrite Hl in Hrec.
  destruct (is_Exception e); (eexists; split; [reflexivity|]);
    (split; [reflexivity|]); (split; [exact Hrec|]); simpl;
    by rewrite ?app_nil_r.
Qed.

Lemma put_failure_witness :
  exists s',
    put no_upload_fault a_txt processed_info processed_state
    = (Ok (false, "File: /data/a.txt, Uploaded: /tmp/a.txt.zst.ccp -- "
                  +:+ "Upload failed! -- No such file or directory: "
                  +:+ "/tmp/a.txt.zst.ccp"), s') /\
    bucket s' = bucket processed_state.
Proof.
  destruct (put_failure no_upload_fault a_txt processed_info processed_info
              (OSError "No such file or directory: /tmp/a.txt.zst.ccp")
              processed_state)
    as (s' & H1 & H2 & _); try reflexivity.
  exists s'. split; [exact H1 | exact H2].
Defined.

(** X22: a failed upload and the cascade.  [put] starts the upload stage
    before the transfer, so when the upload of a directory file fails and
    the failure is reported to [update_delivery] under [break_on_fail], the
    record of the failing file is not among the cancelled ones: it keeps
    ['proceed': True] and its error text, while the files of the directory
    that were not started are cancelled with the message of [put]. *)
Theorem failed_put_is_not_cancelled (C : config)
    (upload_fault : string -> option exn) (file : Path) (rec : file_info)
    (err : string) (s s1 : state) :
  proceed rec = true ->
  in_directory rec = true ->
  break_on_fail C = true ->
  data_lookup file (data s) = Some rec ->
  put upload_fault file rec s = (Ok (false, err), s1) ->
  exists s2,
    update_delivery C file (failure_of err) s1 = (Ok tt, s2) /\
    data_lookup file (data s2) = Some (stage_set "upload" started_stage rec) /\
    proceed (stage_set "upload" started_stage rec) = true /\
    forall (k : nat) (p : Path) (i : file_info),
      data s !! k = Some (p, i) -> p <> file ->
      dir_name i = dir_name rec ->
      in_progress (upload i) = false -> finished (upload i) = false ->
      data s2 !! k = Some (p, cancelled (failed_file_msg file err) i).
Proof.
  intros Hp Hd Hb Hl Hput.
  rewrite (put_runs upload_fault file rec rec s Hp Hl) in Hput.
  cbv zeta in Hput.
  assert (Hs1 : data s1 = data_alter (stage_set "upload" started_stage) file
                            (data s)).
  { destruct (upload_result upload_fault rec s) as [e|c]; [|done].
    destruct (is_Exception e); [|done]. by injection Hput as _ <-. }
  assert (Hl1 : data_lookup file (data s1)
                = Some (stage_set "upload" started_stage rec)).
  { by rewrite Hs1, data_alter_lookup, Hl. }
  destruct (update_delivery_failure C s1 file (failure_of err) err _
              eq_refl eq_refl Hl1 Hd) as (s2 & Hs2 & Hdata).
  rewrite Hb in Hdata. exists s2. split; [exact Hs2|]. rewrite Hdata.
  split; [|split; [exact Hp|]].
  - rewrite data_lookup_cascade, Hl1. simpl.
    unfold cascade, cancellable. simpl. by rewrite andb_false_r.
  - intros k p i Hk Hne Hdn H1 H2. rewrite list_lookup_fmap, Hs1.
    rewrite (data_alter_other _ _ _ _ _ _ Hk Hne). simpl.
    unfold cascade, cancellable. simpl.
    rewrite H1, H2, bool_decide_eq_true_2 by exact Hdn. reflexivity.
Qed.

Lemma failed_put_is_not_cancelled_witness :
  exists s2,
    update_delivery (put_config true false) (dir_D ++ ["a"])
      (failure_of (upload_failed_msg (dir_D ++ ["a"]) (ready_in_dir "a")
                     (ClientError "Connection reset")))
      (put broken_transfer (dir_D ++ ["a"]) (ready_in_dir "a") ready_folder).2
    = (Ok tt, s2) /\
    data_lookup (dir_D ++ ["a"]) (data s2)
    = Some (stage_set "upload" started_stage (ready_in_dir "a")) /\
    data s2 !! 1%nat
    = Some (dir_D ++ ["b"],
            cancelled (failed_file_msg (dir_D ++ ["a"])
                         (upload_failed_msg (dir_D ++ ["a"]) (ready_in_dir "a")
                            (ClientError "Connection reset")))
              (in_dir_info "b")).
Proof.
  destruct (failed_put_is_not_cancelled (put_config true false) broken_transfer
              (dir_D ++ ["a"]) (ready_in_dir "a")
              (upload_failed_msg (dir_D ++ ["a"]) (ready_in_dir "a")
                 (ClientError "Connection reset"))
              ready_folder
              (put broken_transfer (dir_D ++ ["a"]) (ready_in_dir "a")
                 ready_folder).2
              eq_refl eq_refl eq_refl eq_refl eq_refl)
    as (s2 & H1 & H2 & _ & H3).
  exists s2. split; [exact H1|]. split; [exact H2|].
  apply H3; [reflexivity|discriminate|reflexivity..].
Defined.

(** X23: upload, completion and compensation compose to the identity on
    the bucket.  When [put] stores an object under a key that was free, the
    caller marks the upload finished with [set_progress], and the
    registration never finishes, [_finalize] of the record deletes the
    object again: the bucket is the one before [put]. *)
Theorem put_then_finalize_restores_bucket (W : world) (C : config)
    (upload_fault : string -> option exn) (file : Path) (rec : file_info)
    (c : string) (s : state) :
  proceed rec = true ->
  data_lookup file (data s) = Some rec ->
  upload_fault (new_file rec) = None ->
  fs_read (encrypted_file rec) (fs s) = Some c ->
  bucket_exists s = true ->
  bucket s !! new_file rec = None ->
  finished (database rec) = false ->
  delete_fault W (new_file rec) = None ->
  exists s1 s2 rec2,
    put upload_fault file rec s = (Ok (true, ""), s1) /\
    is_Some (bucket s1 !! new_file rec) /\
    set_progress file false false true false false true s1 = (Ok tt, s2) /\
    data_lookup file (data s2) = Some rec2 /\
    finished (upload rec2) = true /\ new_file rec2 = new_file rec /\
    bucket (_finalize W C file rec2 s2).2 = bucket s.
Proof.
  intros Hp Hl Hf Hr Hb Hfree Hdb Hdel.
  pose proof (put_runs upload_fault file rec rec s Hp Hl) as Hput.
  unfold upload_result in Hput. rewrite Hf, Hr, Hb in Hput. cbv zeta in Hput.
  match type of Hput with _ = (_, ?st) => set (s1 := st) in * end.
  assert (Hb1 : bucket s1 = <[new_file rec := c]> (bucket s)) by reflexivity.
  assert (Hl1 : data_lookup file (data s1)
                = Some (stage_set "upload" started_stage rec)).
  { simpl. by rewrite data_alter_lookup, Hl. }
  clearbody s1. exists s1.
  set (rec1 := stage_set "upload" started_stage rec) in *.
  set (rec2 := stage_set "upload" {| in_progress := false; finished := true |}
                 rec1).
  assert (Hset : set_progress file false false true false false true s1
                 = (Ok tt, with_data (data_alter
                             (stage_set "upload"
                                {| in_progress := false; finished := true |})
                             file (data s1)) s1)).
  { unfold set_progress, data_getitem. run. by rewrite Hl1. }
  eexists _, rec2. split; [exact Hput|]. split.
  { rewrite Hb1, lookup_insert_eq. by eexists. }
  split; [exact Hset|]. split.
  { simpl. by rewrite data_alter_lookup, Hl1. }
  split; [reflexivity|]. split; [reflexivity|].
  rewrite finalize_bucket by exact Hdel.
  unfold to_undo. simpl. rewrite Hdb. simpl.
  rewrite Hb1. by apply delete_insert_id.
Qed.

Lemma put_then_finalize_restores_bucket_witness :
  exists s1 s2 rec2,
    put no_upload_fault a_txt processed_info ready_state = (Ok (true, ""), s1) /\
    is_Some (bucket s1 !! "a.txt.zst.ccp") /\
    set_progress a_txt false false true false false true s1 = (Ok tt, s2) /\
    data_lookup a_txt (data s2) = Some rec2 /\
    bucket (_finalize quiet_world (put_config true false) a_txt rec2 s2).2 = ∅.
Proof.
  destruct (put_then_finalize_restores_bucket quiet_world
              (put_config true false) no_upload_fault a_txt processed_info
              "encrypted a" ready_state)
    as (s1 & s2 & rec2 & H1 & H2 & H3 & H4 & _ & _ & H5); try reflexivity.
  exists s1, s2, rec2. auto.
Defined.

(** * Log-in and access *)



(** X25: an owner can only be given through a credentials file.  With
    loose credentials (no file), a user name, a password and a project, the
    check returns at once with the user as owner when no owner was given;
    when an owner was given it goes on to open the file, [Path(None)], which
    is a [TypeError]. *)
Theorem loose_credentials_with_owner (read_config : string -> Login.config_file)
    (a : Login.attrs) :
  Login.truthy (Login.username (Login.user a)) = true ->
  Login.truthy (Login.password (Login.user a)) = true ->
  is_Some (Login.project_id a) ->
  Login._check_user_input read_config None a
  = match Login.project_owner a with
    | None => inr (Login.set_owner (Login.username (Login.user a)) a)
    | Some _ =>
        inl (Login.TypeError
               "expected str, bytes or os.PathLike object, not NoneType")
    end.
Proof.
  intros Hu Hp [pr Hpr].
  unfold Login._check_user_input, Login.loose_credentials.
  rewrite Hu, Hp, Hpr. simpl.
  by destruct (Login.project_owner a).
Qed.

Lemma loose_credentials_with_owner_witness :
  Login._check_user_input no_config None
    (entered (Some "fac") (Some "pw") (Some "p1") (Some "id-res") "put")
  = inl (Login.TypeError
           "expected str, bytes or os.PathLike object, not NoneType").
Proof.
  apply (loose_credentials_with_owner no_config
           (entered (Some "fac") (Some "pw") (Some "p1") (Some "id-res") "put"));
    [reflexivity|reflexivity|by eexists].
Defined.

Lemma check_users_sound (hash : string -> option string -> string)
    (db : list (string * Login.user_doc)) (a a' : Login.attrs) (b : bool) :
  Login.check_users hash db a = inr (b, a') ->
  b = true /\
  exists pre i d post,
    db = pre ++ (i, d) :: post /\
    (forall j e, (j, e) ∈ pre ->
       Login.username (Login.user a) <> Some (Login.doc_username e)) /\
    Login.username (Login.user a) = Some (Login.doc_username d) /\
    Login.doc_password_hash d
    = hash (Login.doc_password_settings d) (Login.password (Login.user a)) /\
    ((Login.doc_role d = "facility" /\ Login.method a = "put") \/
     (Login.doc_role d = "researcher" /\ Login.method a = "get")) /\
    Login.id (Login.user a') = Some i /\
    Login.role (Login.user a') = Some (Login.doc_role d) /\
    Login.username (Login.user a') = Login.username (Login.user a) /\
    Login.project_id a' = Login.project_id a /\
    Login.method a' = Login.method a /\
    Login.project_owner a'
    = if String.eqb (Login.doc_role d) "researcher"
         && (bool_decide (Login.project_owner a = None)
             || bool_decide (Login.project_owner a
                             = Login.username (Login.user a)))
      then Some i else Login.project_owner a.
Proof.
  induction db as [|[i d] rest IH]; simpl; [done|].
  destruct (decide (Login.username (Login.user a)
                    = Some (Login.doc_username d))) as [Hname|Hname];
    [rewrite (bool_decide_eq_true_2 _ Hname)
    |rewrite (bool_decide_eq_false_2 _ Hname)].
  - clear IH.
    destruct (String.eqb (Login.doc_password_hash d)
                (hash (Login.doc_password_settings d)
                   (Login.password (Login.user a)))) eqn:Hh; [|done].
    apply String.eqb_eq in Hh. simpl.
    destruct ((String.eqb (Login.doc_role d) "facility"
               && String.eqb (Login.method a) "put")
              || (String.eqb (Login.doc_role d) "researcher"
                  && String.eqb (Login.method a) "get")) eqn:Hrole; [|done].
    assert (Hfit : (Login.doc_role d = "facility" /\ Login.method a = "put") \/
                   (Login.doc_role d = "researcher" /\ Login.method a = "get")).
    { apply orb_true_iff in Hrole as [Hrole|Hrole];
        apply andb_true_iff in Hrole as [H1 H2];
        apply String.eqb_eq in H1, H2; auto. }
    assert (Hget : String.eqb (Login.doc_role d) "researcher"
                   && String.eqb (Login.method a) "get"
                   = String.eqb (Login.doc_role d) "researcher").
    { destruct Hfit as [[-> ->]|[-> ->]]; reflexivity. }
    rewrite Hget.
    destruct (String.eqb (Login.doc_role d) "researcher"
              && (bool_decide (Login.project_owner a = None)
                  || bool_decide (Login.project_owner a
                                  = Login.username (Login.user a)))) eqn:Hc;
      intros [= <- <-]; (split; [reflexivity|]);
      exists [], i, d, rest; simpl; rewrite ?Hc;
      (split; [reflexivity|]);
      (split; [by intros ?? ?%elem_of_nil|]);
      (split; [exact Hname|]); (split; [exact Hh|]);
      (split; [exact Hfit|]); by repeat split.
  - intros H. destruct (IH H) as (Hb & pre & j & e & post & -> & Hpre & Hrest).
    split; [exact Hb|]. exists ((i, d) :: pre), j, e, post.
    split; [reflexivity|]. split; [|exact Hrest].
    intros k f Hin. apply elem_of_cons in Hin as [[= -> ->]|Hin]; [done|].
    by apply (Hpre k f).
Qed.

(** X26: what [_check_ds_access] grants.  It never returns [False]: when it
    returns, the first document of [user_db] with the user's name has the
    hash of the entered password, the user's identifier is the identifier
    of that document, and the role fits the method (a facility uploads, a
    researcher downloads).  For a researcher without an owner, or with the
    own user name as owner, the owner becomes the user's identifier;
    otherwise the owner is as given. *)
Theorem ds_access_is_sound (hash : string -> option string -> string)
    (user_db : list (string * Login.user_doc)) (a a' : Login.attrs)
    (b : bool) :
  Login._check_ds_access hash user_db a = inr (b, a') ->
  b = true /\
  exists pre i d post,
    user_db = pre ++ (i, d) :: post /\
    (forall j e, (j, e) ∈ pre ->
       Login.username (Login.user a) <> Some (Login.doc_username e)) /\
    Login.username (Login.user a) = Some (Login.doc_username d) /\
    Login.doc_password_hash d
    = hash (Login.doc_password_settings d) (Login.password (Login.user a)) /\
    ((Login.doc_role d = "facility" /\ Login.method a = "put") \/
     (Login.doc_role d = "researcher" /\ Login.method a = "get")) /\
    Login.id (Login.user a') = Some i /\
    Login.project_owner a'
    = if String.eqb (Login.doc_role d) "researcher"
         && (bool_decide (Login.project_owner a = None)
             || bool_decide (Login.project_owner a
                             = Login.username (Login.user a)))
      then Some i else Login.project_owner a.
Proof.
  intros H. apply check_users_sound in H
    as (Hb & pre & i & d & post & H1 & H2 & H3 & H4 & H5 & H6 & _ & _ & _ & _ & H7).
  split; [exact Hb|]. exists pre, i, d, post. by repeat split.
Qed.

Lemma ds_access_is_sound_witness :
  exists a',
    Login._check_ds_access plain_hash two_users
      (entered (Some "res") (Some "pw") (Some "p1") None "get") = inr (true, a') /\
    Login.id (Login.user a') = Some "id-res" /\
    Login.project_owner a' = Some "id-res".
Proof.
  eexists. split; [reflexivity|].
  destruct (ds_access_is_sound plain_hash two_users
              (entered (Some "res") (Some "pw") (Some "p1") None "get") _ true
              eq_refl)
    as (_ & pre & i & d & post & _ & _ & _ & _ & _ & Hi & _).
  split; [|reflexivity]. rewrite Hi. simpl in Hi. exact (eq_sym Hi).
Defined.

(** X27: what [_check_project_access] grants.  It never returns [False]:
    when it returns, the project exists and is one of the user's projects,
    the owner recorded for the project is the owner of the session, the
    delivery option is S3, and the result is the user's S3 project.  A
    session that uploads delivers to an owner other than the user; a session
    that downloads belongs to the owner. *)
Theorem project_access_is_sound (user_db : list (string * Login.user_doc))
    (project_db : gmap string Login.project_doc) (a : Login.attrs)
    (b : bool) (s3 : string) :
  Login._check_project_access user_db project_db a = inr (b, s3) ->
  b = true /\
  exists i me p doc info o,
    Login.id (Login.user a) = Some i /\
    Login.user_lookup i user_db = Some me /\
    Login.project_id a = Some p /\ project_db !! p = Some doc /\
    p ∈ Login.doc_projects me /\
    Login.project_info doc = Some info /\ Login.owner info = Some o /\
    Login.project_owner a = Some o /\
    Login.delivery_option info = Some "S3" /\
    Login.doc_s3_project me = Some s3 /\
    ((Login.method a = "put" /\ o <> i) \/ (Login.method a = "get" /\ o = i)).
Proof.
  unfold Login._check_project_access, Login.user_getitem.
  destruct (Login.id (Login.user a)) as [i|] eqn:Hi; simpl; [|done].
  destruct (Login.user_lookup i user_db) as [me|] eqn:Hme; [|done].
  destruct (Login.project_id a) as [p|] eqn:Hp; simpl; [|done].
  destruct (project_db !! p) as [doc|] eqn:Hdoc; [|done].
  case_bool_decide as Hin; simpl; [|done].
  destruct (Login.project_info doc) as [info|] eqn:Hinfo; [|done].
  destruct (Login.owner info) as [o|] eqn:Ho; [|done].
  destruct ((String.eqb (Login.method a) "put"
             && bool_decide (Some o = Login.project_owner a)
             && negb (bool_decide (Login.project_owner a = Some i)))
            || (String.eqb (Login.method a) "get"
                && bool_decide (Some o = Login.project_owner a)
                && bool_decide (Login.project_owner a = Some i))) eqn:Hcond;
    [|done].
  destruct (Login.delivery_option info) as [opt|] eqn:Hopt; [|done].
  destruct (String.eqb_spec opt "S3") as [->|]; [|done]. simpl.
  destruct (Login.doc_s3_project me) as [s3'|] eqn:Hs3; [|done].
  intros [= <- <-]. split; [reflexivity|].
  exists i, me, p, doc, info, o.
  apply list_elem_of_fmap in Hin as (p' & [= <-] & Hin).
  assert (Hown : Login.project_owner a = Some o /\
                 ((Login.method a = "put" /\ o <> i) \/
                  (Login.method a = "get" /\ o = i))).
  { apply orb_true_iff in Hcond as [Hc|Hc];
      apply andb_true_iff in Hc as [Hc H3];
      apply andb_true_iff in Hc as [H1 H2];
      apply String.eqb_eq in H1; apply bool_decide_eq_true in H2.
    - apply negb_true_iff, bool_decide_eq_false in H3.
      split; [done|]. left. split; [done|]. congruence.
    - apply bool_decide_eq_true in H3.
      split; [done|]. right. split; [done|]. congruence. }
  destruct Hown as [Hown Hm]. by repeat split.
Qed.

Lemma project_access_is_sound_witness :
  Login._check_project_access two_users one_project
    (Login.set_id "id-fac"
       (entered (Some "fac") (Some "pw") (Some "p1") (Some "id-res") "put"))
  = inr (true, "s3-fac") /\
  exists o, Login.project_owner
              (Login.set_id "id-fac"
                 (entered (Some "fac") (Some "pw") (Some "p1") (Some "id-res")
                    "put")) = Some o /\ o <> "id-fac".
Proof.
  split; [reflexivity|].
  destruct (project_access_is_sound two_users one_project
              (Login.set_id "id-fac"
                 (entered (Some "fac") (Some "pw") (Some "p1") (Some "id-res")
                    "put")) true "s3-fac" eq_refl)
    as (_ & i & me & p & doc & info & o & Hi & _ & _ & _ & _ & _ & _ & Ho & _ & _
        & Hm).
  exists o. split; [exact Ho|]. injection Hi as <-.
  destruct Hm as [[_ Hne]|[Hget _]]; [exact Hne|discriminate Hget].
Defined.


(** ** The recipient's key *)

(** X30: the key of the recipient after access was granted.  When
    [_check_project_access] has passed for the attributes of a session, the
    checks of [get_recipient_key] on the project, its information and its
    owner cannot fail: the result is decided by the recorded keys alone.  It
    is the decoded value recorded under the key type, a [CouchDBException]
    when the project has no keys or none of that type, and a [ValueError]
    when the value is not hexadecimal. *)
Theorem recipient_key_after_access (user_db : list (string * Login.user_doc))
    (project_db : gmap string Login.project_doc)
    (fromhex : string -> option (list Byte.byte)) (a : Login.attrs)
    (keytype : string) (b : bool) (s3 : string) :
  Login._check_project_access user_db project_db a = inr (b, s3) ->
  exists p doc,
    Login.project_id a = Some p /\ project_db !! p = Some doc /\
    match get_recipient_key project_db fromhex a keytype with
    | inr key =>
        exists keys hex,
          Login.project_keys doc = Some keys /\ keys !! keytype = Some hex /\
          fromhex hex = Some key
    | inl (Login.Exn (CouchDBException _)) =>
        Login.project_keys doc = None \/
        exists keys, Login.project_keys doc = Some keys /\
                     keys !! keytype = None
    | inl (Login.ValueError _) =>
        exists keys hex,
          Login.project_keys doc = Some keys /\ keys !! keytype = Some hex /\
          fromhex hex = None
    | inl _ => False
    end.
Proof.
  intros H.
  assert (Hacc : exists p doc info o,
            Login.project_id a = Some p /\ project_db !! p = Some doc /\
            Login.project_info doc = Some info /\ Login.owner info = Some o /\
            Login.project_owner a = Some o).
  { unfold Login._check_project_access in H.
    destruct (Login.user_getitem user_db (Login.id (Login.user a))); [done|].
    destruct (Login.project_id a) as [p|]; simpl in H; [|done].
    destruct (project_db !! p) as [doc|] eqn:Hdoc; [|done].
    destruct (negb _) in H; [done|].
    destruct (Login.project_info doc) as [info|] eqn:Hinfo; [|done].
    destruct (Login.owner info) as [o|] eqn:Ho; [|done].
    exists p, doc, info, o. repeat (split; [done|]).
    destruct (_ || _) eqn:Hcond in H; [|done].
    apply orb_true_iff in Hcond as [Hc|Hc];
      apply andb_true_iff in Hc as [Hc _];
      apply andb_true_iff in Hc as [_ Hc];
      by apply bool_decide_eq_true in Hc. }
  destruct Hacc as (p & doc & info & o & Hp & Hdoc & Hinfo & Ho & Hown).
  exists p, doc. split; [exact Hp|]. split; [exact Hdoc|].
  unfold get_recipient_key. rewrite Hp. simpl. rewrite Hdoc, Hinfo, Ho.
  rewrite (bool_decide_eq_true_2 _ Hown). simpl.
  destruct (Login.project_keys doc) as [keys|]; [|by left].
  destruct (keys !! keytype) as [hex|] eqn:Hk; [|right; by eauto].
  destruct (fromhex hex) eqn:Hh; by eauto.
Qed.

Lemma recipient_key_after_access_witness :
  get_recipient_key keyed_project one_hex
    (Login.set_id "id-fac"
       (entered (Some "fac") (Some "pw") (Some "p1") (Some "id-res") "put"))
    "public"
  = inr [Byte.x0a; Byte.xff] /\
  exists p doc,
    Login.project_id
      (Login.set_id "id-fac"
         (entered (Some "fac") (Some "pw") (Some "p1") (Some "id-res") "put"))
    = Some p /\ keyed_project !! p = Some doc.
Proof.
  split; [reflexivity|].
  destruct (recipient_key_after_access two_users keyed_project one_hex
              (Login.set_id "id-fac"
                 (entered (Some "fac") (Some "pw") (Some "p1") (Some "id-res")
                    "put")) "public" true "s3-fac" eq_refl)
    as (p & doc & Hp & Hdoc & _).
  exists p, doc. split; [exact Hp | exact Hdoc].
Defined.
